(** * Data sanity checks for the simulated QPU leasing dataset

    A shallow embedding of [data_sanity_check.py].  The script validates a
    pandas [DataFrame] with six check functions and one orchestrator.  The
    embedding keeps the data as pandas has it:

    - integer columns are [int64]: element-wise [+] and [Series.sum] wrap
      around modulo 2^64;
    - [/] on integer columns is IEEE-754 binary64 true division, the
      literals [0.50], [0.60], [0.40], [0.05] are the nearest doubles and
      comparisons with NaN are false;
    - the frame is a finite map from column names to columns, assigned in
      place by [df[name] = ...];
    - [print] appends to an output log, a missing column raises [KeyError].

    The file has three parts: the program, the vocabulary of the
    statements with the frames of the worked examples, and the properties:
    how statements run, what they may do to the state, what true division
    computes and how the doubles of the distribution check round, then
    one section for each claim of the specification, and further
    properties of the checks and of the orchestrator.
*)

From Stdlib Require Import ZArith List Bool Ascii String Lia.
From Stdlib Require Import Floats.SpecFloat.
From stdpp Require Import base option list gmap strings fin_maps.

Local Open Scope string_scope.
Local Open Scope list_scope.
Local Open Scope Z_scope.

(** ** Machine integers: numpy [int64] *)

Module Int64.

Definition min_int : Z := - 2 ^ 63.
Definition max_int : Z := 2 ^ 63 - 1.

Definition in_range (z : Z) : Prop := min_int <= z <= max_int.

(** Two's complement reduction of a mathematical integer. *)
Definition wrap (z : Z) : Z := (z + 2 ^ 63) mod 2 ^ 64 - 2 ^ 63.

Definition add (a b : Z) : Z := wrap (a + b).

(** [Series.sum()] over an [int64] column: the accumulator is [int64]. *)
Definition sum (l : list Z) : Z := fold_left add l 0.

End Int64.

(** ** Floating point: IEEE-754 binary64 *)

Module F64.

Definition prec : Z := 53.
Definition emax : Z := 1024.

Abbreviation float := spec_float.

(** Conversion of an [int64] to [float64] (round to nearest even). *)
Definition of_int (z : Z) : float := binary_normalize prec emax z 0 false.

Definition div (x y : float) : float := SFdiv prec emax x y.
Definition mul (x y : float) : float := SFmul prec emax x y.
Definition sub (x y : float) : float := SFsub prec emax x y.
Definition abs (x : float) : float := SFabs x.
Definition leb (x y : float) : bool := SFleb x y.
Definition gtb (x y : float) : bool := SFltb y x.

(** The literals of the script, as the doubles Python reads them. *)
Definition lit_0_50 : float := S754_finite false 4503599627370496 (-53).
Definition lit_0_60 : float := S754_finite false 5404319552844595 (-53).
Definition lit_0_40 : float := S754_finite false 7205759403792794 (-54).
Definition lit_0_05 : float := S754_finite false 7205759403792794 (-57).

(** [Series.between(lo, hi)] on one cell: [lo <= x <= hi], both ends
    included; false on NaN. *)
Definition between (lo hi x : float) : bool := leb lo x && leb x hi.

End F64.

(** ** Columns and frames *)

(** A pandas [Series] with its dtype, for the dtypes of the data model:
    [int64] counts, [object] strings as [read_csv] leaves unparsed text,
    and [datetime64[ns]].  [None] in an object column is a missing cell,
    [None] in a datetime column is [NaT]; a timestamp is a number of
    nanoseconds since the epoch.  The checks compute with no column of
    another dtype; [total_daily_cost], which is only tested for presence,
    can be kept as any of these. *)
Inductive column : Type :=
| IntCol (l : list Z)
| StrCol (l : list (option string))
| DateCol (l : list (option Z)).

(** The frame: [df.columns] is the domain, [df[name]] the lookup. *)
Abbreviation DataFrame := (gmap string column).

Definition col_len (c : column) : nat :=
  match c with
  | IntCol l => length l
  | StrCol l => length l
  | DateCol l => length l
  end.

(** Every column of a frame has one row per record. *)
Definition df_wf (nrows : nat) (df : DataFrame) : Prop :=
  map_Forall (λ _ c, col_len c = nrows) df.

(** ** Output and exceptions *)

(** What the script prints, one constructor per [print] call. *)
Inductive msg : Type :=
| MissingRequired (missing : list string)
| AllRequiredPresent
| DateRangeBad (num_days : option Z)
| DateRangeOk (num_days : option Z)
| BlocksOutOfRange
| BlocksInRange
| WorkloadsOutOfRange
| WorkloadsInRange
| DistributionUnequal
| DistributionTotals (atom photon spin : Z) (avg : spec_float)
| DistributionEqual
| AssignMissing (missing : list string)
| AssignMismatch
| AssignTodayBad
| AssignOlderBad
| AssignOk
| CheckingColumns
| CheckingDates
| CheckingBlocks
| CheckingWorkloads
| CheckingDistribution
| AllPassed
| SomeFailed.

Inductive exn : Type :=
| KeyError (name : string)
| ParseError
| OutOfBoundsTimedelta
| TypeError.

(** ** The interpreter state and its monad *)

Record state : Type := State { frame : DataFrame; output : list msg }.

Inductive result (A : Type) : Type :=
| Ok (a : A)
| Raise (e : exn).
Arguments Ok {A} a.
Arguments Raise {A} e.

(** A statement runs in a state and ends by returning or raising; the
    state it leaves is kept in both cases, as Python keeps mutations made
    before an exception. *)
Definition M (A : Type) : Type := state → result A * state.

Definition ret {A} (a : A) : M A := λ s, (Ok a, s).

Definition bind {A B} (m : M A) (k : A → M B) : M B :=
  λ s, match m s with
       | (Ok a, s') => k a s'
       | (Raise e, s') => (Raise e, s')
       end.

Declare Scope py_scope.
Delimit Scope py_scope with py.
Notation "x <- m ;; k" := (bind m (λ x, k))
  (at level 100, m at next level, right associativity) : py_scope.
Notation "m ;;; k" := (bind m (λ _, k))
  (at level 100, right associativity) : py_scope.
Local Open Scope py_scope.

Definition print (m : msg) : M unit :=
  λ s, (Ok tt, State (frame s) (output s ++ [m])).

(** [df[name]] *)
Definition getitem (name : string) : M column :=
  λ s, match frame s !! name with
       | Some c => (Ok c, s)
       | None => (Raise (KeyError name), s)
       end.

(** [df[name] = c] *)
Definition setitem (name : string) (c : column) : M unit :=
  λ s, (Ok tt, State (<[name := c]> (frame s)) (output s)).

(** Lifting of a pure step that can raise. *)
Definition lift {A} (r : result A) : M A := λ s, (r, s).

(** ** Series operations *)

(** The values of a column in an arithmetic position.  The columns the
    checks compute with are [int64]; a frame read from a file without
    records has [object] columns without cells, on which every
    element-wise operation gives the empty series.  Columns of text or of
    timestamps that hold cells are not modelled as operands: pandas
    concatenates and compares two text columns cell by cell and fails on
    the other mixtures, and here each of them ends the check with
    [TypeError]. *)
Definition values_of (c : column) : result (list Z) :=
  match c with
  | IntCol l => Ok l
  | StrCol [] => Ok []
  | _ => Raise TypeError
  end.

Definition result_bind {A B} (r : result A) (k : A → result B) : result B :=
  match r with
  | Ok a => k a
  | Raise e => Raise e
  end.

(** [a + b] on two columns of one frame, element by element. *)
Definition col_add (a b : column) : result column :=
  result_bind (values_of a) (λ x,
  result_bind (values_of b) (λ y,
  Ok (IntCol (zip_with Int64.add x y)))).

(** [a == b], element by element. *)
Definition col_eq (a b : column) : result (list bool) :=
  result_bind (values_of a) (λ x,
  result_bind (values_of b) (λ y,
  Ok (zip_with Z.eqb x y))).

(** [a / b]: true division, both operands converted to [float64]; a zero
    divisor gives an infinity or NaN, not an exception. *)
Definition truediv (n d : Z) : spec_float :=
  F64.div (F64.of_int n) (F64.of_int d).

Definition col_truediv (a b : column) : result (list spec_float) :=
  result_bind (values_of a) (λ x,
  result_bind (values_of b) (λ y,
  Ok (zip_with truediv x y))).

(** [c.between(lo, hi)] with integer bounds, both ends included. *)
Definition between_int (lo hi x : Z) : bool := (lo <=? x) && (x <=? hi).

Definition col_between_int (lo hi : Z) (c : column) : result (list bool) :=
  result_bind (values_of c) (λ l, Ok (map (between_int lo hi) l)).

(** [r.between(lo, hi)] on a series of ratios. *)
Definition ratios_between (lo hi : spec_float) (r : list spec_float) : list bool :=
  map (F64.between lo hi) r.

(** [c.sum()] *)
Definition col_sum (c : column) : result Z :=
  result_bind (values_of c) (λ l, Ok (Int64.sum l)).

(** [s.all()] on a boolean series; true on the empty series. *)
Definition all (l : list bool) : bool := forallb id l.

(** [c.min()] and [c.max()] on a datetime column skip [NaT] and give
    [NaT] when nothing is left. *)
Definition ts_fold (f : Z → Z → Z) (l : list (option Z)) : option Z :=
  foldr (λ x acc, match x, acc with
                  | Some a, Some b => Some (f a b)
                  | Some a, None => Some a
                  | None, _ => acc
                  end) None l.

Definition col_min (c : column) : result (option Z) :=
  match c with
  | DateCol l => Ok (ts_fold Z.min l)
  | _ => Raise TypeError
  end.

Definition col_max (c : column) : result (option Z) :=
  match c with
  | DateCol l => Ok (ts_fold Z.max l)
  | _ => Raise TypeError
  end.

Definition nanos_per_day : Z := 86400000000000.

(** [(max_date - min_date).days]: the whole days of the difference; NaN
    (here [None]) when either side is [NaT]; the difference itself must
    fit a [Timedelta].  Timestamps are counted in nanoseconds, the
    resolution of [datetime64[ns]], and the bound is the one of that
    resolution; at a coarser resolution a larger difference fits. *)
Definition timedelta_days (min_date max_date : option Z) : result (option Z) :=
  match min_date, max_date with
  | Some a, Some b =>
      if Int64.max_int <? b - a then Raise OutOfBoundsTimedelta
      else Ok (Some ((b - a) / nanos_per_day))
  | _, _ => Ok None
  end.

(** [n < k] and [n > k] for a day count that may be NaN. *)
Definition days_lt (n : option Z) (k : Z) : bool :=
  match n with Some d => d <? k | None => false end.
Definition days_gt (n : option Z) (k : Z) : bool :=
  match n with Some d => k <? d | None => false end.

(** ** The checks *)

Definition expected_columns : list string :=
  ["date"; "new_blocks_atom"; "new_blocks_photon"; "new_blocks_spin";
   "workloads_older_blocks"; "workloads_new_blocks"; "total_daily_cost"].

(** [[col for col in cols if col not in df.columns]] *)
Definition missing_columns (cols : list string) : M (list string) :=
  λ s, (Ok (List.filter (λ col, bool_decide (frame s !! col = None)) cols), s).

Definition is_nonempty {A} (l : list A) : bool :=
  match l with [] => false | _ :: _ => true end.

Definition check_required_columns : M bool :=
  missing <- missing_columns expected_columns;;
  if is_nonempty missing then
    (print (MissingRequired missing);;;
     ret false)
  else
    (print AllRequiredPresent;;;
     ret true).

Definition check_blocks_leased_range : M bool :=
  atom <- getitem "new_blocks_atom";;
  photon <- getitem "new_blocks_photon";;
  s1 <- lift (col_add atom photon);;
  spin <- getitem "new_blocks_spin";;
  total <- lift (col_add s1 spin);;
  setitem "total_blocks_leased" total;;;
  c <- getitem "total_blocks_leased";;
  inside <- lift (col_between_int 1000 10000 c);;
  if negb (all inside) then
    (print BlocksOutOfRange;;;
     ret false)
  else
    (print BlocksInRange;;;
     ret true).

Definition check_workload_range : M bool :=
  c <- getitem "total_workloads";;
  inside <- lift (col_between_int 1000000 50000000 c);;
  if negb (all inside) then
    (print WorkloadsOutOfRange;;;
     ret false)
  else
    (print WorkloadsInRange;;;
     ret true).

Definition check_equal_distribution (tolerance : spec_float) : M bool :=
  c_atom <- getitem "new_blocks_atom";;
  total_atom <- lift (col_sum c_atom);;
  c_photon <- getitem "new_blocks_photon";;
  total_photon <- lift (col_sum c_photon);;
  c_spin <- getitem "new_blocks_spin";;
  total_spin <- lift (col_sum c_spin);;
  let avg := F64.div (F64.of_int (Int64.add (Int64.add total_atom total_photon) total_spin))
                     (F64.of_int 3) in
  let diff_atom := F64.abs (F64.sub (F64.of_int total_atom) avg) in
  let diff_photon := F64.abs (F64.sub (F64.of_int total_photon) avg) in
  let diff_spin := F64.abs (F64.sub (F64.of_int total_spin) avg) in
  if F64.gtb diff_atom (F64.mul tolerance avg)
     || F64.gtb diff_photon (F64.mul tolerance avg)
     || F64.gtb diff_spin (F64.mul tolerance avg) then
    (print DistributionUnequal;;;
     print (DistributionTotals total_atom total_photon total_spin avg);;;
     ret false)
  else
    (print DistributionEqual;;;
     ret true).

Definition required_cols : list string :=
  ["total_workloads"; "workloads_new_blocks"; "workloads_older_blocks"].

Definition check_workload_assignment : M bool :=
  missing <- missing_columns required_cols;;
  if is_nonempty missing then
    (print (AssignMissing missing);;;
     ret false)
  else
    new1 <- getitem "workloads_new_blocks";;
    older1 <- getitem "workloads_older_blocks";;
    split <- lift (col_add new1 older1);;
    total1 <- getitem "total_workloads";;
    same <- lift (col_eq split total1);;
    if negb (all same) then
      (print AssignMismatch;;;
       ret false)
    else
      new2 <- getitem "workloads_new_blocks";;
      total2 <- getitem "total_workloads";;
      ratio_today <- lift (col_truediv new2 total2);;
      older3 <- getitem "workloads_older_blocks";;
      total3 <- getitem "total_workloads";;
      ratio_older <- lift (col_truediv older3 total3);;
      if negb (all (ratios_between F64.lit_0_50 F64.lit_0_60 ratio_today)) then
        (print AssignTodayBad;;;
         ret false)
      else
      if negb (all (ratios_between F64.lit_0_40 F64.lit_0_50 ratio_older)) then
        (print AssignOlderBad;;;
         ret false)
      else
        (print AssignOk;;;
         ret true).

Section WithDateParser.

(** [pd.to_datetime] on a column that is not yet a datetime column is
    the library's parser: it gives the timestamps, or fails on a value
    it cannot read. *)
Variable parse_dates : column → option (list (option Z)).

Definition to_datetime (c : column) : result column :=
  match c with
  | DateCol l => Ok (DateCol l)
  | _ => match parse_dates c with
         | Some l => Ok (DateCol l)
         | None => Raise ParseError
         end
  end.

Definition check_date_range_six_months : M bool :=
  raw <- getitem "date";;
  parsed <- lift (to_datetime raw);;
  setitem "date" parsed;;;
  c1 <- getitem "date";;
  min_date <- lift (col_min c1);;
  c2 <- getitem "date";;
  max_date <- lift (col_max c2);;
  num_days <- lift (timedelta_days min_date max_date);;
  if days_lt num_days 170 || days_gt num_days 190 then
    (print (DateRangeBad num_days);;;
     ret false)
  else
    (print (DateRangeOk num_days);;;
     ret true).

(** [run_all_checks], from the frame [pd.read_csv] has loaded. *)
Definition run_all_checks : M bool :=
  print CheckingColumns;;;
  cols_ok <- check_required_columns;;
  print CheckingDates;;;
  date_ok <- check_date_range_six_months;;
  print CheckingBlocks;;;
  blocks_ok <- check_blocks_leased_range;;
  print CheckingWorkloads;;;
  workload_ok <- check_workload_range;;
  print CheckingDistribution;;;
  distribution_ok <- check_equal_distribution F64.lit_0_05;;
  let all_checks := cols_ok && date_ok && blocks_ok && workload_ok && distribution_ok in
  (if all_checks then print AllPassed else print SomeFailed);;;
  ret all_checks.

End WithDateParser.

(** * The vocabulary of the statements *)

(** ** States and what a statement may do to them *)

(** A state with one more printed line. *)
Definition say (m : msg) (s : state) : state :=
  State (frame s) (output s ++ [m]).

(** [respects R m]: whatever [m] returns or raises, the state it leaves is
    related by [R] to the state it started in. *)
Definition respects (R : state → state → Prop) {A} (m : M A) : Prop :=
  ∀ s, R s (snd (m s)).

(** The frame is left as it was. *)
Definition same_frame (s s' : state) : Prop := frame s' = frame s.

(** No column but [name] is assigned. *)
Definition same_but (name : string) (s s' : state) : Prop :=
  delete name (frame s') = delete name (frame s).

(** Lines are only added to the output, and all of them satisfy [P]. *)
Definition prints_only (P : msg → Prop) (s s' : state) : Prop :=
  ∃ extra, output s' = output s ++ extra ∧ Forall P extra.

(** The lines of the workload assignment check. *)
Definition from_assignment_check (m : msg) : bool :=
  match m with
  | AssignMissing _ | AssignMismatch | AssignTodayBad | AssignOlderBad | AssignOk => true
  | _ => false
  end.

Definition not_from_assignment (m : msg) : Prop := from_assignment_check m = false.

(** [frame_determined m]: what [m] returns and the frame it leaves depend
    on the frame alone, not on what has been printed. *)
Definition frame_determined {A} (m : M A) : Prop :=
  ∀ s1 s2, frame s1 = frame s2 →
    fst (m s1) = fst (m s2) ∧ frame (snd (m s1)) = frame (snd (m s2)).

(** The state after [df['date'] = pd.to_datetime(df['date'])]. *)
Definition with_dates (l : list (option Z)) (s : state) : state :=
  State (<["date" := DateCol l]> (frame s)) (output s).

(** The state after [df['total_blocks_leased'] = ...]. *)
Definition with_totals (totals : list Z) (s : state) : state :=
  State (<["total_blocks_leased" := IntCol totals]> (frame s)) (output s).

(** ** The quantities of the checks *)

(** The whole days from the earliest to the latest timestamp. *)
Definition span_days (min_date max_date : Z) : Z :=
  (max_date - min_date) / nanos_per_day.

(** [new_blocks_atom + new_blocks_photon + new_blocks_spin], per record. *)
Definition total_blocks (atom photon spin : list Z) : list Z :=
  zip_with Int64.add (zip_with Int64.add atom photon) spin.

(** What the check asks of one record: the split adds up to the total in
    [int64], and both computed ratios lie between their literals. *)
Definition record_assignment_ok (n o t : Z) : Prop :=
  Int64.add n o = t
  ∧ F64.between F64.lit_0_50 F64.lit_0_60 (truediv n t) = true
  ∧ F64.between F64.lit_0_40 F64.lit_0_50 (truediv o t) = true.

(** The quantities of the check, named as in the script. *)
Definition average (total_atom total_photon total_spin : Z) : spec_float :=
  F64.div (F64.of_int (Int64.add (Int64.add total_atom total_photon) total_spin))
          (F64.of_int 3).

Definition deviation (total : Z) (avg : spec_float) : spec_float :=
  F64.abs (F64.sub (F64.of_int total) avg).

(** [diff > tolerance * avg] *)
Definition exceeds (tolerance : spec_float) (total : Z) (avg : spec_float) : bool :=
  F64.gtb (deviation total avg) (F64.mul tolerance avg).

(** [diff <= tolerance * avg] *)
Definition within (tolerance : spec_float) (total : Z) (avg : spec_float) : bool :=
  F64.leb (deviation total avg) (F64.mul tolerance avg).

(** No total exceeds the threshold; every total is within it. *)
Definition none_exceeds (tolerance : spec_float) (atom photon spin : Z) : Prop :=
  exceeds tolerance atom (average atom photon spin) = false
  ∧ exceeds tolerance photon (average atom photon spin) = false
  ∧ exceeds tolerance spin (average atom photon spin) = false.

Definition all_within (tolerance : spec_float) (atom photon spin : Z) : Prop :=
  within tolerance atom (average atom photon spin) = true
  ∧ within tolerance photon (average atom photon spin) = true
  ∧ within tolerance spin (average atom photon spin) = true.

(** A column without cells, as [read_csv] gives for a file that has only
    its header line. *)
Definition has_no_records (c : column) : bool :=
  match c with
  | IntCol [] | StrCol [] => true
  | _ => false
  end.

Definition columns_without_records (names : list string) (df : DataFrame) : bool :=
  forallb (λ name, match df !! name with
                   | Some c => has_no_records c
                   | None => false
                   end) names.

(** ** Doubles and their rounding *)

(** A double that is a number: neither an infinity nor NaN. *)
Definition is_number (x : spec_float) : bool :=
  match x with
  | S754_zero _ | S754_finite _ _ _ => true
  | _ => false
  end.

Definition not_nan (x : spec_float) : bool :=
  match x with
  | S754_nan => false
  | _ => true
  end.

(** Rounding to nearest, ties to even, of a mantissa with the position of
    the exact value after it. *)
Definition rne := round_nearest_even.

(** The double of a rounded 53-bit mantissa [M] at exponent [e]; rounding
    up to [2^53] moves to the next binade. *)
Definition finish (M e : Z) : spec_float :=
  if M <? 2 ^ 53 then S754_finite false (Z.to_pos M) e
  else S754_finite false (Z.to_pos (2 ^ 52)) (e + 1).

(** The second half of [binary_round_aux]: a rounded mantissa is brought
    back to 53 bits. *)
Definition normalize (m e : Z) : spec_float :=
  let '(mrs, e') := shr_fexp F64.prec F64.emax m e loc_Exact in
  match shr_m mrs with
  | Z0 => S754_zero false
  | Zpos p => if e' <=? F64.emax - F64.prec then S754_finite false p e' else S754_infinity false
  | Zneg _ => S754_nan
  end.

(** The position after one more bit of the mantissa is shifted out. *)
Definition loc_half (odd : bool) (l : location) : location :=
  match l with
  | loc_Exact => if odd then loc_Inexact Eq else loc_Exact
  | loc_Inexact _ => if odd then loc_Inexact Gt else loc_Inexact Lt
  end.

(** The position of [a / b] between [a div b] and its successor, and the
    double of the quotient [a / b] scaled by [2^e]. *)
Definition locate (a b : Z) : location :=
  if a mod b =? 0 then loc_Exact else loc_Inexact (2 * (a mod b) ?= b).

Definition round_located (a b e : Z) : spec_float :=
  finish (rne (a / b) (locate a b)) e.

(** The double nearest to [n * 2^e], for a positive integer [n]. *)
Definition round_pos (n e : Z) : spec_float :=
  round_located (n * 2 ^ 53) (2 ^ Zdigits2 n) (e + Zdigits2 n - 53).

(** ** A date parser for the examples

    An instance of [pd.to_datetime] for worked examples: it reads
    [YYYY-MM-DD] text, keeps a missing cell as [NaT] and takes integers as
    nanoseconds since the epoch. *)

Module IsoDate.

Definition digit (a : ascii) : option Z :=
  let n := Z.of_nat (Ascii.nat_of_ascii a) in
  if (48 <=? n) && (n <=? 57) then Some (n - 48) else None.

Fixpoint number (acc : Z) (l : list ascii) : option Z :=
  match l with
  | [] => Some acc
  | a :: l' => match digit a with
               | Some d => number (10 * acc + d) l'
               | None => None
               end
  end.

Definition is_leap (y : Z) : bool :=
  ((y mod 4 =? 0) && negb (y mod 100 =? 0)) || (y mod 400 =? 0).

Definition days_in_month (y m : Z) : Z :=
  if m =? 2 then (if is_leap y then 29 else 28)
  else if (m =? 4) || (m =? 6) || (m =? 9) || (m =? 11) then 30
  else 31.

(** Days from 1970-01-01 to the given civil date. *)
Definition days_from_civil (y m d : Z) : Z :=
  let y' := if m <=? 2 then y - 1 else y in
  let era := y' / 400 in
  let yoe := y' - era * 400 in
  let doy := (153 * (if 2 <? m then m - 3 else m + 9) + 2) / 5 + d - 1 in
  let doe := yoe * 365 + yoe / 4 - yoe / 100 + doy in
  era * 146097 + doe - 719468.

Definition parse (s : string) : option Z :=
  match list_ascii_of_string s with
  | [y1; y2; y3; y4; "-"%char; m1; m2; "-"%char; d1; d2] =>
      match number 0 [y1; y2; y3; y4], number 0 [m1; m2], number 0 [d1; d2] with
      | Some y, Some m, Some d =>
          if (1 <=? m) && (m <=? 12) && (1 <=? d) && (d <=? days_in_month y m)
          then Some (days_from_civil y m d * nanos_per_day)
          else None
      | _, _, _ => None
      end
  | _ => None
  end.

Fixpoint parse_cells (l : list (option string)) : option (list (option Z)) :=
  match l with
  | [] => Some []
  | None :: l' => option_map (cons None) (parse_cells l')
  | Some s :: l' =>
      match parse s, parse_cells l' with
      | Some t, Some ts => Some (Some t :: ts)
      | _, _ => None
      end
  end.

Definition parse_dates (c : column) : option (list (option Z)) :=
  match c with
  | StrCol l => parse_cells l
  | IntCol l => Some (map Some l)
  | DateCol l => Some l
  end.

End IsoDate.

(** ** Frames for the examples *)

(** A frame with the seven columns the schema check asks for and one
    record, without [total_workloads]. *)
Definition df_required_only : DataFrame :=
  list_to_map
    [("date", StrCol [Some "2024-01-01"]);
     ("new_blocks_atom", IntCol [400]);
     ("new_blocks_photon", IntCol [400]);
     ("new_blocks_spin", IntCol [300]);
     ("workloads_older_blocks", IntCol [450]);
     ("workloads_new_blocks", IntCol [550]);
     ("total_daily_cost", IntCol [12])].

(** A frame of two records half a year apart that lacks
    [total_daily_cost]: the schema check fails and the four others pass. *)
Definition df_without_cost : DataFrame :=
  list_to_map
    [("date", StrCol [Some "2024-01-01"; Some "2024-06-29"]);
     ("new_blocks_atom", IntCol [400; 500]);
     ("new_blocks_photon", IntCol [400; 500]);
     ("new_blocks_spin", IntCol [400; 500]);
     ("workloads_older_blocks", IntCol [450000; 900000]);
     ("workloads_new_blocks", IntCol [550000; 1100000]);
     ("total_workloads", IntCol [1000000; 2000000])].

(** A frame with the three columns of the workload assignment check. *)
Definition df_assignment (total new older : list Z) : DataFrame :=
  list_to_map
    [("total_workloads", IntCol total);
     ("workloads_new_blocks", IntCol new);
     ("workloads_older_blocks", IntCol older)].

(** A frame of two records, the later date first. *)
Definition df_dates (first last : string) : DataFrame :=
  list_to_map [("date", StrCol [Some last; Some first])].

(** A frame with the three category columns. *)
Definition df_blocks (atom photon spin : list Z) : DataFrame :=
  list_to_map
    [("new_blocks_atom", IntCol atom);
     ("new_blocks_photon", IntCol photon);
     ("new_blocks_spin", IntCol spin)].

(** One record, so that the cumulative totals are its three counts. *)
Definition df_totals (atom photon spin : Z) : DataFrame :=
  df_blocks [atom] [photon] [spin].

(** The frame [read_csv] gives for a file with the header line only. *)
Definition df_header_only : DataFrame :=
  list_to_map
    [("date", StrCol []);
     ("new_blocks_atom", StrCol []);
     ("new_blocks_photon", StrCol []);
     ("new_blocks_spin", StrCol []);
     ("workloads_older_blocks", StrCol []);
     ("workloads_new_blocks", StrCol []);
     ("total_daily_cost", StrCol []);
     ("total_workloads", StrCol [])].

(** ** The vocabulary of the further properties *)

(** The state is left as it was. *)
Definition untouched (s s' : state) : Prop := s' = s.

(** Nothing is printed. *)
Definition same_output (s s' : state) : Prop := output s' = output s.

(** [raising_respects R m]: when [m] raises, the state it leaves is related
    by [R] to the state it started in. *)
Definition raising_respects (R : state → state → Prop) {A} (m : M A) : Prop :=
  ∀ s e s', m s = (Raise e, s') → R s s'.

(** Two states whose frames have the same columns under [names]. *)
Definition agree_on (names : list string) (s1 s2 : state) : Prop :=
  ∀ name, name ∈ names → frame s1 !! name = frame s2 !! name.

(** [reads_only pre post m]: what [m] returns or raises depends on the
    columns [pre] alone, and when it returns it leaves frames that agree
    on [post]. *)
Definition reads_only (pre post : list string) {A} (m : M A) : Prop :=
  ∀ s1 s2, agree_on pre s1 s2 →
    fst (m s1) = fst (m s2)
    ∧ ∀ a, fst (m s1) = Ok a → agree_on post (snd (m s1)) (snd (m s2)).

(** The summary lines of the orchestrator. *)
Definition is_summary (m : msg) : bool :=
  match m with
  | AllPassed | SomeFailed => true
  | _ => false
  end.

Definition not_summary (m : msg) : Prop := is_summary m = false.

(** The columns the checks of the orchestrator index. *)
Definition columns_read : list string :=
  ["date"; "new_blocks_atom"; "new_blocks_photon"; "new_blocks_spin"; "total_workloads"].

(** What the date range check asks of the parsed dates: no date at all, or
    170 to 190 days from the earliest to the latest. *)
Definition date_span_ok (l : list (option Z)) : Prop :=
  match ts_fold Z.min l, ts_fold Z.max l with
  | Some min_date, Some max_date => 170 <= span_days min_date max_date <= 190
  | _, _ => True
  end.

(** The sum of a column as an integer, without a machine word. *)
Definition exact_sum (l : list Z) : Z := foldr Z.add 0 l.

(** What the specification asks of the three totals, in the arithmetic of
    the rationals: the absolute deviation of each total from the average
    [(a + p + s) / 3] is at most [num / den] of the average.  Both sides
    are multiplied by [3 * den]. *)
Definition within_tolerance_exact (num den a p s : Z) : Prop :=
  ∀ t, t ∈ [a; p; s] → den * Z.abs (3 * t - (a + p + s)) <= num * (a + p + s).

(** A total [t] whose absolute deviation [|t - sum / 3|] from the average
    of the sum is below, and is above, 5% of the average [sum / 3]; both
    sides are multiplied by 60. *)
Definition deviates_less_than_5_percent (t sum : Z) : Prop :=
  20 * Z.abs (3 * t - sum) < sum.

Definition deviates_more_than_5_percent (t sum : Z) : Prop :=
  sum < 20 * Z.abs (3 * t - sum).

(** A double below zero. *)
Definition is_negative (x : spec_float) : bool :=
  match x with
  | S754_finite true _ _ | S754_infinity true => true
  | _ => false
  end.

(** A frame with a [date] column only. *)
Definition df_date_cells (cells : list (option string)) : DataFrame :=
  list_to_map [("date", StrCol cells)].

(** A frame without [total_daily_cost] whose second date cannot be read. *)
Definition df_unparseable_date : DataFrame :=
  <["date" := StrCol [Some "2024-01-01"; Some "in June"]]> df_without_cost.

(** * Properties *)

(** ** Running statements *)

Lemma run_bind_ok {A B} (m : M A) (k : A → M B) s a s' :
  m s = (Ok a, s') → bind m k s = k a s'.
Proof. intros H. unfold bind. by rewrite H. Qed.

Lemma run_bind_raise {A B} (m : M A) (k : A → M B) s e s' :
  m s = (Raise e, s') → bind m k s = (Raise e, s').
Proof. intros H. unfold bind. by rewrite H. Qed.

Lemma run_getitem_some name c s :
  frame s !! name = Some c → getitem name s = (Ok c, s).
Proof. intros H. unfold getitem. by rewrite H. Qed.

Lemma run_getitem_none name s :
  frame s !! name = None → getitem name s = (Raise (KeyError name), s).
Proof. intros H. unfold getitem. by rewrite H. Qed.

Lemma run_lift_ok {A} (r : result A) a s : r = Ok a → lift r s = (Ok a, s).
Proof. by intros ->. Qed.

Lemma run_lift_raise {A} (r : result A) e s :
  r = Raise e → lift r s = (@Raise A e, s).
Proof. by intros ->. Qed.

Lemma run_print m s : print m s = (Ok tt, say m s).
Proof. reflexivity. Qed.

Tactic Notation "run_get" uconstr(H) :=
  erewrite (run_bind_ok _ _ _ _ _ (run_getitem_some _ _ _ H)).
Tactic Notation "run_pure" uconstr(H) :=
  erewrite (run_bind_ok _ _ _ _ _ (run_lift_ok _ _ _ H)).
Tactic Notation "run_get" uconstr(H) "in" hyp(G) :=
  erewrite (run_bind_ok _ _ _ _ _ (run_getitem_some _ _ _ H)) in G.
Tactic Notation "run_pure" uconstr(H) "in" hyp(G) :=
  erewrite (run_bind_ok _ _ _ _ _ (run_lift_ok _ _ _ H)) in G.

(** ** What a statement may do to the state

    For a reflexive and transitive relation, [respects] follows the
    structure of the program. *)

Section Respects.

Variable R : state → state → Prop.
Hypothesis R_refl : ∀ s, R s s.
Hypothesis R_trans : ∀ s1 s2 s3, R s1 s2 → R s2 s3 → R s1 s3.

Lemma respects_ret {A} (a : A) : respects R (ret a).
Proof. intros s. apply R_refl. Qed.

Lemma respects_lift {A} (r : result A) : respects R (lift r).
Proof. intros s. apply R_refl. Qed.

Lemma respects_getitem name : respects R (getitem name).
Proof. intros s. unfold getitem. destruct (frame s !! name); apply R_refl. Qed.

Lemma respects_missing_columns cols : respects R (missing_columns cols).
Proof. intros s. apply R_refl. Qed.

Lemma respects_bind {A B} (m : M A) (k : A → M B) :
  respects R m → (∀ a, respects R (k a)) → respects R (bind m k).
Proof.
  intros Hm Hk s. unfold bind. specialize (Hm s).
  destruct (m s) as [[a|e] s']; simpl in *; [|done].
  eapply R_trans; [exact Hm | apply Hk].
Qed.

Lemma respects_if {A} (c : bool) (m1 m2 : M A) :
  respects R m1 → respects R m2 → respects R (if c then m1 else m2).
Proof. by destruct c. Qed.

End Respects.

(** Breaks a program into its statements, leaving the assignments and
    prints to the relation at hand. *)
Ltac respects_steps refl trans :=
  repeat first
    [ apply (respects_ret _ refl)
    | apply (respects_lift _ refl)
    | apply (respects_getitem _ refl)
    | apply (respects_missing_columns _ refl)
    | apply (respects_if _)
    | apply (respects_bind _ trans); [| intros ?] ].

Lemma same_frame_refl s : same_frame s s.
Proof. reflexivity. Qed.

Lemma same_frame_trans s1 s2 s3 :
  same_frame s1 s2 → same_frame s2 s3 → same_frame s1 s3.
Proof. unfold same_frame. congruence. Qed.

Lemma same_frame_print m : respects same_frame (print m).
Proof. intros s. reflexivity. Qed.

Ltac same_frame_tac :=
  respects_steps same_frame_refl same_frame_trans; try apply same_frame_print.

Lemma check_required_columns_same_frame : respects same_frame check_required_columns.
Proof. unfold check_required_columns. same_frame_tac. Qed.

Lemma check_workload_range_same_frame : respects same_frame check_workload_range.
Proof. unfold check_workload_range. same_frame_tac. Qed.

Lemma check_equal_distribution_same_frame tolerance :
  respects same_frame (check_equal_distribution tolerance).
Proof. unfold check_equal_distribution. same_frame_tac. Qed.

Lemma check_workload_assignment_same_frame : respects same_frame check_workload_assignment.
Proof. unfold check_workload_assignment. same_frame_tac. Qed.

Lemma same_but_refl name s : same_but name s s.
Proof. reflexivity. Qed.

Lemma same_but_trans name s1 s2 s3 :
  same_but name s1 s2 → same_but name s2 s3 → same_but name s1 s3.
Proof. unfold same_but. congruence. Qed.

Lemma same_but_print name m : respects (same_but name) (print m).
Proof. intros s. reflexivity. Qed.

Lemma same_but_setitem name c : respects (same_but name) (setitem name c).
Proof. intros s. unfold same_but. simpl. apply delete_insert_eq. Qed.

Ltac same_but_tac name :=
  respects_steps (same_but_refl name) (same_but_trans name);
  first [ apply same_but_print | apply same_but_setitem ].

Lemma check_blocks_leased_range_same_but :
  respects (same_but "total_blocks_leased") check_blocks_leased_range.
Proof. unfold check_blocks_leased_range. same_but_tac "total_blocks_leased". Qed.

Lemma check_date_range_six_months_same_but parse_dates :
  respects (same_but "date") (check_date_range_six_months parse_dates).
Proof. unfold check_date_range_six_months. same_but_tac "date". Qed.

Lemma prints_only_refl P s : prints_only P s s.
Proof. exists []. split; [by rewrite app_nil_r | constructor]. Qed.

Lemma prints_only_trans P s1 s2 s3 :
  prints_only P s1 s2 → prints_only P s2 s3 → prints_only P s1 s3.
Proof.
  intros (e1 & H1 & F1) (e2 & H2 & F2). exists (e1 ++ e2). split.
  - by rewrite H2, H1, app_assoc.
  - by apply Forall_app.
Qed.

Lemma prints_only_print (P : msg → Prop) m : P m → respects (prints_only P) (print m).
Proof. intros Hm s. exists [m]. split; [reflexivity | by repeat constructor]. Qed.

Lemma prints_only_setitem P name c : respects (prints_only P) (setitem name c).
Proof. intros s. exists []. split; [simpl; by rewrite app_nil_r | constructor]. Qed.

Ltac no_assignment_tac :=
  respects_steps (prints_only_refl not_from_assignment)
                 (prints_only_trans not_from_assignment);
  first [ apply prints_only_setitem | apply prints_only_print; reflexivity ].

Lemma run_all_checks_no_assignment_output parse_dates :
  respects (prints_only not_from_assignment) (run_all_checks parse_dates).
Proof.
  unfold run_all_checks, check_required_columns, check_date_range_six_months,
    check_blocks_leased_range, check_workload_range, check_equal_distribution.
  no_assignment_tac.
Qed.

Lemma frame_determined_ret {A} (a : A) : frame_determined (ret a).
Proof. by intros s1 s2 H. Qed.

Lemma frame_determined_lift {A} (r : result A) : frame_determined (lift r).
Proof. by intros s1 s2 H. Qed.

Lemma frame_determined_print m : frame_determined (print m).
Proof. by intros s1 s2 H. Qed.

Lemma frame_determined_setitem name c : frame_determined (setitem name c).
Proof. intros s1 s2 H. split; [done|]. simpl. by rewrite H. Qed.

Lemma frame_determined_getitem name : frame_determined (getitem name).
Proof.
  intros s1 s2 H. unfold getitem. rewrite H.
  by destruct (frame s2 !! name).
Qed.

Lemma frame_determined_missing_columns cols : frame_determined (missing_columns cols).
Proof. intros s1 s2 H. unfold missing_columns. simpl. by rewrite H. Qed.

Lemma frame_determined_bind {A B} (m : M A) (k : A → M B) :
  frame_determined m → (∀ a, frame_determined (k a)) → frame_determined (bind m k).
Proof.
  intros Hm Hk s1 s2 H. unfold bind. destruct (Hm s1 s2 H) as [Hr Hf].
  destruct (m s1) as [[a1|e1] t1], (m s2) as [[a2|e2] t2]; simpl in *; simplify_eq.
  - by apply Hk.
  - done.
Qed.

Lemma frame_determined_if {A} (c : bool) (m1 m2 : M A) :
  frame_determined m1 → frame_determined m2 → frame_determined (if c then m1 else m2).
Proof. by destruct c. Qed.

Ltac frame_determined_tac :=
  repeat first
    [ apply frame_determined_ret
    | apply frame_determined_lift
    | apply frame_determined_print
    | apply frame_determined_setitem
    | apply frame_determined_getitem
    | apply frame_determined_missing_columns
    | apply frame_determined_if
    | apply frame_determined_bind; [| intros ?] ].

Lemma check_required_columns_frame_determined : frame_determined check_required_columns.
Proof. unfold check_required_columns. frame_determined_tac. Qed.

Lemma check_workload_range_frame_determined : frame_determined check_workload_range.
Proof. unfold check_workload_range. frame_determined_tac. Qed.

Lemma check_equal_distribution_frame_determined tolerance :
  frame_determined (check_equal_distribution tolerance).
Proof. unfold check_equal_distribution. frame_determined_tac. Qed.

Lemma check_workload_assignment_frame_determined :
  frame_determined check_workload_assignment.
Proof. unfold check_workload_assignment. frame_determined_tac. Qed.

(** A check that reads the frame and leaves it alone gives the same
    answer when run again. *)
Lemma rerun_same_frame (m : M bool) s b s' :
  frame_determined m → respects same_frame m →
  m s = (Ok b, s') → fst (m s') = Ok b.
Proof.
  intros Hd Hf Hrun. pose proof (Hf s) as Hs. rewrite Hrun in Hs. simpl in Hs.
  destruct (Hd s' s Hs) as [-> _]. by rewrite Hrun.
Qed.

(** ** Boolean series *)

Lemma all_lookup (l : list bool) :
  all l = true ↔ ∀ i b, l !! i = Some b → b = true.
Proof.
  unfold all. rewrite forallb_forall. split.
  - intros H i b Hi. apply H. apply list_elem_of_In. eapply list_elem_of_lookup_2, Hi.
  - intros H b Hb. apply list_elem_of_In, list_elem_of_lookup_1 in Hb as [i Hi]. eauto.
Qed.

Lemma all_map_lookup {A} (f : A → bool) (l : list A) :
  all (map f l) = true ↔ ∀ i a, l !! i = Some a → f a = true.
Proof.
  rewrite all_lookup. split.
  - intros H i a Hi. apply (H i). change (map f l) with (f <$> l). by rewrite list_lookup_fmap, Hi.
  - intros H i b Hi. change (map f l) with (f <$> l) in Hi.
    rewrite list_lookup_fmap in Hi. destruct (l !! i) as [a|] eqn:Ha; simplify_eq/=. eauto.
Qed.

Lemma all_zip_with_lookup {A B} (f : A → B → bool) (x : list A) (y : list B) :
  all (zip_with f x y) = true
  ↔ ∀ i a b, x !! i = Some a → y !! i = Some b → f a b = true.
Proof.
  rewrite all_lookup. split.
  - intros H i a b Ha Hb. apply (H i). apply lookup_zip_with_Some. eauto.
  - intros H i c Hi. apply lookup_zip_with_Some in Hi as (a & b & -> & Ha & Hb). eauto.
Qed.

(** ** Series operations on well-typed columns *)

Lemma missing_columns_all_present cols s :
  Forall (λ name, is_Some (frame s !! name)) cols →
  missing_columns cols s = (Ok [], s).
Proof.
  intros H. unfold missing_columns. do 2 f_equal.
  induction H as [|name cols [c Hc] _ IH]; [done|].
  simpl. rewrite Hc. rewrite bool_decide_eq_false_2 by done. exact IH.
Qed.

Lemma values_of_IntCol l : values_of (IntCol l) = Ok l.
Proof. reflexivity. Qed.

Lemma values_of_cases c : (∃ l, values_of c = Ok l) ∨ values_of c = Raise TypeError.
Proof. destruct c as [l|[|x l]|l]; simpl; eauto. Qed.

Lemma col_add_values a b x y :
  values_of a = Ok x → values_of b = Ok y →
  col_add a b = Ok (IntCol (zip_with Int64.add x y)).
Proof. intros Ha Hb. unfold col_add. by rewrite Ha, Hb. Qed.

Lemma col_eq_values a b x y :
  values_of a = Ok x → values_of b = Ok y →
  col_eq a b = Ok (zip_with Z.eqb x y).
Proof. intros Ha Hb. unfold col_eq. by rewrite Ha, Hb. Qed.

Lemma col_truediv_values a b x y :
  values_of a = Ok x → values_of b = Ok y →
  col_truediv a b = Ok (zip_with truediv x y).
Proof. intros Ha Hb. unfold col_truediv. by rewrite Ha, Hb. Qed.

Lemma col_between_int_values lo hi c l :
  values_of c = Ok l → col_between_int lo hi c = Ok (map (between_int lo hi) l).
Proof. intros Hc. unfold col_between_int. by rewrite Hc. Qed.

Lemma col_sum_values c l : values_of c = Ok l → col_sum c = Ok (Int64.sum l).
Proof. intros Hc. unfold col_sum. by rewrite Hc. Qed.

Lemma col_add_raises_l a b : values_of a = Raise TypeError → col_add a b = Raise TypeError.
Proof. intros H. unfold col_add. by rewrite H. Qed.

Lemma col_add_raises_r a b x :
  values_of a = Ok x → values_of b = Raise TypeError → col_add a b = Raise TypeError.
Proof. intros Ha Hb. unfold col_add. by rewrite Ha, Hb. Qed.

Lemma values_of_length c l : values_of c = Ok l → col_len c = length l.
Proof. destruct c as [l'|[|x l']|l']; simpl; intros H; by simplify_eq. Qed.

Lemma df_wf_length nrows (df : DataFrame) name c l :
  df_wf nrows df → df !! name = Some c → values_of c = Ok l → length l = nrows.
Proof.
  intros Hwf Hc Hv. rewrite <- (values_of_length c l Hv).
  exact (map_Forall_lookup_1 _ _ _ _ Hwf Hc).
Qed.

(** ** Machine integers *)

Lemma Int64_wrap_in_range z : Int64.in_range z → Int64.wrap z = z.
Proof.
  unfold Int64.in_range, Int64.min_int, Int64.max_int, Int64.wrap. intros H.
  rewrite Z.mod_small; lia.
Qed.

Lemma Int64_add_exact a b : Int64.in_range (a + b) → Int64.add a b = a + b.
Proof. apply Int64_wrap_in_range. Qed.

Lemma Int64_wrap_add_l a b : Int64.wrap (Int64.wrap a + b) = Int64.wrap (a + b).
Proof.
  unfold Int64.wrap. f_equal.
  replace ((a + 2 ^ 63) mod 2 ^ 64 - 2 ^ 63 + b + 2 ^ 63) with ((a + 2 ^ 63) mod 2 ^ 64 + b) by lia.
  rewrite Zplus_mod_idemp_l. f_equal. lia.
Qed.

Lemma Int64_add_add a b c : Int64.add (Int64.add a b) c = Int64.wrap (a + b + c).
Proof. unfold Int64.add. apply Int64_wrap_add_l. Qed.

Lemma Int64_fold_add l a :
  fold_left Int64.add l (Int64.wrap a) = Int64.wrap (a + exact_sum l).
Proof.
  revert a. induction l as [|x l IH]; intros a; simpl.
  - by rewrite Z.add_0_r.
  - unfold Int64.add at 2. rewrite Int64_wrap_add_l, IH. f_equal. lia.
Qed.

(** [Series.sum] is the exact sum reduced to the machine word. *)
Lemma Int64_sum_wrap l : Int64.sum l = Int64.wrap (exact_sum l).
Proof. unfold Int64.sum. change 0 with (Int64.wrap 0) at 1. apply Int64_fold_add. Qed.

Lemma exact_sum_perm l1 l2 : l1 ≡ₚ l2 → exact_sum l1 = exact_sum l2.
Proof. induction 1; simpl; lia. Qed.

Lemma Int64_sum_perm l1 l2 : l1 ≡ₚ l2 → Int64.sum l1 = Int64.sum l2.
Proof. intros H. by rewrite !Int64_sum_wrap, (exact_sum_perm l1 l2 H). Qed.

Lemma Int64_sum_exact l :
  Int64.in_range (exact_sum l) → Int64.sum l = exact_sum l.
Proof. intros H. rewrite Int64_sum_wrap. by apply Int64_wrap_in_range. Qed.

(** ** The literals

    Python reads a decimal literal as the double nearest to it; the four
    literals of the script are the correctly rounded quotients 1/2, 3/5,
    2/5 and 1/20. *)

Lemma literals_are_rounded_fractions :
  F64.lit_0_50 = truediv 1 2 ∧ F64.lit_0_60 = truediv 3 5
  ∧ F64.lit_0_40 = truediv 2 5 ∧ F64.lit_0_05 = truediv 1 20.
Proof. vm_compute. repeat split. Qed.

(** ** True division of integers below 2^53

    [F64.of_int] is exact there, and [F64.div] rounds the quotient of two
    53-bit mantissas; the comparison of the result with a literal is then
    decided by integer arithmetic. *)

Lemma pow2_pos k : 0 <= k → 0 < 2 ^ k.
Proof. intros. apply Z.pow_pos_nonneg; lia. Qed.

Lemma pow2_split a b : 0 <= a → 0 <= b → 2 ^ (a + b) = 2 ^ a * 2 ^ b.
Proof. intros. apply Z.pow_add_r; lia. Qed.

(** A positive number of [d] binary digits lies between [2^(d-1)] and
    [2^d]. *)
Lemma digits2_pos_bounds p :
  2 ^ (Zpos (digits2_pos p) - 1) <= Zpos p < 2 ^ Zpos (digits2_pos p).
Proof.
  induction p as [p IH|p IH|]; simpl digits2_pos.
  - rewrite Pos2Z.inj_succ. replace (Z.succ (Zpos (digits2_pos p)) - 1) with (Zpos (digits2_pos p)) by lia.
    rewrite Z.pow_succ_r by lia.
    assert (2 ^ Zpos (digits2_pos p) = 2 * 2 ^ (Zpos (digits2_pos p) - 1)) as E.
    { rewrite <- Z.pow_succ_r by lia. f_equal. lia. }
    lia.
  - rewrite Pos2Z.inj_succ. replace (Z.succ (Zpos (digits2_pos p)) - 1) with (Zpos (digits2_pos p)) by lia.
    rewrite Z.pow_succ_r by lia.
    assert (2 ^ Zpos (digits2_pos p) = 2 * 2 ^ (Zpos (digits2_pos p) - 1)) as E.
    { rewrite <- Z.pow_succ_r by lia. f_equal. lia. }
    lia.
  - simpl. lia.
Qed.

Lemma digits2_pos_unique p d :
  2 ^ (d - 1) <= Zpos p < 2 ^ d → Zpos (digits2_pos p) = d.
Proof.
  intros [Hlo Hhi]. pose proof (digits2_pos_bounds p) as [Blo Bhi].
  assert (0 < d) as Hd.
  { destruct (Z.lt_trichotomy d 0) as [H|[H|H]]; [|subst; simpl in Hhi; lia|done].
    rewrite Z.pow_neg_r in Hhi by lia. lia. }
  destruct (Z.lt_trichotomy (Zpos (digits2_pos p)) d) as [H|[H|H]]; [|done|].
  - assert (2 ^ Zpos (digits2_pos p) <= 2 ^ (d - 1)) by (apply Z.pow_le_mono_r; lia). lia.
  - assert (2 ^ d <= 2 ^ (Zpos (digits2_pos p) - 1)) by (apply Z.pow_le_mono_r; lia). lia.
Qed.

Lemma pos_iter_xO p k : Zpos (Pos.iter xO p k) = Zpos p * 2 ^ Zpos k.
Proof.
  induction k as [|k IH] using Pos.peano_ind.
  - simpl. lia.
  - rewrite Pos.iter_succ, Pos2Z.inj_succ, Z.pow_succ_r by lia.
    rewrite Pos2Z.inj_xO, IH. lia.
Qed.

Lemma Zdigits2_53 q : 2 ^ 52 <= q < 2 ^ 53 → Zdigits2 q = 53.
Proof.
  intros H. destruct q as [|p|p]; try lia. simpl. by apply digits2_pos_unique.
Qed.

Lemma Zdigits2_54 q : 2 ^ 53 <= q < 2 ^ 54 → Zdigits2 q = 54.
Proof.
  intros H. destruct q as [|p|p]; try lia. simpl. by apply digits2_pos_unique.
Qed.

Lemma loc_of_shr_record_of_loc m l : loc_of_shr_record (shr_record_of_loc m l) = l.
Proof. by destruct l as [|[]]. Qed.

Lemma shr_m_shr_record_of_loc m l : shr_m (shr_record_of_loc m l) = m.
Proof. by destruct l as [|[]]. Qed.

Lemma rne_bounds q l : q <= rne q l <= q + 1.
Proof. unfold rne, round_nearest_even. destruct l as [|[]]; try lia. destruct (Z.even q); lia. Qed.

(** A 53-bit mantissa within the exponent range is left as it is. *)
Lemma binary_round_aux_canonical s m e :
  Zpos (digits2_pos m) = 53 → -1074 <= e <= 971 →
  binary_round_aux F64.prec F64.emax s (Zpos m) e loc_Exact = S754_finite s m e.
Proof.
  intros Hd He. unfold binary_round_aux, shr_fexp, fexp, emin, F64.prec, F64.emax.
  simpl Zdigits2. rewrite Hd.
  replace (Z.max (53 + e - 53) (3 - 1024 - 53) - e) with 0 by lia.
  simpl. rewrite Hd.
  replace (Z.max (53 + e - 53) (3 - 1024 - 53) - e) with 0 by lia.
  simpl. rewrite (proj2 (Z.leb_le e (1024 - 53))) by lia. done.
Qed.

Lemma binary_round_aux_unfold mx ex lx :
  binary_round_aux F64.prec F64.emax false mx ex lx
  = let '(mrs', e') := shr_fexp F64.prec F64.emax mx ex lx in
    normalize (rne (shr_m mrs') (loc_of_shr_record mrs')) e'.
Proof. reflexivity. Qed.

(** After rounding, a mantissa of 53 bits stays and [2^53] becomes [2^52]
    one exponent up. *)
Lemma normalize_finish m e :
  2 ^ 52 <= m <= 2 ^ 53 → -1074 <= e <= 970 → normalize m e = finish m e.
Proof.
  intros Hm He. unfold normalize, finish, shr_fexp, fexp, emin, F64.prec, F64.emax.
  destruct (m <? 2 ^ 53) eqn:Elt.
  - apply Z.ltb_lt in Elt. rewrite (Zdigits2_53 m) by lia.
    replace (Z.max (53 + e - 53) (3 - 1024 - 53) - e) with 0 by lia.
    cbn [shr shr_record_of_loc shr_m].
    destruct m as [|p|p]; try lia.
    rewrite (proj2 (Z.leb_le e (1024 - 53))) by lia. done.
  - apply Z.ltb_ge in Elt. assert (m = 2 ^ 53) as -> by lia.
    change (2 ^ 53) with 9007199254740992.
    change (Z.to_pos (2 ^ 52)) with 4503599627370496%positive.
    change (Zdigits2 9007199254740992) with 54.
    replace (Z.max (54 + e - 53) (3 - 1024 - 53) - e) with 1 by lia.
    cbn. rewrite (proj2 (Z.leb_le (e + 1) (1024 - 53))) by lia. done.
Qed.

(** Rounding a quotient of 53 bits: no bit is shifted out. *)
Lemma binary_round_aux_53_bits q e l :
  2 ^ 52 <= q < 2 ^ 53 → -1074 <= e <= 970 →
  binary_round_aux F64.prec F64.emax false q e l = finish (rne q l) e.
Proof.
  intros Hq He. unfold binary_round_aux, shr_fexp, fexp, emin, F64.prec, F64.emax.
  rewrite (Zdigits2_53 q Hq).
  replace (Z.max (53 + e - 53) (3 - 1024 - 53) - e) with 0 by lia.
  cbn [shr]. rewrite loc_of_shr_record_of_loc, shr_m_shr_record_of_loc.
  pose proof (rne_bounds q l) as Hr. fold (rne q l).
  unfold finish. destruct (rne q l <? 2 ^ 53) eqn:Elt.
  - apply Z.ltb_lt in Elt. rewrite (Zdigits2_53 (rne q l)) by lia.
    replace (Z.max (53 + e - 53) (3 - 1024 - 53) - e) with 0 by lia.
    cbn [shr shr_record_of_loc shr_m].
    destruct (rne q l) as [|p|p] eqn:Ep; try lia.
    rewrite (proj2 (Z.leb_le e (1024 - 53))) by lia. done.
  - apply Z.ltb_ge in Elt. assert (rne q l = 2 ^ 53) as -> by lia.
    change (2 ^ 53) with 9007199254740992.
    change (Z.to_pos (2 ^ 52)) with 4503599627370496%positive.
    change (Zdigits2 9007199254740992) with 54.
    replace (Z.max (54 + e - 53) (3 - 1024 - 53) - e) with 1 by lia.
    cbn. rewrite (proj2 (Z.leb_le (e + 1) (1024 - 53))) by lia. done.
Qed.

Lemma shr_1_m p l :
  shr_m (shr_1 (shr_record_of_loc (Zpos p) l)) = Zpos p / 2.
Proof.
  assert (shr_m (shr_1 (shr_record_of_loc (Zpos p) l))
          = match p with xH => 0 | xO p' => Zpos p' | xI p' => Zpos p' end) as ->.
  { destruct p; destruct l as [|[]]; reflexivity. }
  destruct p as [p|p|].
  - rewrite Pos2Z.inj_xI. apply Z.div_unique with 1; lia.
  - rewrite Pos2Z.inj_xO. apply Z.div_unique with 0; lia.
  - reflexivity.
Qed.

Lemma shr_1_loc p l :
  loc_of_shr_record (shr_1 (shr_record_of_loc (Zpos p) l))
  = loc_half (Z.odd (Zpos p)) l.
Proof. destruct p; destruct l as [|[]]; reflexivity. Qed.

(** Rounding a quotient of 54 bits: the last bit is shifted out first. *)
Lemma binary_round_aux_54_bits q e l :
  2 ^ 53 <= q < 2 ^ 54 → -1075 <= e <= 969 →
  binary_round_aux F64.prec F64.emax false q e l
  = finish (rne (q / 2) (loc_half (Z.odd q) l)) (e + 1).
Proof.
  intros Hq He. rewrite binary_round_aux_unfold. unfold shr_fexp, fexp, emin.
  rewrite (Zdigits2_54 q Hq). unfold F64.prec, F64.emax.
  replace (Z.max (54 + e - 53) (3 - 1024 - 53) - e) with 1 by lia.
  cbn [shr iter_pos]. destruct q as [|p|p]; try lia.
  rewrite shr_1_m, shr_1_loc.
  apply normalize_finish; [|lia].
  pose proof (rne_bounds (Zpos p / 2) (loc_half (Z.odd (Zpos p)) l)).
  assert (2 ^ 52 <= Zpos p / 2 < 2 ^ 53); [|lia].
  split; [apply Z.div_le_lower_bound; lia | apply Z.div_lt_upper_bound; lia].
Qed.

(** The position [SFdiv] computes from the remainder. *)
Lemma new_location_locate a b :
  0 < b → new_location b (a mod b) = locate a b.
Proof.
  intros Hb. pose proof (Z.mod_pos_bound a b Hb) as Hr.
  unfold new_location, new_location_even, new_location_odd, locate.
  destruct (Z.even b) eqn:Ev; [done|].
  destruct (a mod b =? 0); [done|]. f_equal.
  assert (2 * (a mod b) ≠ b) as Hne.
  { intros E. rewrite <- E, Z.even_mul in Ev. discriminate Ev. }
  destruct (Z.compare_spec (2 * (a mod b) + 1) b), (Z.compare_spec (2 * (a mod b)) b);
    try reflexivity; lia.
Qed.

(** The position and the quotient do not change when numerator and
    denominator are scaled together. *)
Lemma locate_scale k a b : 0 < k → 0 < b → locate (k * a) (k * b) = locate a b.
Proof.
  intros Hk Hb. unfold locate. rewrite Z.mul_mod_distr_l by lia.
  pose proof (Z.mod_pos_bound a b Hb) as Hr.
  destruct (Z.eqb_spec (a mod b) 0) as [->|Hne].
  - by rewrite Z.mul_0_r.
  - destruct (Z.eqb_spec (k * (a mod b)) 0) as [E|_]; [nia|]. f_equal.
    replace (2 * (k * (a mod b))) with (k * (2 * (a mod b))) by lia.
    destruct (Z.compare_spec (k * (2 * (a mod b))) (k * b)),
             (Z.compare_spec (2 * (a mod b)) b); try reflexivity; nia.
Qed.

Lemma round_located_scale k a b e :
  0 < k → 0 < b → round_located (k * a) (k * b) e = round_located a b e.
Proof.
  intros Hk Hb. unfold round_located.
  by rewrite locate_scale, Z.div_mul_cancel_l by lia.
Qed.

(** Shifting the last bit of the quotient out is dividing by twice the
    denominator. *)
Lemma locate_double a b :
  0 < b → loc_half (Z.odd (a / b)) (locate a b) = locate a (2 * b).
Proof.
  intros Hb. unfold locate.
  pose proof (Z.mod_pos_bound a b Hb) as Hr.
  pose proof (Z.div_mod a b ltac:(lia)) as Ha.
  pose proof (Z.div_mod (a / b) 2 ltac:(lia)) as Hq.
  pose proof (Z.mod_pos_bound (a / b) 2 ltac:(lia)) as Hq2.
  assert (a mod (2 * b) = (a / b) mod 2 * b + a mod b) as ->.
  { symmetry. apply Z.mod_unique_pos with (a / b / 2); nia. }
  rewrite (Zmod_odd (a / b)). destruct (Z.odd (a / b)).
  - destruct (Z.eqb_spec (a mod b) 0) as [E|Hne].
    + rewrite E. destruct (Z.eqb_spec (1 * b + 0) 0); [lia|]. cbn [loc_half]. f_equal.
      symmetry. apply Z.compare_eq_iff. lia.
    + destruct (Z.eqb_spec (1 * b + a mod b) 0); [lia|]. cbn [loc_half]. f_equal.
      symmetry. apply Z.compare_gt_iff. lia.
  - rewrite Z.mul_0_l, Z.add_0_l.
    destruct (Z.eqb_spec (a mod b) 0) as [E|Hne]; [done|].
    cbn [loc_half]. f_equal. symmetry. apply Z.compare_lt_iff. lia.
Qed.

(** An integer below [2^53] converts exactly: its bits are moved up to a
    53-bit mantissa. *)
Lemma of_int_below_2_53 n :
  0 < n < 2 ^ 53 →
  F64.of_int n = S754_finite false (Z.to_pos (n * 2 ^ (53 - Zdigits2 n))) (Zdigits2 n - 53).
Proof.
  intros Hn. destruct n as [|p|p]; try lia.
  pose proof (digits2_pos_bounds p) as Hd.
  assert (1 <= Zpos (digits2_pos p) <= 53) as Hd53.
  { split; [lia|].
    destruct (Z.le_gt_cases (Zpos (digits2_pos p)) 53) as [H|H]; [done|].
    assert (2 ^ 53 <= 2 ^ (Zpos (digits2_pos p) - 1)) by (apply Z.pow_le_mono_r; lia).
    lia. }
  unfold F64.of_int, binary_normalize, binary_round, shl_align, fexp, emin, F64.prec, F64.emax.
  cbn [Zdigits2].
  replace (Z.max (Zpos (digits2_pos p) + 0 - 53) (3 - 1024 - 53) - 0)
    with (Zpos (digits2_pos p) - 53) by lia.
  replace (Z.max (Zpos (digits2_pos p) + 0 - 53) (3 - 1024 - 53))
    with (Zpos (digits2_pos p) - 53) by lia.
  destruct (Zpos (digits2_pos p) - 53) as [|k|k] eqn:Ek; try lia.
  - assert (Zpos (digits2_pos p) = 53) as E53 by lia.
    rewrite E53. change (53 - 53) with 0. rewrite Z.mul_1_r. simpl Z.to_pos.
    apply binary_round_aux_canonical; [done | lia].
  - replace (53 - Zpos (digits2_pos p)) with (Zpos k) by lia.
    rewrite <- pos_iter_xO. simpl Z.to_pos.
    apply binary_round_aux_canonical; [|lia].
    apply digits2_pos_unique. rewrite pos_iter_xO.
    replace 53 with (Zpos (digits2_pos p) + Zpos k) at 2 by lia.
    replace (53 - 1) with ((Zpos (digits2_pos p) - 1) + Zpos k) by lia.
    rewrite !Z.pow_add_r by lia.
    assert (0 < 2 ^ Zpos k) by (apply Z.pow_pos_nonneg; lia). nia.
Qed.

Lemma of_int_mantissa_bounds n :
  0 < n < 2 ^ 53 →
  1 <= Zdigits2 n <= 53
  ∧ 2 ^ 52 <= n * 2 ^ (53 - Zdigits2 n) < 2 ^ 53.
Proof.
  intros Hn. destruct n as [|p|p]; try lia. cbn [Zdigits2].
  pose proof (digits2_pos_bounds p) as Hd.
  assert (1 <= Zpos (digits2_pos p) <= 53) as Hd53.
  { split; [lia|].
    destruct (Z.le_gt_cases (Zpos (digits2_pos p)) 53) as [H|H]; [done|].
    assert (2 ^ 53 <= 2 ^ (Zpos (digits2_pos p) - 1)) by (apply Z.pow_le_mono_r; lia).
    lia. }
  split; [done|].
  replace 53 with (Zpos (digits2_pos p) + (53 - Zpos (digits2_pos p))) at 3 by lia.
  replace 52 with ((Zpos (digits2_pos p) - 1) + (53 - Zpos (digits2_pos p))) at 1 by lia.
  rewrite !Z.pow_add_r by lia.
  assert (0 < 2 ^ (53 - Zpos (digits2_pos p))) by (apply Z.pow_pos_nonneg; lia). nia.
Qed.

(** The quotient of two 53-bit mantissas has 53 bits when the numerator is
    the smaller one, and 54 bits otherwise. *)
Lemma div_53_bit_mantissas N T en et :
  2 ^ 52 <= Zpos N < 2 ^ 53 → 2 ^ 52 <= Zpos T < 2 ^ 53 →
  -60 <= en <= 60 → -60 <= et <= 60 →
  F64.div (S754_finite false N en) (S754_finite false T et)
  = if Zpos N <? Zpos T
    then round_located (Zpos N * 2 ^ 53) (Zpos T) (en - et - 53)
    else round_located (Zpos N * 2 ^ 53) (2 * Zpos T) (en - et - 52).
Proof.
  intros HN HT Hen Het.
  unfold F64.div, SFdiv, SFdiv_core_binary, fexp, emin.
  rewrite (Zdigits2_53 (Zpos N) HN), (Zdigits2_53 (Zpos T) HT). unfold F64.prec, F64.emax.
  replace (Z.min (Z.max (53 + en - (53 + et) - 53) (3 - 1024 - 53)) (en - et))
    with (en - et - 53) by lia.
  replace (en - et - (en - et - 53)) with 53 by lia.
  rewrite Z.shiftl_mul_pow2 by lia.
  destruct (Z.div_eucl (Zpos N * 2 ^ 53) (Zpos T)) as [q r] eqn:Ediv.
  assert (q = (Zpos N * 2 ^ 53) / Zpos T) as -> by (unfold Z.div; by rewrite Ediv).
  assert (r = (Zpos N * 2 ^ 53) mod Zpos T) as -> by (unfold Z.modulo; by rewrite Ediv).
  cbn [xorb]. rewrite new_location_locate by lia.
  destruct (Z.ltb_spec (Zpos N) (Zpos T)) as [Hlt|Hge].
  - rewrite binary_round_aux_53_bits; [done| |lia].
    split; [apply Z.div_le_lower_bound; lia | apply Z.div_lt_upper_bound; lia].
  - rewrite binary_round_aux_54_bits; [| |lia].
    + unfold round_located. rewrite locate_double by lia.
      rewrite Z.div_div by lia. replace (2 * Zpos T) with (Zpos T * 2) by lia.
      replace (en - et - 53 + 1) with (en - et - 52) by lia. done.
    + change (2 ^ 54) with (2 * 2 ^ 53).
      split; [apply Z.div_le_lower_bound; lia | apply Z.div_lt_upper_bound; lia].
Qed.

(** The binade of a quotient and the rounded result. *)
(** [n / t] for positive integers below [2^53]: at the exponent [E] that
    puts the quotient [n * 2^(-E) / t] between [2^52] and [2^53], the
    result is that quotient rounded to an integer mantissa. *)
Lemma truediv_rounds_quotient n t :
  0 < n < 2 ^ 53 → 0 < t < 2 ^ 53 →
  ∃ E, -106 <= E <= 0
       ∧ 2 ^ 52 * t <= n * 2 ^ (- E) < 2 ^ 53 * t
       ∧ truediv n t = round_located (n * 2 ^ (- E)) t E.
Proof.
  intros Hn Ht. unfold truediv.
  destruct (of_int_mantissa_bounds n Hn) as [Hdn HN].
  destruct (of_int_mantissa_bounds t Ht) as [Hdt HT].
  rewrite (of_int_below_2_53 n Hn), (of_int_below_2_53 t Ht).
  set (dn := Zdigits2 n) in *. set (dt := Zdigits2 t) in *.
  remember (n * 2 ^ (53 - dn)) as N eqn:DN. remember (t * 2 ^ (53 - dt)) as T eqn:DT.
  assert (∃ Np, N = Zpos Np) as [Np EN] by (destruct N; try lia; eauto).
  assert (∃ Tp, T = Zpos Tp) as [Tp ET] by (destruct T; try lia; eauto).
  replace (Z.to_pos N) with Np by (by rewrite EN).
  replace (Z.to_pos T) with Tp by (by rewrite ET).
  rewrite div_53_bit_mantissas by lia. rewrite <- EN, <- ET.
  assert (0 < 2 ^ (53 - dt)) as Hkt by (apply pow2_pos; lia).
  assert (0 < 2 ^ (53 - dn)) as Hkn by (apply pow2_pos; lia).
  destruct (Z.ltb_spec N T) as [Hlt|Hge].
  - exists (dn - dt - 53).
    assert (N * 2 ^ 53 = 2 ^ (53 - dt) * (n * 2 ^ (- (dn - dt - 53)))) as EA.
    { rewrite DN. replace (- (dn - dt - 53)) with ((53 - dn) + dt) by lia.
      rewrite (pow2_split (53 - dn) dt) by lia.
      replace 53 with ((53 - dt) + dt) at 2 by lia.
      rewrite (pow2_split (53 - dt) dt) by lia. ring. }
    assert (T = 2 ^ (53 - dt) * t) as EB by (rewrite DT; ring).
    split; [lia|]. split.
    + assert (2 ^ 52 * T <= N * 2 ^ 53 < 2 ^ 53 * T) as HA by lia.
      rewrite EA, EB in HA. nia.
    + rewrite EA, EB. rewrite round_located_scale by lia. f_equal. lia.
  - exists (dn - dt - 52).
    assert (N * 2 ^ 53 = 2 ^ (54 - dt) * (n * 2 ^ (- (dn - dt - 52)))) as EA.
    { rewrite DN. replace (- (dn - dt - 52)) with ((53 - dn) + (dt - 1)) by lia.
      rewrite (pow2_split (53 - dn) (dt - 1)) by lia.
      replace 53 with ((54 - dt) + (dt - 1)) at 2 by lia.
      rewrite (pow2_split (54 - dt) (dt - 1)) by lia. ring. }
    assert (2 * T = 2 ^ (54 - dt) * t) as EB.
    { rewrite DT. replace (54 - dt) with (1 + (53 - dt)) by lia.
      rewrite (pow2_split 1 (53 - dt)) by lia. change (2 ^ 1) with 2. ring. }
    assert (0 < 2 ^ (54 - dt)) as Hk by (apply pow2_pos; lia).
    split; [lia|]. split.
    + assert (2 ^ 52 * (2 * T) <= N * 2 ^ 53 < 2 ^ 53 * (2 * T)) as HA by lia.
      rewrite EA, EB in HA. nia.
    + rewrite EA, EB. rewrite round_located_scale by lia. f_equal. lia.
Qed.

(** Comparison of two positive doubles: exponents first, then mantissas. *)
Lemma leb_finite m1 e1 m2 e2 :
  SFleb (S754_finite false m1 e1) (S754_finite false m2 e2) = true
  ↔ e1 < e2 ∨ (e1 = e2 ∧ Zpos m1 <= Zpos m2).
Proof.
  unfold SFleb, SFcompare. change (Pos.compare_cont Eq m1 m2) with (Pos.compare m1 m2).
  destruct (Z.compare_spec e1 e2); [destruct (Pos.compare_spec m1 m2)| |];
    split; intros; try done; try lia.
Qed.

Lemma leb_finish_upper M E C ec :
  2 ^ 52 <= M <= 2 ^ 53 → 2 ^ 52 <= Zpos C < 2 ^ 53 →
  SFleb (finish M E) (S754_finite false C ec) = true
  ↔ E < ec ∨ (E = ec ∧ M <= Zpos C).
Proof.
  intros HM HC. unfold finish. destruct (Z.ltb_spec M (2 ^ 53)) as [Hlt|Hge].
  - rewrite leb_finite. rewrite Z2Pos.id by lia. lia.
  - rewrite leb_finite. rewrite Z2Pos.id by lia. lia.
Qed.

Lemma leb_finish_lower M E C ec :
  2 ^ 52 <= M <= 2 ^ 53 → 2 ^ 52 <= Zpos C < 2 ^ 53 →
  SFleb (S754_finite false C ec) (finish M E) = true
  ↔ ec < E ∨ (E = ec ∧ Zpos C <= M) ∨ (E + 1 = ec ∧ M = 2 ^ 53 ∧ Zpos C = 2 ^ 52).
Proof.
  intros HM HC. unfold finish. destruct (Z.ltb_spec M (2 ^ 53)) as [Hlt|Hge].
  - rewrite leb_finite. rewrite Z2Pos.id by lia. lia.
  - rewrite leb_finite. rewrite Z2Pos.id by lia. lia.
Qed.

Lemma rne_locate_down a b :
  0 < b → 2 * (a mod b) < b → rne (a / b) (locate a b) = a / b.
Proof.
  intros Hb H. unfold rne, round_nearest_even, locate.
  destruct (a mod b =? 0); [done|].
  by rewrite (proj2 (Z.compare_lt_iff _ _) H).
Qed.

Lemma rne_locate_up a b :
  0 < b → b < 2 * (a mod b) → rne (a / b) (locate a b) = a / b + 1.
Proof.
  intros Hb H. unfold rne, round_nearest_even, locate.
  destruct (Z.eqb_spec (a mod b) 0) as [E|_]; [lia|].
  by rewrite (proj2 (Z.compare_gt_iff _ _) H).
Qed.

(** A literal [C * 2^ec], the double nearest to the fraction [p / q], and
    the comparison of a computed quotient [n / t] with it.  When [t] is
    small enough for distinct fractions [n / t] and [p / q] to lie more
    than one and a half mantissa steps apart, the doubles compare as the
    fractions do. *)
Section Threshold.

Variables (C : positive) (ec p q : Z).
Hypothesis HC : 2 ^ 52 <= Zpos C < 2 ^ 53.
Hypothesis Hec : ec <= 0.
Hypothesis Hq : 0 < q.
Hypothesis Hbinade : 2 ^ 52 * q <= p * 2 ^ (- ec) < 2 ^ 53 * q.
Hypothesis Hnear : 2 * Z.abs (Zpos C * q - p * 2 ^ (- ec)) < q.

(** A quotient in a binade below the one of the literal is below the
    fraction, a quotient in a binade above it is above the fraction. *)
Lemma binade_cases n t E :
  0 < n → 0 < t → E <= 0 →
  2 ^ 52 * t <= n * 2 ^ (- E) < 2 ^ 53 * t →
  (E < ec ∧ n * q < p * t)
  ∨ (E = ec)
  ∨ (ec < E ∧ p * t < n * q).
Proof.
  intros Hn Ht HE Ha.
  assert (0 < 2 ^ (- ec)) as HP by (apply pow2_pos; lia).
  assert (0 < 2 ^ (- E)) as HA by (apply pow2_pos; lia).
  destruct (Z.lt_trichotomy E ec) as [Hlt|[Heq|Hgt]]; [left|by right; left|right; right];
    (split; [done|]).
  - assert (2 ^ (- E) = 2 ^ (- ec) * 2 ^ (ec - E)) as EK.
    { rewrite <- pow2_split by lia. f_equal. lia. }
    assert (2 <= 2 ^ (ec - E)) as HK.
    { change 2 with (2 ^ 1) at 1. apply Z.pow_le_mono_r; lia. }
    set (P := 2 ^ (- ec)) in *. set (K := 2 ^ (ec - E)) in *. rewrite EK in Ha.
    assert (n * P * 2 <= n * (P * K)) by nia.
    assert (n * P < 2 ^ 52 * t) by lia.
    assert (n * P * q < p * P * t) by nia.
    nia.
  - assert (2 ^ (- ec) = 2 ^ (- E) * 2 ^ (E - ec)) as EK.
    { rewrite <- pow2_split by lia. f_equal. lia. }
    assert (2 <= 2 ^ (E - ec)) as HK.
    { change 2 with (2 ^ 1) at 1. apply Z.pow_le_mono_r; lia. }
    set (A := 2 ^ (- E)) in *. set (K := 2 ^ (E - ec)) in *.
    set (P := 2 ^ (- ec)) in *.
    assert (2 ^ 53 * t <= n * P) by (rewrite EK; nia).
    assert (p * P * t < n * P * q) by nia.
    nia.
Qed.

(** In the binade of the literal, the rounded mantissa compares with [C] as
    [n / t] compares with [p / q]. *)
Lemma same_binade_upper n t :
  0 < n → 0 < t → 3 * q * t <= 2 * 2 ^ (- ec) →
  rne (n * 2 ^ (- ec) / t) (locate (n * 2 ^ (- ec)) t) <= Zpos C ↔ n * q <= p * t.
Proof.
  intros Hn Ht Hgap.
  assert (0 < 2 ^ (- ec)) as HP by (apply pow2_pos; lia).
  set (P := 2 ^ (- ec)) in *. set (a := n * P).
  pose proof (Z.div_mod a t ltac:(lia)) as Ha.
  pose proof (Z.mod_pos_bound a t Ht) as Hr.
  pose proof (rne_bounds (a / t) (locate a t)) as HM.
  set (F := a / t) in *. set (r := a mod t) in *.
  assert (2 * (Zpos C * q - p * P) < q ∧ 2 * (p * P - Zpos C * q) < q) as [N1 N2] by lia.
  split.
  - intros HMC. destruct (Z.le_gt_cases (n * q) (p * t)) as [|Hgt]; [done|exfalso].
    assert (p * t * P + P <= n * q * P) as H1 by nia.
    assert (2 * (a * q) >= 2 * (p * P * t) + 3 * q * t) as H2 by (unfold a; nia).
    assert (2 * (p * P) * t > (2 * (Zpos C * q) - q) * t) as H3 by nia.
    assert (2 * (a * q) > (2 * Zpos C + 2) * (q * t)) as H4 by nia.
    assert (a > (Zpos C + 1) * t) as H5 by nia.
    assert (Zpos C + 1 <= F) by nia. lia.
  - intros Hle.
    assert (a * q <= p * P * t) as H1 by (unfold a; nia).
    assert (2 * (p * P) * t < (2 * (Zpos C * q) + q) * t) as H3 by nia.
    assert (2 * (a * q) < (2 * Zpos C + 1) * t * q) as H4 by nia.
    assert (2 * a < (2 * Zpos C + 1) * t) as H5 by nia.
    assert (F <= Zpos C) as H6 by nia.
    destruct (Z.eq_dec F (Zpos C)) as [E|NE]; [|lia].
    unfold F, r in *. rewrite rne_locate_down; [lia|lia|]. nia.
Qed.

Lemma same_binade_lower n t :
  0 < n → 0 < t → 3 * q * t <= 2 * 2 ^ (- ec) →
  Zpos C <= rne (n * 2 ^ (- ec) / t) (locate (n * 2 ^ (- ec)) t) ↔ p * t <= n * q.
Proof.
  intros Hn Ht Hgap.
  assert (0 < 2 ^ (- ec)) as HP by (apply pow2_pos; lia).
  set (P := 2 ^ (- ec)) in *. set (a := n * P).
  pose proof (Z.div_mod a t ltac:(lia)) as Ha.
  pose proof (Z.mod_pos_bound a t Ht) as Hr.
  pose proof (rne_bounds (a / t) (locate a t)) as HM.
  set (F := a / t) in *. set (r := a mod t) in *.
  assert (2 * (Zpos C * q - p * P) < q ∧ 2 * (p * P - Zpos C * q) < q) as [N1 N2] by lia.
  split.
  - intros HMC. destruct (Z.le_gt_cases (p * t) (n * q)) as [|Hgt]; [done|exfalso].
    assert (n * q * P + P <= p * t * P) as H1 by nia.
    assert (2 * (a * q) + 3 * q * t <= 2 * (p * P * t)) as H2 by (unfold a; nia).
    assert (2 * (p * P) * t < (2 * (Zpos C * q) + q) * t) as H3 by nia.
    assert (2 * (a * q) < (2 * Zpos C - 2) * (q * t)) as H4 by nia.
    assert (a < (Zpos C - 1) * t) as H5 by nia.
    assert (F + 1 < Zpos C) by nia. lia.
  - intros Hle.
    assert (p * P * t <= a * q) as H1 by (unfold a; nia).
    assert (2 * (p * P) * t > (2 * (Zpos C * q) - q) * t) as H3 by nia.
    assert (2 * (a * q) > (2 * Zpos C - 1) * t * q) as H4 by nia.
    assert (2 * a > (2 * Zpos C - 1) * t) as H5 by nia.
    assert (Zpos C - 1 <= F) as H6 by nia.
    destruct (Z.eq_dec F (Zpos C - 1)) as [E|NE]; [|lia].
    unfold F, r in *. rewrite rne_locate_up; [lia|lia|]. nia.
Qed.

Lemma quotient_bounds a t :
  0 < t → 2 ^ 52 * t <= a < 2 ^ 53 * t →
  2 ^ 52 <= a / t < 2 ^ 53
  ∧ 2 ^ 52 <= rne (a / t) (locate a t) <= 2 ^ 53.
Proof.
  intros Ht Ha. pose proof (rne_bounds (a / t) (locate a t)).
  assert (2 ^ 52 <= a / t < 2 ^ 53); [|lia].
  split; [apply Z.div_le_lower_bound; lia | apply Z.div_lt_upper_bound; lia].
Qed.

(** [n / t <= literal] and [literal <= n / t], computed, against the exact
    comparisons [n / t <= p / q] and [p / q <= n / t]. *)
Lemma truediv_leb_upper n t :
  0 < n < 2 ^ 53 → 0 < t < 2 ^ 53 → 3 * q * t <= 2 * 2 ^ (- ec) →
  SFleb (truediv n t) (S754_finite false C ec) = true ↔ n * q <= p * t.
Proof.
  intros Hn Ht Hgap. destruct (truediv_rounds_quotient n t Hn Ht) as (E & HE & Ha & ->).
  unfold round_located.
  destruct (quotient_bounds _ t ltac:(lia) Ha) as [HF HM].
  rewrite leb_finish_upper by done.
  destruct (binade_cases n t E ltac:(lia) ltac:(lia) ltac:(lia) Ha)
    as [[H1 H2]|[->|[H1 H2]]]; [lia| |lia].
  rewrite <- (same_binade_upper n t) by lia. lia.
Qed.

Lemma truediv_leb_lower n t :
  0 < n < 2 ^ 53 → 0 < t < 2 ^ 53 → 3 * q * t <= 2 * 2 ^ (- ec) →
  SFleb (S754_finite false C ec) (truediv n t) = true ↔ p * t <= n * q.
Proof.
  intros Hn Ht Hgap. destruct (truediv_rounds_quotient n t Hn Ht) as (E & HE & Ha & ->).
  unfold round_located.
  destruct (quotient_bounds _ t ltac:(lia) Ha) as [HF HM].
  rewrite leb_finish_lower by done.
  destruct (binade_cases n t E ltac:(lia) ltac:(lia) ltac:(lia) Ha)
    as [[H1 H2]|[->|[H1 H2]]]; [| |lia].
  - split; [|lia]. intros [?|[?|(EE & EM & EC)]]; [lia|lia|exfalso].
    assert (0 < 2 ^ (- ec)) as HP by (apply pow2_pos; lia).
    assert (2 ^ (- E) = 2 * 2 ^ (- ec)) as EK.
    { replace (- E) with (1 + - ec) by lia. rewrite pow2_split by lia. done. }
    pose proof (rne_bounds (n * 2 ^ (- E) / t) (locate (n * 2 ^ (- E)) t)) as HB.
    pose proof (Z.div_mod (n * 2 ^ (- E)) t ltac:(lia)) as Hdm.
    pose proof (Z.mod_pos_bound (n * 2 ^ (- E)) t ltac:(lia)) as Hr.
    rewrite EK in *. set (P := 2 ^ (- ec)) in *.
    set (F := n * (2 * P) / t) in *. set (r := (n * (2 * P)) mod t) in *.
    assert ((2 ^ 53 - 1) * t <= n * (2 * P)) as H3 by nia.
    assert (2 * (Zpos C * q - p * P) < q ∧ 2 * (p * P - Zpos C * q) < q) as [N1 N2] by lia.
    assert (n * q * P + P <= p * t * P) as H4 by nia.
    assert (2 * (n * q * P) + 3 * q * t <= 2 * (p * P) * t) as H5 by nia.
    assert (2 * (p * P) * t < (2 ^ 53 * q + q) * t) as H6 by nia.
    assert (2 * (n * P) * q < (2 ^ 53 - 2) * t * q) as H7 by nia.
    assert (2 * (n * P) < (2 ^ 53 - 2) * t) as H8 by nia.
    lia.
  - rewrite <- (same_binade_lower n t) by lia. lia.
Qed.

End Threshold.

(** The four comparisons of the workload assignment check, for a positive
    divisor up to [2^50]: each is the comparison of the exact fractions. *)
Lemma truediv_ge_0_50 n t : 0 < n < 2 ^ 53 → 0 < t <= 2 ^ 50 →
  SFleb F64.lit_0_50 (truediv n t) = true ↔ t <= 2 * n.
Proof.
  intros Hn Ht. change (2 ^ 50) with 1125899906842624 in Ht.
  unfold F64.lit_0_50.
  rewrite (truediv_leb_lower 4503599627370496 (-53) 1 2); try done; try lia.
  all: change (2 ^ (- -53)) with 9007199254740992;
    change (2 ^ (- -54)) with 18014398509481984; lia.
Qed.

Lemma truediv_le_0_60 n t : 0 < n < 2 ^ 53 → 0 < t <= 2 ^ 50 →
  SFleb (truediv n t) F64.lit_0_60 = true ↔ 5 * n <= 3 * t.
Proof.
  intros Hn Ht. change (2 ^ 50) with 1125899906842624 in Ht.
  unfold F64.lit_0_60.
  rewrite (truediv_leb_upper 5404319552844595 (-53) 3 5); try done; try lia.
  all: change (2 ^ (- -53)) with 9007199254740992;
    change (2 ^ (- -54)) with 18014398509481984; lia.
Qed.

Lemma truediv_ge_0_40 n t : 0 < n < 2 ^ 53 → 0 < t <= 2 ^ 50 →
  SFleb F64.lit_0_40 (truediv n t) = true ↔ 2 * t <= 5 * n.
Proof.
  intros Hn Ht. change (2 ^ 50) with 1125899906842624 in Ht.
  unfold F64.lit_0_40.
  rewrite (truediv_leb_lower 7205759403792794 (-54) 2 5); try done; try lia.
  all: change (2 ^ (- -53)) with 9007199254740992;
    change (2 ^ (- -54)) with 18014398509481984; lia.
Qed.

Lemma truediv_le_0_50 n t : 0 < n < 2 ^ 53 → 0 < t <= 2 ^ 50 →
  SFleb (truediv n t) F64.lit_0_50 = true ↔ 2 * n <= t.
Proof.
  intros Hn Ht. change (2 ^ 50) with 1125899906842624 in Ht.
  unfold F64.lit_0_50.
  rewrite (truediv_leb_upper 4503599627370496 (-53) 1 2); try done; try lia.
  all: change (2 ^ (- -53)) with 9007199254740992;
    change (2 ^ (- -54)) with 18014398509481984; lia.
Qed.

Lemma of_int_pos_finite t :
  0 < t < 2 ^ 53 → ∃ m e, F64.of_int t = S754_finite false m e.
Proof. intros Ht. rewrite (of_int_below_2_53 t Ht). eauto. Qed.

(** [0 / t] is zero and lies in no interval with a positive lower bound. *)
Lemma truediv_zero_numerator t lo hi :
  0 < t < 2 ^ 53 →
  (∃ m e, lo = S754_finite false m e) →
  F64.between lo hi (truediv 0 t) = false.
Proof.
  intros Ht (m & e & ->). unfold truediv.
  destruct (of_int_pos_finite t Ht) as (mt & et & ->).
  reflexivity.
Qed.

(** With a positive total up to [2^50] and a non-negative part below
    [2^53], the computed ratio is between its literals exactly when the
    exact ratio is between the percentages. *)
Lemma ratio_today_exact n t :
  0 <= n < 2 ^ 53 → 0 < t <= 2 ^ 50 →
  F64.between F64.lit_0_50 F64.lit_0_60 (truediv n t) = true
  ↔ 50 * t <= 100 * n <= 60 * t.
Proof.
  intros Hn Ht. change (2 ^ 50) with 1125899906842624 in Ht.
  destruct (Z.eq_dec n 0) as [->|Hne].
  - rewrite truediv_zero_numerator; [|change (2 ^ 53) with 9007199254740992; lia
                                      |unfold F64.lit_0_50; eauto].
    split; [done|lia].
  - unfold F64.between, F64.leb. rewrite andb_true_iff.
    rewrite truediv_ge_0_50, truediv_le_0_60 by (change (2 ^ 50) with 1125899906842624; lia). lia.
Qed.

Lemma ratio_older_exact o t :
  0 <= o < 2 ^ 53 → 0 < t <= 2 ^ 50 →
  F64.between F64.lit_0_40 F64.lit_0_50 (truediv o t) = true
  ↔ 40 * t <= 100 * o <= 50 * t.
Proof.
  intros Hn Ht. change (2 ^ 50) with 1125899906842624 in Ht.
  destruct (Z.eq_dec o 0) as [->|Hne].
  - rewrite truediv_zero_numerator; [|change (2 ^ 53) with 9007199254740992; lia
                                      |unfold F64.lit_0_40; eauto].
    split; [done|lia].
  - unfold F64.between, F64.leb. rewrite andb_true_iff.
    rewrite truediv_ge_0_40, truediv_le_0_50 by (change (2 ^ 50) with 1125899906842624; lia). lia.
Qed.

Lemma record_assignment_ok_exact n o t :
  0 <= n < 2 ^ 53 → 0 <= o < 2 ^ 53 → 0 < t <= 2 ^ 50 →
  record_assignment_ok n o t
  ↔ n + o = t ∧ 50 * t <= 100 * n <= 60 * t ∧ 40 * t <= 100 * o <= 50 * t.
Proof.
  intros Hn Ho Ht. unfold record_assignment_ok.
  rewrite ratio_today_exact, ratio_older_exact by done.
  rewrite Int64_add_exact; [done|].
  unfold Int64.in_range, Int64.min_int, Int64.max_int.
  change (2 ^ 53) with 9007199254740992 in *. lia.
Qed.

(** ** Comparisons without NaN *)

Lemma is_number_not_nan x : is_number x = true → not_nan x = true.
Proof. by destruct x. Qed.

(** Swapping the operands of a comparison swaps its outcome. *)
Lemma SFcompare_swap x y :
  SFcompare y x = option_map CompOpp (SFcompare x y).
Proof.
  destruct x as [sx|sx| |sx mx ex], y as [sy|sy| |sy my ey]; try (by destruct sx);
    try (by destruct sy); try (by destruct sx, sy); try reflexivity.
  destruct sx, sy; try reflexivity; cbn [SFcompare option_map]; f_equal;
    rewrite (Z.compare_antisym ex ey);
    destruct (ex ?= ey); cbn [CompOpp]; try reflexivity;
    rewrite (Pos.compare_cont_antisym mx my Eq); cbn [CompOpp];
    by destruct (Pos.compare_cont Eq mx my).
Qed.

(** Without NaN, [x > y] is the negation of [x <= y]. *)
Lemma gtb_negb_leb x y :
  not_nan x = true → not_nan y = true → F64.gtb x y = negb (F64.leb x y).
Proof.
  intros Hx Hy. unfold F64.gtb, F64.leb, SFltb, SFleb. rewrite (SFcompare_swap x y).
  destruct (SFcompare x y) as [[]|] eqn:E; try reflexivity.
  destruct x as [| | |], y as [| | |]; try discriminate; simpl in E;
    repeat match goal with b : bool |- _ => destruct b end; discriminate.
Qed.

Lemma shr_1_nonneg mrs : 0 <= shr_m mrs → 0 <= shr_m (shr_1 mrs).
Proof. destruct mrs as [[|[p|p|]|[p|p|]] r s]; simpl; lia. Qed.

Lemma iter_pos_shr_1_nonneg p mrs :
  0 <= shr_m mrs → 0 <= shr_m (SpecFloat.iter_pos shr_1 p mrs).
Proof.
  revert mrs. induction p as [p IH|p IH|]; intros mrs H; simpl.
  - apply IH, IH. by apply shr_1_nonneg.
  - by apply IH, IH.
  - by apply shr_1_nonneg.
Qed.

Lemma shr_fexp_nonneg prec emax m e l :
  0 <= m → 0 <= shr_m (fst (shr_fexp prec emax m e l)).
Proof.
  intros Hm. unfold shr_fexp, shr.
  destruct (fexp prec emax (Zdigits2 m + e) - e) as [|p|p]; simpl;
    try apply iter_pos_shr_1_nonneg; by rewrite shr_m_shr_record_of_loc.
Qed.

(** Rounding a non-negative mantissa never gives NaN. *)
Lemma binary_round_aux_not_nan prec emax s m e l :
  0 <= m → not_nan (binary_round_aux prec emax s m e l) = true.
Proof.
  intros Hm. unfold binary_round_aux.
  pose proof (shr_fexp_nonneg prec emax m e l Hm) as H1.
  destruct (shr_fexp prec emax m e l) as [mrs' e']. simpl in H1.
  pose proof (rne_bounds (shr_m mrs') (loc_of_shr_record mrs')) as H2. unfold rne in H2.
  pose proof (shr_fexp_nonneg prec emax
                (round_nearest_even (shr_m mrs') (loc_of_shr_record mrs')) e' loc_Exact
                ltac:(lia)) as H3.
  destruct (shr_fexp prec emax _ e' loc_Exact) as [mrs'' e'']. simpl in H3.
  destruct (shr_m mrs''); [done| |lia]. by destruct (e'' <=? emax - prec).
Qed.

Lemma binary_normalize_not_nan prec emax m e sz :
  not_nan (binary_normalize prec emax m e sz) = true.
Proof.
  destruct m as [|p|p]; [done| |]; unfold binary_normalize, binary_round;
    destruct (shl_align _ _ _); by apply binary_round_aux_not_nan.
Qed.

Lemma sub_not_nan x y :
  is_number x = true → is_number y = true → not_nan (F64.sub x y) = true.
Proof.
  destruct x as [sx|sx| |sx mx ex], y as [sy|sy| |sy my ey]; try done; intros _ _.
  - by destruct sx, sy.
  - apply binary_normalize_not_nan.
Qed.

Lemma mul_not_nan x y :
  is_number x = true → is_number y = true → not_nan (F64.mul x y) = true.
Proof.
  destruct x as [sx|sx| |sx mx ex], y as [sy|sy| |sy my ey]; try done; intros _ _.
  by apply binary_round_aux_not_nan.
Qed.

Lemma abs_not_nan x : not_nan x = true → not_nan (F64.abs x) = true.
Proof. by destruct x. Qed.

Lemma of_int_is_number n : 0 <= n < 2 ^ 53 → is_number (F64.of_int n) = true.
Proof.
  intros Hn. destruct (Z.eq_dec n 0) as [->|Hne]; [done|].
  by rewrite of_int_below_2_53 by lia.
Qed.

Lemma finish_is_number M e : is_number (finish M e) = true.
Proof. unfold finish. by destruct (M <? 2 ^ 53). Qed.

(** The average of non-negative totals below [2^53] is a number. *)
Lemma average_is_number a p s :
  0 <= a + p + s < 2 ^ 53 → Int64.in_range (a + p) →
  is_number (average a p s) = true.
Proof.
  intros Hs Hap. unfold average.
  assert (Int64.in_range (a + p + s)) as Haps.
  { unfold Int64.in_range, Int64.min_int, Int64.max_int.
    change (2 ^ 53) with 9007199254740992 in Hs. lia. }
  rewrite (Int64_add_exact a p Hap), (Int64_add_exact (a + p) s Haps).
  destruct (Z.eq_dec (a + p + s) 0) as [->|Hne]; [done|].
  fold (truediv (a + p + s) 3).
  destruct (truediv_rounds_quotient (a + p + s) 3) as (E & _ & _ & ->); [lia|done|].
  apply finish_is_number.
Qed.

(** For such totals and a tolerance that is a number, [diff > tolerance *
    avg] is the negation of [diff <= tolerance * avg]. *)
Lemma exceeds_negb_within tolerance total avg :
  is_number tolerance = true → is_number avg = true → 0 <= total < 2 ^ 53 →
  exceeds tolerance total avg = negb (within tolerance total avg).
Proof.
  intros Ht Ha Htot. unfold exceeds, within. apply gtb_negb_leb.
  - apply abs_not_nan, sub_not_nan; [by apply of_int_is_number | done].
  - by apply mul_not_nan.
Qed.

(** ** Rounding a mantissa of any length *)

Lemma shr_record_eta mrs :
  mrs = shr_record_of_loc (shr_m mrs) (loc_of_shr_record mrs).
Proof. by destruct mrs as [m [] []]. Qed.

(** One step of [shr]: the last bit of the mantissa moves into the
    position. *)
Lemma shr_1_record m l :
  0 <= m →
  shr_1 (shr_record_of_loc m l) = shr_record_of_loc (m / 2) (loc_half (Z.odd m) l).
Proof.
  intros Hm. destruct m as [|p|p]; [by destruct l as [|[]] | | lia].
  rewrite (shr_record_eta (shr_1 _)). by rewrite shr_1_m, shr_1_loc.
Qed.

Lemma iter_pos_nat {A} (f : A → A) p x :
  SpecFloat.iter_pos f p x = Nat.iter (Pos.to_nat p) f x.
Proof.
  revert x. induction p as [p IH|p IH|]; intros x; simpl SpecFloat.iter_pos.
  - rewrite !IH, Pos2Nat.inj_xI, Nat.iter_succ_r.
    replace (2 * Pos.to_nat p)%nat with (Pos.to_nat p + Pos.to_nat p)%nat by lia.
    by rewrite Nat.iter_add.
  - rewrite !IH, Pos2Nat.inj_xO.
    replace (2 * Pos.to_nat p)%nat with (Pos.to_nat p + Pos.to_nat p)%nat by lia.
    by rewrite Nat.iter_add.
  - reflexivity.
Qed.

(** [n] steps of [shr] divide the mantissa by [2^n] and leave the position
    of the exact value after the quotient. *)
Lemma shr_iter (n : nat) m :
  0 <= m →
  Nat.iter n shr_1 (shr_record_of_loc m loc_Exact)
  = shr_record_of_loc (m / 2 ^ Z.of_nat n) (locate m (2 ^ Z.of_nat n)).
Proof.
  intros Hm. induction n as [|n IH].
  - simpl. rewrite Z.div_1_r. unfold locate. by rewrite Z.mod_1_r.
  - rewrite Nat.iter_succ, IH.
    assert (0 < 2 ^ Z.of_nat n) as Hp by (apply pow2_pos; lia).
    rewrite shr_1_record by (apply Z.div_pos; lia).
    rewrite locate_double by done. rewrite Z.div_div by lia.
    replace (2 ^ Z.of_nat (S n)) with (2 ^ Z.of_nat n * 2)
      by (rewrite Nat2Z.inj_succ, Z.pow_succ_r; lia).
    by replace (2 * 2 ^ Z.of_nat n) with (2 ^ Z.of_nat n * 2) by lia.
Qed.

Lemma Zdigits2_bounds m :
  0 < m → 2 ^ (Zdigits2 m - 1) <= m < 2 ^ Zdigits2 m ∧ 0 < Zdigits2 m.
Proof.
  intros Hm. destruct m as [|p|p]; try lia. cbn [Zdigits2].
  split; [apply digits2_pos_bounds | lia].
Qed.

Lemma Zdigits2_unique m d : 2 ^ (d - 1) <= m < 2 ^ d → 0 < m → Zdigits2 m = d.
Proof.
  intros H Hm. destruct m as [|p|p]; try lia. cbn [Zdigits2]. by apply digits2_pos_unique.
Qed.

(** A mantissa of [53 + k] bits is rounded at its bit [k]. *)
Lemma binary_round_aux_long m e k :
  0 <= k → 2 ^ (52 + k) <= m < 2 ^ (53 + k) → -1074 <= e + k <= 970 →
  binary_round_aux F64.prec F64.emax false m e loc_Exact
  = round_located m (2 ^ k) (e + k).
Proof.
  intros Hk Hm He.
  assert (0 < 2 ^ k) as Hpk by (by apply pow2_pos).
  assert (0 < 2 ^ (52 + k)) as Hp52 by (apply pow2_pos; lia).
  assert (Zdigits2 m = 53 + k) as Hd.
  { apply Zdigits2_unique; [|lia]. by replace (53 + k - 1) with (52 + k) by lia. }
  assert (2 ^ 52 <= m / 2 ^ k < 2 ^ 53) as Hq.
  { rewrite !pow2_split in Hm by lia.
    split; [apply Z.div_le_lower_bound; lia | apply Z.div_lt_upper_bound; lia]. }
  destruct (Z.eq_dec k 0) as [->|Hk0].
  - rewrite Z.add_0_r in *. change (2 ^ 0) with 1.
    rewrite binary_round_aux_53_bits by (rewrite ?Z.add_0_r in *; lia).
    unfold round_located, locate. by rewrite Z.div_1_r, Z.mod_1_r.
  - rewrite binary_round_aux_unfold. unfold shr_fexp, fexp, emin.
    rewrite Hd. unfold F64.prec, F64.emax.
    replace (Z.max (53 + k + e - 53) (3 - 1024 - 53) - e) with k by lia.
    destruct k as [|pk|pk]; try lia.
    cbn [shr]. rewrite iter_pos_nat, shr_iter by lia.
    rewrite positive_nat_Z.
    rewrite loc_of_shr_record_of_loc, shr_m_shr_record_of_loc.
    unfold round_located. apply normalize_finish; [|lia].
    pose proof (rne_bounds (m / 2 ^ Zpos pk) (locate m (2 ^ Zpos pk))). lia.
Qed.

(** ** The nearest double to a scaled integer *)

Lemma Zdigits2_shift n j : 0 < n → 0 <= j → Zdigits2 (n * 2 ^ j) = Zdigits2 n + j.
Proof.
  intros Hn Hj. destruct (Zdigits2_bounds n Hn) as [Hb Hd].
  assert (0 < 2 ^ j) by (by apply pow2_pos).
  apply Zdigits2_unique; [|lia].
  replace (Zdigits2 n + j - 1) with ((Zdigits2 n - 1) + j) by lia.
  rewrite !pow2_split by lia. nia.
Qed.

(** The nearest double depends on the value alone, not on how it is
    split into mantissa and exponent. *)
Lemma round_pos_scale n e j : 0 < n → 0 <= j → round_pos (n * 2 ^ j) (e - j) = round_pos n e.
Proof.
  intros Hn Hj. unfold round_pos. rewrite Zdigits2_shift by done.
  destruct (Zdigits2_bounds n Hn) as [_ Hd].
  rewrite pow2_split by lia.
  replace (n * 2 ^ j * 2 ^ 53) with (2 ^ j * (n * 2 ^ 53)) by ring.
  replace (2 ^ Zdigits2 n * 2 ^ j) with (2 ^ j * 2 ^ Zdigits2 n) by ring.
  rewrite round_located_scale by (apply pow2_pos; lia).
  f_equal. lia.
Qed.

Lemma binary_round_aux_round_pos m e :
  2 ^ 52 <= m → -1074 <= e + Zdigits2 m - 53 <= 970 →
  binary_round_aux F64.prec F64.emax false m e loc_Exact = round_pos m e.
Proof.
  intros Hm He. assert (0 < m) as Hpos by (change (2 ^ 52) with 4503599627370496 in Hm; lia).
  destruct (Zdigits2_bounds m Hpos) as [Hb Hd].
  assert (53 <= Zdigits2 m) as Hd53.
  { destruct (Z.le_gt_cases 53 (Zdigits2 m)) as [|Hlt]; [done|].
    assert (2 ^ Zdigits2 m <= 2 ^ 52) by (apply Z.pow_le_mono_r; lia). lia. }
  rewrite (binary_round_aux_long m e (Zdigits2 m - 53)); [|lia| |lia].
  - unfold round_pos.
    replace (2 ^ Zdigits2 m) with (2 ^ 53 * 2 ^ (Zdigits2 m - 53))
      by (rewrite <- pow2_split by lia; f_equal; lia).
    replace (m * 2 ^ 53) with (2 ^ 53 * m) by ring.
    rewrite round_located_scale by (apply pow2_pos; lia). f_equal. lia.
  - replace (52 + (Zdigits2 m - 53)) with (Zdigits2 m - 1) by lia.
    by replace (53 + (Zdigits2 m - 53)) with (Zdigits2 m) by lia.
Qed.

Lemma shl_align_value m e ez :
  ez <= e → Zpos (fst (shl_align m e ez)) = Zpos m * 2 ^ (e - ez).
Proof.
  intros H. unfold shl_align. destruct (ez - e) as [|d|d] eqn:Ed; try lia.
  - replace (e - ez) with 0 by lia. simpl. lia.
  - simpl fst. rewrite pos_iter_xO. f_equal. f_equal. lia.
Qed.

Lemma shl_align_exponent m e ez : ez <= e → snd (shl_align m e ez) = ez.
Proof.
  intros H. unfold shl_align. destruct (ez - e) as [|d|d] eqn:Ed; simpl; lia.
Qed.

Lemma binary_round_round_pos p e :
  -1074 <= e + Zdigits2 (Zpos p) - 53 <= 970 →
  binary_round F64.prec F64.emax false p e = round_pos (Zpos p) e.
Proof.
  intros He. destruct (Zdigits2_bounds (Zpos p) ltac:(lia)) as [Hb Hd].
  cbn [Zdigits2] in *. set (d := Zpos (digits2_pos p)) in *.
  unfold binary_round, fexp, emin, F64.prec, F64.emax. fold d.
  replace (Z.max (d + e - 53) (3 - 1024 - 53)) with (e + d - 53) by lia.
  destruct (Z.le_gt_cases d 53) as [Hle|Hgt].
  - pose proof (shl_align_value p e (e + d - 53) ltac:(lia)) as Hv.
    pose proof (shl_align_exponent p e (e + d - 53) ltac:(lia)) as Hx.
    destruct (shl_align p e (e + d - 53)) as [mz ez]. simpl in Hv, Hx. subst ez.
    replace (e - (e + d - 53)) with (53 - d) in Hv by lia.
    assert (0 < 2 ^ (53 - d)) by (apply pow2_pos; lia).
    assert (2 ^ 52 <= Zpos mz < 2 ^ 53) as Hmz.
    { assert (2 ^ 52 = 2 ^ (d - 1) * 2 ^ (53 - d)) as E52
        by (rewrite <- pow2_split by lia; f_equal; lia).
      assert (2 ^ 53 = 2 ^ d * 2 ^ (53 - d)) as E53
        by (rewrite <- pow2_split by lia; f_equal; lia).
      rewrite Hv, E52, E53. nia. }
    rewrite binary_round_aux_round_pos; [| lia | rewrite (Zdigits2_53 _ Hmz); lia].
    rewrite Hv. replace (e + d - 53) with (e - (53 - d)) by lia.
    apply (round_pos_scale (Zpos p) e (53 - d)); lia.
  - assert (shl_align p e (e + d - 53) = (p, e)) as ->.
    { unfold shl_align. destruct (e + d - 53 - e) eqn:E; try lia; done. }
    apply binary_round_aux_round_pos; [|cbn [Zdigits2]; fold d; lia].
    assert (2 ^ 52 <= 2 ^ (d - 1)) by (apply Z.pow_le_mono_r; lia). lia.
Qed.

(** The sign of a rounded result is the one given; its absolute value is
    the rounding of the mantissa. *)
Lemma abs_binary_round_aux s m e l :
  F64.abs (binary_round_aux F64.prec F64.emax s m e l)
  = binary_round_aux F64.prec F64.emax false m e l.
Proof.
  unfold binary_round_aux.
  destruct (shr_fexp _ _ m e l) as [mrs' e'].
  destruct (shr_fexp _ _ _ e' loc_Exact) as [mrs'' e''].
  destruct (shr_m mrs''); [done| |done]. by destruct (_ <=? _).
Qed.

Lemma abs_binary_normalize n e :
  n ≠ 0 → -1074 <= e + Zdigits2 (Z.abs n) - 53 <= 970 →
  F64.abs (binary_normalize F64.prec F64.emax n e false) = round_pos (Z.abs n) e.
Proof.
  intros Hn He. destruct n as [|p|p]; [done| |].
  - change (Z.abs (Zpos p)) with (Zpos p) in *.
    rewrite <- (binary_round_round_pos p e He).
    unfold binary_normalize, binary_round. destruct (shl_align _ _ _).
    apply abs_binary_round_aux.
  - change (Z.abs (Zneg p)) with (Zpos p) in *.
    rewrite <- (binary_round_round_pos p e He).
    unfold binary_normalize, binary_round. destruct (shl_align _ _ _).
    apply abs_binary_round_aux.
Qed.

(** [|x - y|] on two positive doubles is the nearest double to the
    absolute difference of their values. *)
Lemma abs_sub_round_pos m1 e1 m2 e2 :
  Zpos m1 * 2 ^ (e1 - Z.min e1 e2) ≠ Zpos m2 * 2 ^ (e2 - Z.min e1 e2) →
  -1074 <= Z.min e1 e2
           + Zdigits2 (Z.abs (Zpos m1 * 2 ^ (e1 - Z.min e1 e2)
                              - Zpos m2 * 2 ^ (e2 - Z.min e1 e2))) - 53 <= 970 →
  F64.abs (F64.sub (S754_finite false m1 e1) (S754_finite false m2 e2))
  = round_pos (Z.abs (Zpos m1 * 2 ^ (e1 - Z.min e1 e2) - Zpos m2 * 2 ^ (e2 - Z.min e1 e2)))
              (Z.min e1 e2).
Proof.
  intros Hne He. unfold F64.sub, SFsub. cbn [cond_Zopp].
  rewrite !shl_align_value by lia.
  apply abs_binary_normalize; [lia | done].
Qed.

Lemma sub_equal_values m1 e1 m2 e2 :
  Zpos m1 * 2 ^ (e1 - Z.min e1 e2) = Zpos m2 * 2 ^ (e2 - Z.min e1 e2) →
  F64.abs (F64.sub (S754_finite false m1 e1) (S754_finite false m2 e2)) = S754_zero false.
Proof.
  intros H. unfold F64.sub, SFsub. cbn [cond_Zopp].
  rewrite !shl_align_value by lia. by rewrite H, Z.sub_diag.
Qed.

(** The product of two positive doubles with 53-bit mantissas is the
    nearest double to the product of their values. *)
Lemma mul_round_pos m1 e1 m2 e2 :
  2 ^ 52 <= Zpos m1 < 2 ^ 53 → 2 ^ 52 <= Zpos m2 < 2 ^ 53 →
  -1000 <= e1 + e2 <= 800 →
  F64.mul (S754_finite false m1 e1) (S754_finite false m2 e2)
  = round_pos (Zpos m1 * Zpos m2) (e1 + e2).
Proof.
  intros H1 H2 He. unfold F64.mul, SFmul. cbn [xorb].
  rewrite Pos2Z.inj_mul.
  change (2 ^ 52) with 4503599627370496 in *. change (2 ^ 53) with 9007199254740992 in *.
  assert (4503599627370496 * 4503599627370496 <= Zpos m1 * Zpos m2
          < 9007199254740992 * 9007199254740992) as HP by nia.
  assert (105 <= Zdigits2 (Zpos m1 * Zpos m2) <= 106) as Hd.
  { destruct (Z.lt_ge_cases (Zpos m1 * Zpos m2) (2 ^ 105)) as [Hlt|Hge].
    - rewrite (Zdigits2_unique _ 105); [lia| |lia].
      change (2 ^ (105 - 1)) with (4503599627370496 * 4503599627370496). lia.
    - rewrite (Zdigits2_unique _ 106); [lia| |lia].
      change (2 ^ (106 - 1)) with (2 ^ 105).
      change (2 ^ 106) with (9007199254740992 * 9007199254740992). lia. }
  apply binary_round_aux_round_pos; [|lia].
  change (2 ^ 52) with 4503599627370496. nia.
Qed.

(** ** The nearest double and its value *)

Lemma rne_nearest a b :
  0 < b → - b <= 2 * (b * rne (a / b) (locate a b) - a) <= b.
Proof.
  intros Hb. pose proof (Z.mod_pos_bound a b Hb) as Hr.
  pose proof (Z.div_mod a b ltac:(lia)) as Ha.
  unfold rne, round_nearest_even, locate.
  destruct (Z.eqb_spec (a mod b) 0) as [E|Hne]; [lia|].
  destruct (Z.compare_spec (2 * (a mod b)) b) as [E|E|E]; [destruct (Z.even _)| |]; lia.
Qed.

(** The rounded mantissa [M] of [round_pos n e]: 53 bits, and [M * 2^d]
    within [n] of [n * 2^53]. *)
Lemma round_pos_mantissa n e :
  0 < n →
  ∃ M, round_pos n e = finish M (e + Zdigits2 n - 53)
       ∧ 2 ^ 52 <= M <= 2 ^ 53
       ∧ n * (2 ^ 53 - 1) <= M * 2 ^ Zdigits2 n <= n * (2 ^ 53 + 1).
Proof.
  intros Hn. destruct (Zdigits2_bounds n Hn) as [Hb Hd].
  set (d := Zdigits2 n) in *.
  assert (0 < 2 ^ d) as Hpd by (apply pow2_pos; lia).
  assert (2 ^ d = 2 * 2 ^ (d - 1)) as E2
    by (rewrite <- Z.pow_succ_r by lia; f_equal; lia).
  exists (rne (n * 2 ^ 53 / 2 ^ d) (locate (n * 2 ^ 53) (2 ^ d))).
  split; [reflexivity|].
  pose proof (rne_nearest (n * 2 ^ 53) (2 ^ d) Hpd) as Hnear.
  pose proof (rne_bounds (n * 2 ^ 53 / 2 ^ d) (locate (n * 2 ^ 53) (2 ^ d))) as Hrb.
  assert (2 ^ 52 <= n * 2 ^ 53 / 2 ^ d < 2 ^ 53) as Hq.
  { change (2 ^ 53) with (2 * 2 ^ 52) at 1. change (2 ^ 52) with 4503599627370496 in *.
    change (2 ^ 53) with 9007199254740992 in *.
    split; [apply Z.div_le_lower_bound; nia | apply Z.div_lt_upper_bound; nia]. }
  split; [lia|].
  set (M := rne _ _) in *.
  replace (M * 2 ^ d) with (2 ^ d * M) by ring. lia.
Qed.

(** Comparison of two doubles given by rounded mantissas. *)
Lemma gtb_finish M1 E1 M2 E2 c :
  2 ^ 52 <= M1 <= 2 ^ 53 → 2 ^ 52 <= M2 <= 2 ^ 53 → c <= E1 → c <= E2 →
  F64.gtb (finish M1 E1) (finish M2 E2) = true
  ↔ M2 * 2 ^ (E2 - c) < M1 * 2 ^ (E1 - c).
Proof.
  assert (∀ m1 e1 m2 e2, 2 ^ 52 <= Zpos m1 < 2 ^ 53 → 2 ^ 52 <= Zpos m2 < 2 ^ 53 →
            c <= e1 → c <= e2 →
            F64.gtb (S754_finite false m1 e1) (S754_finite false m2 e2) = true
            ↔ Zpos m2 * 2 ^ (e2 - c) < Zpos m1 * 2 ^ (e1 - c)) as Hfin.
  { assert (∀ m1 e1 m2 e2, 2 ^ 52 <= Zpos m1 < 2 ^ 53 → 2 ^ 52 <= Zpos m2 < 2 ^ 53 →
              c <= e1 → c <= e2 → e2 < e1 →
              Zpos m2 * 2 ^ (e2 - c) < Zpos m1 * 2 ^ (e1 - c)) as Hexp.
    { intros m1 e1 m2 e2 H1 H2 Hc1 Hc2 Hlt.
      replace (e1 - c) with ((e2 - c) + (e1 - e2)) by lia. rewrite pow2_split by lia.
      assert (2 ^ 1 <= 2 ^ (e1 - e2)) as Hp by (apply Z.pow_le_mono_r; lia).
      change (2 ^ 1) with 2 in Hp.
      assert (0 < 2 ^ (e2 - c)) as HK by (apply pow2_pos; lia).
      change (2 ^ 53) with (2 * 2 ^ 52) in H2.
      set (K := 2 ^ (e2 - c)) in *. set (J := 2 ^ (e1 - e2)) in *. set (T := 2 ^ 52) in *.
      assert (0 < T) by (unfold T; by apply pow2_pos).
      assert (Zpos m2 * K < 2 * T * K) by (apply Z.mul_lt_mono_pos_r; lia).
      assert (2 * T <= Zpos m1 * J) by nia.
      assert (2 * T * K <= Zpos m1 * J * K) by (apply Z.mul_le_mono_nonneg_r; lia).
      lia. }
    intros m1 e1 m2 e2 H1 H2 Hc1 Hc2.
    unfold F64.gtb, SFltb, SFcompare.
    change (Pos.compare_cont Eq m2 m1) with (Pos.compare m2 m1).
    assert (0 < 2 ^ (e1 - c)) by (apply pow2_pos; lia).
    assert (0 < 2 ^ (e2 - c)) by (apply pow2_pos; lia).
    change (2 ^ 52) with 4503599627370496 in *. change (2 ^ 53) with 9007199254740992 in *.
    destruct (Z.compare_spec e2 e1) as [->|Hlt|Hgt].
    - destruct (Pos.compare_spec m2 m1) as [->|Hm|Hm]; split; intros; try done; try nia.
    - split; [intros _|done]. by apply Hexp.
    - split; [done|intros Hv; exfalso].
      pose proof (Hexp m2 e2 m1 e1 H2 H1 Hc2 Hc1 Hgt). lia. }
  intros H1 H2 Hc1 Hc2.
  assert (∀ M E, 2 ^ 52 <= M <= 2 ^ 53 → c <= E →
            ∃ m e, finish M E = S754_finite false m e ∧ 2 ^ 52 <= Zpos m < 2 ^ 53
                   ∧ c <= e ∧ Zpos m * 2 ^ (e - c) = M * 2 ^ (E - c)) as Hnorm.
  { intros M E HM HE. unfold finish. destruct (Z.ltb_spec M (2 ^ 53)) as [Hlt|Hge].
    - exists (Z.to_pos M), E. rewrite Z2Pos.id by lia. repeat split; lia.
    - exists (Z.to_pos (2 ^ 52)), (E + 1). rewrite Z2Pos.id by lia.
      repeat split; try lia. assert (M = 2 ^ 53) as -> by lia.
      replace (E + 1 - c) with (1 + (E - c)) by lia. rewrite pow2_split by lia.
      change (2 ^ 53) with (2 ^ 52 * 2 ^ 1). ring. }
  destruct (Hnorm M1 E1 H1 Hc1) as (m1 & e1 & -> & B1 & C1 & <-).
  destruct (Hnorm M2 E2 H2 Hc2) as (m2 & e2 & -> & B2 & C2 & <-).
  by apply Hfin.
Qed.

(** Two nearest doubles compare as the values they round, when these
    are further apart than the two roundings reach. *)
Lemma gtb_round_pos_true n1 e1 n2 e2 c :
  0 < n1 → 0 < n2 → c <= e1 → c <= e2 →
  n2 * 2 ^ (e2 - c) * (2 ^ 53 + 1) < n1 * 2 ^ (e1 - c) * (2 ^ 53 - 1) →
  F64.gtb (round_pos n1 e1) (round_pos n2 e2) = true.
Proof.
  intros H1 H2 Hc1 Hc2 Hlt.
  destruct (round_pos_mantissa n1 e1 H1) as (M1 & -> & B1 & V1).
  destruct (round_pos_mantissa n2 e2 H2) as (M2 & -> & B2 & V2).
  destruct (Zdigits2_bounds n1 H1) as [_ D1]. destruct (Zdigits2_bounds n2 H2) as [_ D2].
  apply (gtb_finish _ _ _ _ (c - 53)); [done|done|lia|lia|].
  replace (e2 + Zdigits2 n2 - 53 - (c - 53)) with (Zdigits2 n2 + (e2 - c)) by lia.
  replace (e1 + Zdigits2 n1 - 53 - (c - 53)) with (Zdigits2 n1 + (e1 - c)) by lia.
  rewrite !pow2_split by lia.
  assert (0 < 2 ^ (e1 - c)) by (apply pow2_pos; lia).
  assert (0 < 2 ^ (e2 - c)) by (apply pow2_pos; lia).
  nia.
Qed.

Lemma gtb_round_pos_false n1 e1 n2 e2 c :
  0 < n1 → 0 < n2 → c <= e1 → c <= e2 →
  n1 * 2 ^ (e1 - c) * (2 ^ 53 + 1) <= n2 * 2 ^ (e2 - c) * (2 ^ 53 - 1) →
  F64.gtb (round_pos n1 e1) (round_pos n2 e2) = false.
Proof.
  intros H1 H2 Hc1 Hc2 Hle. apply not_true_is_false.
  destruct (round_pos_mantissa n1 e1 H1) as (M1 & -> & B1 & V1).
  destruct (round_pos_mantissa n2 e2 H2) as (M2 & -> & B2 & V2).
  destruct (Zdigits2_bounds n1 H1) as [_ D1]. destruct (Zdigits2_bounds n2 H2) as [_ D2].
  rewrite (gtb_finish _ _ _ _ (c - 53)); [|done|done|lia|lia].
  replace (e2 + Zdigits2 n2 - 53 - (c - 53)) with (Zdigits2 n2 + (e2 - c)) by lia.
  replace (e1 + Zdigits2 n1 - 53 - (c - 53)) with (Zdigits2 n1 + (e1 - c)) by lia.
  rewrite !pow2_split by lia.
  assert (0 < 2 ^ (e1 - c)) by (apply pow2_pos; lia).
  assert (0 < 2 ^ (e2 - c)) by (apply pow2_pos; lia).
  nia.
Qed.

(** ** The distribution check at the tolerance 0.05 *)

Lemma round_pos_53_bits m e :
  2 ^ 52 <= m < 2 ^ 53 → round_pos m e = S754_finite false (Z.to_pos m) e.
Proof.
  intros Hm. unfold round_pos. rewrite (Zdigits2_53 m Hm).
  replace (m * 2 ^ 53) with (2 ^ 53 * m) by ring.
  replace (2 ^ 53) with (2 ^ 53 * 1) at 2 by ring.
  rewrite round_located_scale by done.
  unfold round_located, locate. rewrite Z.div_1_r, Z.mod_1_r. cbn [Z.eqb].
  unfold rne. cbn [round_nearest_even]. unfold finish.
  rewrite (proj2 (Z.ltb_lt _ _)) by lia. f_equal. lia.
Qed.

(** The computed average of a sum below [2^48]: a 53-bit mantissa [Ma] at
    the exponent [E], within a third of a unit of the exact third of the
    sum. *)
Lemma average_mantissa S :
  0 < S < 2 ^ 48 →
  ∃ E Ma, -106 <= E <= 0
    ∧ truediv S 3 = S754_finite false (Z.to_pos Ma) E
    ∧ 2 ^ 52 <= Ma < 2 ^ 53
    ∧ 49 <= 2 ^ (- E)
    ∧ -1 <= 3 * Ma - S * 2 ^ (- E) <= 1.
Proof.
  intros HS.
  destruct (truediv_rounds_quotient S 3) as (E & HE & Hx & Hdiv);
    [change (2 ^ 48) with 281474976710656 in HS; change (2 ^ 53) with 9007199254740992; lia
    | done |].
  exists E, (rne (S * 2 ^ (- E) / 3) (locate (S * 2 ^ (- E)) 3)).
  pose proof (rne_nearest (S * 2 ^ (- E)) 3 ltac:(lia)) as Hnear.
  set (Ma := rne _ _) in *. set (y := 2 ^ (- E)) in *.
  assert (49 <= y) as Hy.
  { change (2 ^ 48) with 281474976710656 in HS.
    change (2 ^ 52) with 4503599627370496 in Hx. nia. }
  assert (Ma < 2 ^ 53) as Hlt.
  { destruct (Z.eq_dec E 0) as [->|HE0]; [unfold y in Hy; simpl in Hy; lia|].
    assert (y = 2 * 2 ^ (- E - 1)) as Ey.
    { unfold y. rewrite <- Z.pow_succ_r by lia. f_equal. lia. }
    change (2 ^ 53) with 9007199254740992 in *. rewrite Ey in Hnear, Hx. lia. }
  split; [done|]. split.
  - rewrite Hdiv. unfold round_located. fold y Ma. unfold finish.
    by rewrite (proj2 (Z.ltb_lt _ _)) by done.
  - change (2 ^ 52) with 4503599627370496 in *. change (2 ^ 53) with 9007199254740992 in *.
    repeat split; lia.
Qed.

(** The computed deviation of a total [t] from that average is the
    nearest double to [|t * 2^(-E) - Ma| * 2^E], or zero. *)
Lemma deviation_round_pos t Ma E :
  0 <= t < 2 ^ 53 → 2 ^ 52 <= Ma < 2 ^ 53 → -106 <= E <= 0 →
  deviation t (S754_finite false (Z.to_pos Ma) E)
  = if t * 2 ^ (- E) =? Ma then S754_zero false
    else round_pos (Z.abs (t * 2 ^ (- E) - Ma)) E.
Proof.
  intros Ht HMa HE. unfold deviation.
  assert (0 < 2 ^ (- E)) as Hy by (apply pow2_pos; lia).
  destruct (Z.eq_dec t 0) as [->|Hne].
  - rewrite Z.mul_0_l. destruct (Z.eqb_spec 0 Ma) as [E0|_];
      [change (2 ^ 52) with 4503599627370496 in HMa; lia|].
    replace (Z.abs (0 - Ma)) with Ma by lia.
    rewrite round_pos_53_bits by done. reflexivity.
  - assert (0 < t < 2 ^ 53) as Ht' by lia.
    destruct (of_int_mantissa_bounds t Ht') as [Hd HT].
    rewrite (of_int_below_2_53 t Ht').
    set (dt := Zdigits2 t) in *. set (ez := Z.min (dt - 53) E).
    assert (ez <= dt - 53 ∧ ez <= E ∧ -158 <= ez) as (Hz1 & Hz2 & Hz3) by (unfold ez; lia).
    assert (Zpos (Z.to_pos (t * 2 ^ (53 - dt))) * 2 ^ (dt - 53 - ez)
            = t * 2 ^ (- E) * 2 ^ (E - ez)) as E1.
    { rewrite Z2Pos.id by (change (2 ^ 52) with 4503599627370496 in HT; lia).
      rewrite <- !Z.mul_assoc, <- !pow2_split by lia. f_equal. f_equal. lia. }
    assert (Zpos (Z.to_pos Ma) = Ma) as E2
      by (rewrite Z2Pos.id; change (2 ^ 52) with 4503599627370496 in HMa; lia).
    assert (0 < 2 ^ (E - ez)) as Hj by (apply pow2_pos; lia).
    destruct (Z.eqb_spec (t * 2 ^ (- E)) Ma) as [Eq|Hneq].
    + apply sub_equal_values. fold ez. rewrite E1, E2, Eq. done.
    + assert (Zpos (Z.to_pos (t * 2 ^ (53 - dt))) * 2 ^ (dt - 53 - ez)
              - Zpos (Z.to_pos Ma) * 2 ^ (E - ez)
              = (t * 2 ^ (- E) - Ma) * 2 ^ (E - ez)) as EN by (rewrite E1, E2; ring).
      assert (0 < Z.abs (t * 2 ^ (- E) - Ma)) as Hn by lia.
      assert (Z.abs (t * 2 ^ (- E) - Ma) < 2 ^ 160) as Hn160.
      { assert (2 ^ (- E) <= 2 ^ 106) by (apply Z.pow_le_mono_r; lia).
        assert (t * 2 ^ (- E) <= 2 ^ 53 * 2 ^ 106) by (apply Z.mul_le_mono_nonneg; lia).
        change (2 ^ 53 * 2 ^ 106) with (2 ^ 159) in *.
        change (2 ^ 160) with (2 * 2 ^ 159). 
        assert (Ma < 2 ^ 159).
        { eapply Z.lt_le_trans; [apply HMa|]. apply Z.pow_le_mono_r; lia. }
        assert (0 < 2 ^ 159) by (by apply pow2_pos). lia. }
      rewrite abs_sub_round_pos; fold ez.
      * rewrite EN, Z.abs_mul, (Z.abs_eq (2 ^ (E - ez))) by lia.
        replace ez with (E - (E - ez)) at 2 by lia.
        apply round_pos_scale; lia.
      * rewrite E1, E2. intros Habs.
        apply Hneq. apply (Z.mul_cancel_r _ _ (2 ^ (E - ez))); lia.
      * rewrite EN, Z.abs_mul, (Z.abs_eq (2 ^ (E - ez))) by lia.
        rewrite Zdigits2_shift by lia.
        destruct (Zdigits2_bounds _ Hn) as [Hb Hd0].
        assert (Zdigits2 (Z.abs (t * 2 ^ (- E) - Ma)) <= 160).
        { destruct (Z.le_gt_cases (Zdigits2 (Z.abs (t * 2 ^ (- E) - Ma))) 160); [done|].
          assert (2 ^ 160 <= 2 ^ (Zdigits2 (Z.abs (t * 2 ^ (- E) - Ma)) - 1))
            by (apply Z.pow_le_mono_r; lia). lia. }
        lia.
Qed.

Lemma zero_not_above_round_pos n e : F64.gtb (S754_zero false) (round_pos n e) = false.
Proof. unfold round_pos, round_located, finish. by destruct (_ <? _). Qed.

(** The threshold: the nearest double to [C * Ma * 2^(E - 57)], where
    [C * 2^(-57)] is the literal [0.05]. *)
Lemma threshold_round_pos Ma E :
  2 ^ 52 <= Ma < 2 ^ 53 → -106 <= E <= 0 →
  F64.mul F64.lit_0_05 (S754_finite false (Z.to_pos Ma) E)
  = round_pos (7205759403792794 * Ma) (E - 57).
Proof.
  intros HMa HE. unfold F64.lit_0_05.
  rewrite mul_round_pos; [| done | |lia].
  - rewrite Z2Pos.id by (change (2 ^ 52) with 4503599627370496 in HMa; lia).
    f_equal. lia.
  - rewrite Z2Pos.id by (change (2 ^ 52) with 4503599627370496 in HMa; lia). done.
Qed.

(** With the tolerance [0.05] and a sum below [2^48], a total exceeds the
    computed threshold when its exact deviation from the exact average is
    above 5% of the average, and does not when it is below. *)
Lemma exceeds_0_05_exact t S :
  0 <= t <= S → 0 < S < 2 ^ 48 →
  (20 * Z.abs (3 * t - S) < S → exceeds F64.lit_0_05 t (truediv S 3) = false)
  ∧ (S < 20 * Z.abs (3 * t - S) → exceeds F64.lit_0_05 t (truediv S 3) = true).
Proof.
  intros Ht HS.
  destruct (average_mantissa S HS) as (E & Ma & HE & -> & HMa & Hy & Hnear).
  unfold exceeds.
  assert (0 <= t < 2 ^ 53) as Ht53.
  { change (2 ^ 48) with 281474976710656 in HS.
    change (2 ^ 53) with 9007199254740992. lia. }
  rewrite (deviation_round_pos t Ma E Ht53 HMa HE), (threshold_round_pos Ma E HMa HE).
  set (y := 2 ^ (- E)) in *.
  assert (Z.abs (3 * t - S) * y = Z.abs (3 * (t * y) - S * y)) as EW.
  { rewrite <- (Z.abs_eq y) at 1 by lia. rewrite <- Z.abs_mul. f_equal. ring. }
  assert (S * y <= (2 ^ 48 - 1) * y) as HV by (apply Z.mul_le_mono_nonneg_r; lia).
  assert (0 < 7205759403792794 * Ma) as HP
    by (change (2 ^ 52) with 4503599627370496 in HMa; lia).
  assert (2 ^ (E - (E - 57)) = 144115188075855872) as E57
    by (replace (E - (E - 57)) with 57 by lia; reflexivity).
  assert (2 ^ (E - 57 - (E - 57)) = 1) as E0
    by (replace (E - 57 - (E - 57)) with 0 by lia; reflexivity).
  change (2 ^ 48) with 281474976710656 in *.
  change (2 ^ 52) with 4503599627370496 in *.
  change (2 ^ 53) with 9007199254740992 in *.
  split; intros HW.
  - assert (20 * (Z.abs (3 * t - S) * y) <= (S - 1) * y) as HU.
    { rewrite Z.mul_assoc. apply Z.mul_le_mono_nonneg_r; lia. }
    rewrite EW in HU. clear EW HW.
    set (T := t * y) in *. set (V := S * y) in *.
    replace ((S - 1) * y) with (V - y) in HU by (unfold V; ring).
    destruct (Z.eqb_spec T Ma) as [_|Hne]; [apply zero_not_above_round_pos|].
    apply (gtb_round_pos_false _ _ _ _ (E - 57)); [lia | lia | lia | lia |].
    rewrite E57, E0. change (2 ^ 53) with 9007199254740992. lia.
  - assert ((S + 1) * y <= 20 * (Z.abs (3 * t - S) * y)) as HU.
    { rewrite Z.mul_assoc. apply Z.mul_le_mono_nonneg_r; lia. }
    rewrite EW in HU. clear EW HW.
    set (T := t * y) in *. set (V := S * y) in *.
    replace ((S + 1) * y) with (V + y) in HU by (unfold V; ring).
    destruct (Z.eqb_spec T Ma) as [Heq|Hne]; [exfalso; lia|].
    apply (gtb_round_pos_true _ _ _ _ (E - 57)); [lia | lia | lia | lia |].
    rewrite E57, E0. change (2 ^ 53) with 9007199254740992. lia.
Qed.

(** The distribution check on totals below [2^48], tolerance [0.05]. *)
Lemma none_exceeds_0_05_exact a p s :
  0 <= a → 0 <= p → 0 <= s → a + p + s < 2 ^ 48 →
  ((∀ t, t ∈ [a; p; s] → deviates_less_than_5_percent t (a + p + s)) →
   exceeds F64.lit_0_05 a (average a p s)
   || exceeds F64.lit_0_05 p (average a p s)
   || exceeds F64.lit_0_05 s (average a p s) = false)
  ∧ ((∃ t, t ∈ [a; p; s] ∧ deviates_more_than_5_percent t (a + p + s)) →
     exceeds F64.lit_0_05 a (average a p s)
     || exceeds F64.lit_0_05 p (average a p s)
     || exceeds F64.lit_0_05 s (average a p s) = true).
Proof.
  intros Ha Hp Hs Hsum.
  assert (average a p s = truediv (a + p + s) 3) as ->.
  { unfold average, truediv. rewrite Int64_add_add, Int64_wrap_in_range; [done|].
    unfold Int64.in_range, Int64.min_int, Int64.max_int.
    change (2 ^ 48) with 281474976710656 in Hsum. lia. }
  unfold deviates_less_than_5_percent, deviates_more_than_5_percent.
  split.
  - intros H.
    assert (0 < a + p + s) as Hpos.
    { specialize (H a ltac:(apply list_elem_of_here)). lia. }
    rewrite !orb_false_iff. repeat split;
      apply (exceeds_0_05_exact _ (a + p + s)); try lia; apply H; repeat first [ apply list_elem_of_here | apply list_elem_of_further ].
  - intros (t & Hin & Ht).
    assert (0 < a + p + s) as Hpos.
    { repeat (apply elem_of_cons in Hin as [->|Hin]); try lia. by apply elem_of_nil in Hin. }
    rewrite !orb_true_iff.
    repeat (apply elem_of_cons in Hin as [->|Hin]); [| | |by apply elem_of_nil in Hin].
    + left; left. apply (exceeds_0_05_exact _ (a + p + s)); lia.
    + left; right. apply (exceeds_0_05_exact _ (a + p + s)); lia.
    + right. apply (exceeds_0_05_exact _ (a + p + s)); lia.
Qed.

(** ** The checks on well-typed columns *)

Lemma check_workload_assignment_run s ct cn co total new older :
  frame s !! "total_workloads" = Some ct →
  frame s !! "workloads_new_blocks" = Some cn →
  frame s !! "workloads_older_blocks" = Some co →
  values_of ct = Ok total → values_of cn = Ok new → values_of co = Ok older →
  check_workload_assignment s =
    if negb (all (zip_with Z.eqb (zip_with Int64.add new older) total)) then
      (Ok false, say AssignMismatch s)
    else if negb (all (ratios_between F64.lit_0_50 F64.lit_0_60 (zip_with truediv new total))) then
      (Ok false, say AssignTodayBad s)
    else if negb (all (ratios_between F64.lit_0_40 F64.lit_0_50 (zip_with truediv older total))) then
      (Ok false, say AssignOlderBad s)
    else (Ok true, say AssignOk s).
Proof.
  intros Ht Hn Ho Vt Vn Vo.
  unfold check_workload_assignment.
  rewrite (run_bind_ok _ _ _ _ _ (missing_columns_all_present required_cols s
             ltac:(repeat constructor; eauto))).
  cbn [is_nonempty].
  run_get Hn. run_get Ho. run_pure (col_add_values _ _ _ _ Vn Vo).
  run_get Ht. run_pure (col_eq_values _ _ _ _ (values_of_IntCol _) Vt).
  destruct (negb (all (zip_with Z.eqb _ total))); [reflexivity|].
  run_get Hn. run_get Ht. run_pure (col_truediv_values _ _ _ _ Vn Vt).
  run_get Ho. run_get Ht. run_pure (col_truediv_values _ _ _ _ Vo Vt).
  destruct (negb (all (ratios_between _ _ (zip_with truediv new total)))); [reflexivity|].
  destruct (negb (all (ratios_between _ _ (zip_with truediv older total)))); reflexivity.
Qed.

Lemma check_equal_distribution_run tolerance s ca cp cs la lp ls :
  frame s !! "new_blocks_atom" = Some ca →
  frame s !! "new_blocks_photon" = Some cp →
  frame s !! "new_blocks_spin" = Some cs →
  values_of ca = Ok la → values_of cp = Ok lp → values_of cs = Ok ls →
  check_equal_distribution tolerance s =
    let avg := average (Int64.sum la) (Int64.sum lp) (Int64.sum ls) in
    if exceeds tolerance (Int64.sum la) avg
       || exceeds tolerance (Int64.sum lp) avg
       || exceeds tolerance (Int64.sum ls) avg
    then (Ok false,
          say (DistributionTotals (Int64.sum la) (Int64.sum lp) (Int64.sum ls) avg)
              (say DistributionUnequal s))
    else (Ok true, say DistributionEqual s).
Proof.
  intros Ha Hp Hs Va Vp Vs. unfold check_equal_distribution.
  run_get Ha. run_pure (col_sum_values _ _ Va).
  run_get Hp. run_pure (col_sum_values _ _ Vp).
  run_get Hs. run_pure (col_sum_values _ _ Vs).
  cbv zeta. fold (average (Int64.sum la) (Int64.sum lp) (Int64.sum ls)).
  set (avg := average _ _ _).
  fold (deviation (Int64.sum la) avg) (deviation (Int64.sum lp) avg)
       (deviation (Int64.sum ls) avg).
  fold (exceeds tolerance (Int64.sum la) avg) (exceeds tolerance (Int64.sum lp) avg)
       (exceeds tolerance (Int64.sum ls) avg).
  by destruct (_ || _ || _).
Qed.

Lemma zero_totals_within_any_tolerance tolerance :
  exceeds tolerance 0 (average 0 0 0) = false.
Proof. destruct tolerance as [[]|[]| |[] m e]; reflexivity. Qed.

Lemma to_datetime_ok parse_dates c c' :
  to_datetime parse_dates c = Ok c' → ∃ l, c' = DateCol l.
Proof.
  unfold to_datetime. intros H.
  destruct c; try destruct (parse_dates _); simplify_eq; eauto.
Qed.

Lemma check_date_range_six_months_run parse_dates s raw l :
  frame s !! "date" = Some raw →
  to_datetime parse_dates raw = Ok (DateCol l) →
  check_date_range_six_months parse_dates s =
    match timedelta_days (ts_fold Z.min l) (ts_fold Z.max l) with
    | Ok num_days =>
        if days_lt num_days 170 || days_gt num_days 190
        then (Ok false, say (DateRangeBad num_days) (with_dates l s))
        else (Ok true, say (DateRangeOk num_days) (with_dates l s))
    | Raise e => (Raise e, with_dates l s)
    end.
Proof.
  intros Hraw Hparse. unfold check_date_range_six_months.
  run_get Hraw. run_pure Hparse.
  rewrite (run_bind_ok _ _ _ _ (with_dates l s) (eq_refl : setitem _ _ s = (Ok tt, _))).
  assert (frame (with_dates l s) !! "date" = Some (DateCol l)) as Hd
    by apply lookup_insert_eq.
  run_get Hd. run_pure (eq_refl : col_min (DateCol l) = Ok _).
  run_get Hd. run_pure (eq_refl : col_max (DateCol l) = Ok _).
  destruct (timedelta_days _ _) as [num_days|e] eqn:Hdays.
  - run_pure (eq_refl : Ok num_days = Ok _). by destruct (_ || _).
  - by rewrite (run_bind_raise _ _ _ _ _ (run_lift_raise (Raise e) _ _ eq_refl)).
Qed.

(** A frame without records, or whose dates are all missing, has no
    earliest and latest date: the day count is NaN, both comparisons are
    false and the check returns true. *)
Lemma check_date_range_six_months_no_dates parse_dates s raw l :
  frame s !! "date" = Some raw →
  to_datetime parse_dates raw = Ok (DateCol l) →
  ts_fold Z.min l = None →
  check_date_range_six_months parse_dates s
  = (Ok true, say (DateRangeOk None) (with_dates l s)).
Proof.
  intros Hraw Hparse Hmin.
  rewrite (check_date_range_six_months_run parse_dates s raw l Hraw Hparse).
  by rewrite Hmin.
Qed.

Lemma check_blocks_leased_range_run s ca cp cs atom photon spin :
  frame s !! "new_blocks_atom" = Some ca →
  frame s !! "new_blocks_photon" = Some cp →
  frame s !! "new_blocks_spin" = Some cs →
  values_of ca = Ok atom → values_of cp = Ok photon → values_of cs = Ok spin →
  check_blocks_leased_range s =
    if negb (all (map (between_int 1000 10000) (total_blocks atom photon spin)))
    then (Ok false, say BlocksOutOfRange (with_totals (total_blocks atom photon spin) s))
    else (Ok true, say BlocksInRange (with_totals (total_blocks atom photon spin) s)).
Proof.
  intros Ha Hp Hs Va Vp Vs. unfold check_blocks_leased_range.
  run_get Ha. run_get Hp. run_pure (col_add_values _ _ _ _ Va Vp).
  run_get Hs. run_pure (col_add_values _ _ _ _ (values_of_IntCol _) Vs).
  fold (total_blocks atom photon spin).
  rewrite (run_bind_ok _ _ _ _ (with_totals (total_blocks atom photon spin) s)
             (eq_refl : setitem _ _ s = (Ok tt, _))).
  assert (frame (with_totals (total_blocks atom photon spin) s) !! "total_blocks_leased"
          = Some (IntCol (total_blocks atom photon spin))) as Ht
    by apply lookup_insert_eq.
  run_get Ht. run_pure (col_between_int_values _ _ _ _ (values_of_IntCol _)).
  by destruct (negb _).
Qed.

Lemma total_blocks_lookup atom photon spin i a p sp :
  atom !! i = Some a → photon !! i = Some p → spin !! i = Some sp →
  total_blocks atom photon spin !! i = Some (Int64.add (Int64.add a p) sp).
Proof.
  intros Ha Hp Hs. unfold total_blocks.
  apply lookup_zip_with_Some. exists (Int64.add a p), sp. repeat split; [|done].
  apply lookup_zip_with_Some. eauto.
Qed.

Lemma check_blocks_leased_range_returns s b s' :
  check_blocks_leased_range s = (Ok b, s') →
  ∃ ca cp cs atom photon spin,
    frame s !! "new_blocks_atom" = Some ca
    ∧ frame s !! "new_blocks_photon" = Some cp
    ∧ frame s !! "new_blocks_spin" = Some cs
    ∧ values_of ca = Ok atom ∧ values_of cp = Ok photon ∧ values_of cs = Ok spin.
Proof.
  unfold check_blocks_leased_range. intros H.
  destruct (frame s !! "new_blocks_atom") as [ca|] eqn:Ha;
    [run_get Ha in H | by rewrite (run_bind_raise _ _ _ _ _ (run_getitem_none _ _ Ha)) in H].
  destruct (frame s !! "new_blocks_photon") as [cp|] eqn:Hp;
    [run_get Hp in H | by rewrite (run_bind_raise _ _ _ _ _ (run_getitem_none _ _ Hp)) in H].
  destruct (values_of_cases ca) as [[atom Va]|Va];
    [| by rewrite (run_bind_raise _ _ _ _ _
                     (run_lift_raise _ _ s (col_add_raises_l ca cp Va))) in H].
  destruct (values_of_cases cp) as [[photon Vp]|Vp];
    [| by rewrite (run_bind_raise _ _ _ _ _
                     (run_lift_raise _ _ s (col_add_raises_r ca cp atom Va Vp))) in H].
  run_pure (col_add_values _ _ _ _ Va Vp) in H.
  destruct (frame s !! "new_blocks_spin") as [cs|] eqn:Hs;
    [run_get Hs in H | by rewrite (run_bind_raise _ _ _ _ _ (run_getitem_none _ _ Hs)) in H].
  destruct (values_of_cases cs) as [[spin Vs]|Vs];
    [| by rewrite (run_bind_raise _ _ _ _ _
                     (run_lift_raise _ _ s
                        (col_add_raises_r _ cs _ (values_of_IntCol _) Vs))) in H].
  eauto 12.
Qed.

Lemma check_date_range_six_months_returns parse_dates s b s' :
  check_date_range_six_months parse_dates s = (Ok b, s') →
  ∃ raw l, frame s !! "date" = Some raw
           ∧ to_datetime parse_dates raw = Ok (DateCol l).
Proof.
  unfold check_date_range_six_months. intros H.
  destruct (frame s !! "date") as [raw|] eqn:Hraw;
    [run_get Hraw in H | by rewrite (run_bind_raise _ _ _ _ _ (run_getitem_none _ _ Hraw)) in H].
  destruct (to_datetime parse_dates raw) as [c|e] eqn:Hparse.
  - destruct (to_datetime_ok _ _ _ Hparse) as [l ->]. eauto.
  - by rewrite (run_bind_raise _ _ _ _ _ (run_lift_raise (Raise e) _ s eq_refl)) in H.
Qed.

Lemma check_blocks_leased_range_rerun s b s' :
  check_blocks_leased_range s = (Ok b, s') →
  fst (check_blocks_leased_range s') = Ok b.
Proof.
  intros Hrun.
  destruct (check_blocks_leased_range_returns s b s' Hrun)
    as (ca & cp & cs & atom & photon & spin & Ha & Hp & Hs & Va & Vp & Vs).
  rewrite (check_blocks_leased_range_run s ca cp cs atom photon spin) in Hrun by done.
  assert (frame s' = <["total_blocks_leased" := IntCol (total_blocks atom photon spin)]> (frame s)
          ∧ b = all (map (between_int 1000 10000) (total_blocks atom photon spin)))
    as [Hf ->].
  { destruct (all _); simpl in Hrun; by simplify_eq. }
  rewrite (check_blocks_leased_range_run s' ca cp cs atom photon spin);
    [by destruct (all _) | | | | done | done | done];
    rewrite Hf, lookup_insert_ne; done.
Qed.

Lemma check_date_range_six_months_rerun parse_dates s b s' :
  check_date_range_six_months parse_dates s = (Ok b, s') →
  fst (check_date_range_six_months parse_dates s') = Ok b.
Proof.
  intros Hrun.
  destruct (check_date_range_six_months_returns parse_dates s b s' Hrun)
    as (raw & l & Hraw & Hparse).
  rewrite (check_date_range_six_months_run parse_dates s raw l Hraw Hparse) in Hrun.
  assert (frame s' !! "date" = Some (DateCol l)) as Hraw'.
  { destruct (timedelta_days _ _) as [num_days|e]; [|done].
    destruct (_ || _); simplify_eq; apply lookup_insert_eq. }
  rewrite (check_date_range_six_months_run parse_dates s' (DateCol l) l Hraw' eq_refl).
  destruct (timedelta_days _ _) as [num_days|e]; [|done].
  destruct (_ || _); by simplify_eq.
Qed.

Lemma div_by_zero_not_between (x : spec_float) (s1 s2 : bool) (m1 m2 : positive) (e1 e2 : Z) :
  F64.between (S754_finite s1 m1 e1) (S754_finite s2 m2 e2)
              (F64.div x (F64.of_int 0)) = false.
Proof.
  change (F64.of_int 0) with (S754_zero false).
  destruct x as [[]|[]| |[] mx ex], s1, s2; reflexivity.
Qed.

Lemma ratios_with_zero_total (lo hi : spec_float) (num total : list Z) (i : nat) (n : Z) :
  (∃ s m e, lo = S754_finite s m e) → (∃ s m e, hi = S754_finite s m e) →
  num !! i = Some n → total !! i = Some 0 →
  all (ratios_between lo hi (zip_with truediv num total)) = false.
Proof.
  intros (s1 & m1 & e1 & ->) (s2 & m2 & e2 & ->) Hn Ht.
  apply not_true_is_false. unfold ratios_between. rewrite all_map_lookup. intros H.
  specialize (H i (truediv n 0)). unfold truediv in H.
  rewrite div_by_zero_not_between in H. discriminate H.
  apply lookup_zip_with_Some. eauto.
Qed.

Lemma has_no_records_values c : has_no_records c = true → values_of c = Ok [].
Proof. by destruct c as [[|??]|[|??]|?]. Qed.

Lemma columns_without_records_lookup names df name :
  columns_without_records names df = true → name ∈ names →
  ∃ c, df !! name = Some c ∧ values_of c = Ok [].
Proof.
  unfold columns_without_records. rewrite forallb_forall.
  intros H Hin%list_elem_of_In. specialize (H name Hin).
  destruct (df !! name) as [c|]; [|done]. eauto using has_no_records_values.
Qed.

(** * The claims of the specification *)

(** ** C1: a missing [total_workloads] column *)

Lemma check_workload_range_KeyError s :
  frame s !! "total_workloads" = None →
  check_workload_range s = (Raise (KeyError "total_workloads"), s).
Proof.
  intros H. unfold check_workload_range.
  by rewrite (run_bind_raise _ _ _ _ _ (run_getitem_none _ _ H)).
Qed.

Lemma missing_columns_elem cols name s :
  name ∈ cols → frame s !! name = None →
  ∃ missing, missing_columns cols s = (Ok missing, s) ∧ name ∈ missing.
Proof.
  intros Hin Hnone. eexists; split; [reflexivity|].
  apply list_elem_of_In, filter_In. split; [by apply list_elem_of_In|].
  by apply bool_decide_eq_true.
Qed.

Lemma check_workload_assignment_reports_missing s :
  frame s !! "total_workloads" = None →
  ∃ missing, "total_workloads" ∈ missing
    ∧ check_workload_assignment s = (Ok false, say (AssignMissing missing) s).
Proof.
  intros H.
  destruct (missing_columns_elem required_cols "total_workloads" s) as (missing & Hrun & Hin);
    [ apply list_elem_of_here | done | ].
  exists missing; split; [done|].
  unfold check_workload_assignment. rewrite (run_bind_ok _ _ _ _ _ Hrun).
  destruct missing as [|x l]; [by apply elem_of_nil in Hin | reflexivity].
Qed.

(** C1 (fails on the code): on a frame without [total_workloads] the
    workload volume check does not report and return false, it raises
    [KeyError] from [df['total_workloads']]; the workload assignment check
    on the same frame reports the missing column and returns false. *)
Theorem check_workload_range_raises_without_total_workloads :
  check_required_columns (State df_required_only [])
    = (Ok true, State df_required_only [AllRequiredPresent])
  ∧ check_workload_range (State df_required_only [])
    = (Raise (KeyError "total_workloads"), State df_required_only [])
  ∧ check_workload_assignment (State df_required_only [])
    = (Ok false, State df_required_only [AssignMissing ["total_workloads"]]).
Proof. repeat split; vm_compute; reflexivity. Qed.

(** In the orchestrator the exception ends the run: the distribution
    check is not reached and no result is returned. *)
Example run_all_checks_raises_without_total_workloads :
  fst (run_all_checks IsoDate.parse_dates (State df_required_only []))
  = Raise (KeyError "total_workloads")
  ∧ output (snd (run_all_checks IsoDate.parse_dates (State df_required_only [])))
    = [CheckingColumns; AllRequiredPresent;
       CheckingDates; DateRangeBad (Some 0);
       CheckingBlocks; BlocksInRange;
       CheckingWorkloads].
Proof. vm_compute. split; reflexivity. Qed.

(** ** C2: the orchestrator *)

(** C2, for the frames on which none of the five checks raises: when the
    schema, date range, blocks volume, workload volume and distribution
    checks return, each started after its header in the state the one
    before it left, [run_all_checks] has run the five in this order,
    whatever the earlier ones returned; its result is the conjunction of
    the five results, and no line of the workload assignment check is
    printed. *)
Theorem run_all_checks_five_checks_conjunction
    (parse_dates : column → option (list (option Z)))
    (s0 s1 s2 s3 s4 s5 : state) (b1 b2 b3 b4 b5 : bool) :
  check_required_columns (say CheckingColumns s0) = (Ok b1, s1) →
  check_date_range_six_months parse_dates (say CheckingDates s1) = (Ok b2, s2) →
  check_blocks_leased_range (say CheckingBlocks s2) = (Ok b3, s3) →
  check_workload_range (say CheckingWorkloads s3) = (Ok b4, s4) →
  check_equal_distribution F64.lit_0_05 (say CheckingDistribution s4) = (Ok b5, s5) →
  run_all_checks parse_dates s0
    = (Ok (b1 && b2 && b3 && b4 && b5),
       say (if b1 && b2 && b3 && b4 && b5 then AllPassed else SomeFailed) s5)
  ∧ prints_only not_from_assignment s0
      (say (if b1 && b2 && b3 && b4 && b5 then AllPassed else SomeFailed) s5).
Proof.
  intros H1 H2 H3 H4 H5.
  assert (run_all_checks parse_dates s0
    = (Ok (b1 && b2 && b3 && b4 && b5),
       say (if b1 && b2 && b3 && b4 && b5 then AllPassed else SomeFailed) s5)) as Hrun.
  { unfold run_all_checks.
    rewrite (run_bind_ok _ _ _ _ _ (run_print _ _)), (run_bind_ok _ _ _ _ _ H1).
    rewrite (run_bind_ok _ _ _ _ _ (run_print _ _)), (run_bind_ok _ _ _ _ _ H2).
    rewrite (run_bind_ok _ _ _ _ _ (run_print _ _)), (run_bind_ok _ _ _ _ _ H3).
    rewrite (run_bind_ok _ _ _ _ _ (run_print _ _)), (run_bind_ok _ _ _ _ _ H4).
    rewrite (run_bind_ok _ _ _ _ _ (run_print _ _)), (run_bind_ok _ _ _ _ _ H5).
    by destruct (b1 && b2 && b3 && b4 && b5). }
  split; [exact Hrun|].
  pose proof (run_all_checks_no_assignment_output parse_dates s0) as Hout.
  by rewrite Hrun in Hout.
Qed.

Lemma run_all_checks_five_checks_conjunction_witness :
  fst (run_all_checks IsoDate.parse_dates (State df_without_cost [])) = Ok false
  ∧ output (snd (run_all_checks IsoDate.parse_dates (State df_without_cost [])))
    = [CheckingColumns; MissingRequired ["total_daily_cost"];
       CheckingDates; DateRangeOk (Some 180);
       CheckingBlocks; BlocksInRange;
       CheckingWorkloads; WorkloadsInRange;
       CheckingDistribution; DistributionEqual;
       SomeFailed].
Proof.
  destruct (run_all_checks_five_checks_conjunction IsoDate.parse_dates
              (State df_without_cost []) _ _ _ _ _ false true true true true
              eq_refl eq_refl eq_refl eq_refl eq_refl) as [Hrun _].
  rewrite Hrun. split; reflexivity.
Defined.

(** Not every frame: a check that raises ends the run.  On a frame
    without [total_daily_cost] whose second date cannot be read the schema
    check returns false, the date range check raises the parser's error,
    and the run ends there with no result; the blocks volume, workload
    volume and distribution checks, each of which returns true on this
    frame, are not started. *)
Lemma run_all_checks_stops_at_unparseable_date :
  check_required_columns (say CheckingColumns (State df_unparseable_date []))
  = (Ok false,
     State df_unparseable_date [CheckingColumns; MissingRequired ["total_daily_cost"]])
  ∧ run_all_checks IsoDate.parse_dates (State df_unparseable_date [])
    = (Raise ParseError,
       State df_unparseable_date
             [CheckingColumns; MissingRequired ["total_daily_cost"]; CheckingDates])
  ∧ fst (check_blocks_leased_range (State df_unparseable_date [])) = Ok true
  ∧ fst (check_workload_range (State df_unparseable_date [])) = Ok true
  ∧ fst (check_equal_distribution F64.lit_0_05 (State df_unparseable_date [])) = Ok true.
Proof. vm_compute. repeat split; reflexivity. Qed.

(** ** C3: the workload assignment check *)

(** C3: with the three columns present, the workload assignment check
    returns, and it returns true exactly when every record has
    [workloads_new_blocks + workloads_older_blocks == total_workloads],
    [workloads_new_blocks / total_workloads] in [0.50, 0.60] and
    [workloads_older_blocks / total_workloads] in [0.40, 0.50]; one
    violation in one record makes it false.  The sum is the one of
    [int64] and the ratios are doubles; for non-negative parts below 2^53
    and a positive total up to 2^50 they decide as the exact integers and
    fractions do. *)
Theorem check_workload_assignment_true_iff_every_record
    (s : state) (nrows : nat) (ct cn co : column) (total new older : list Z) :
  df_wf nrows (frame s) →
  frame s !! "total_workloads" = Some ct →
  frame s !! "workloads_new_blocks" = Some cn →
  frame s !! "workloads_older_blocks" = Some co →
  values_of ct = Ok total → values_of cn = Ok new → values_of co = Ok older →
  ∃ b, fst (check_workload_assignment s) = Ok b
     ∧ (b = true ↔ ∀ i n o t, new !! i = Some n → older !! i = Some o →
                     total !! i = Some t → record_assignment_ok n o t)
     ∧ (∀ n o t, 0 <= n < 2 ^ 53 → 0 <= o < 2 ^ 53 → 0 < t <= 2 ^ 50 →
          record_assignment_ok n o t
          ↔ n + o = t ∧ 50 * t <= 100 * n <= 60 * t ∧ 40 * t <= 100 * o <= 50 * t).
Proof.
  intros Hwf Ht Hn Ho Vt Vn Vo.
  pose proof (df_wf_length _ _ _ _ _ Hwf Ht Vt) as Lt.
  pose proof (df_wf_length _ _ _ _ _ Hwf Hn Vn) as Ln.
  pose proof (df_wf_length _ _ _ _ _ Hwf Ho Vo) as Lo.
  rewrite (check_workload_assignment_run s ct cn co total new older) by done.
  exists (all (zip_with Z.eqb (zip_with Int64.add new older) total)
          && all (ratios_between F64.lit_0_50 F64.lit_0_60 (zip_with truediv new total))
          && all (ratios_between F64.lit_0_40 F64.lit_0_50 (zip_with truediv older total))).
  split; [by repeat destruct (all _)|].
  split; [|apply record_assignment_ok_exact].
  rewrite !andb_true_iff, all_zip_with_lookup. unfold ratios_between.
  rewrite !all_map_lookup. split.
  - intros [[Es Et] Eo] i n o t Hin Hio Hit. repeat split.
    + apply Z.eqb_eq, (Es i); [|done]. apply lookup_zip_with_Some; eauto.
    + apply (Et i), lookup_zip_with_Some; eauto.
    + apply (Eo i), lookup_zip_with_Some; eauto.
  - intros H. repeat split.
    + intros i sp t Hi Hit.
      apply lookup_zip_with_Some in Hi as (n & o & -> & Hin & Hio).
      apply Z.eqb_eq, (H i n o t Hin Hio Hit).
    + intros i r Hi.
      apply lookup_zip_with_Some in Hi as (n & t & -> & Hin & Hit).
      destruct (lookup_lt_is_Some_2 older i) as [o Hio];
        [rewrite Lo, <- Lt; eapply lookup_lt_Some, Hit|].
      apply (H i n o t Hin Hio Hit).
    + intros i r Hi.
      apply lookup_zip_with_Some in Hi as (o & t & -> & Hio & Hit).
      destruct (lookup_lt_is_Some_2 new i) as [n Hin];
        [rewrite Ln, <- Lt; eapply lookup_lt_Some, Hit|].
      apply (H i n o t Hin Hio Hit).
Qed.

(** The records of the specification: 550 and 450 of 1000 pass; 650 and
    350 of 1000 add up but fail the first ratio.  The bounds themselves
    pass. *)
Example check_workload_assignment_550_450 :
  check_workload_assignment (State (df_assignment [1000] [550] [450]) [])
  = (Ok true, State (df_assignment [1000] [550] [450]) [AssignOk]).
Proof. vm_compute. reflexivity. Qed.

Example check_workload_assignment_650_350 :
  check_workload_assignment (State (df_assignment [1000] [650] [350]) [])
  = (Ok false, State (df_assignment [1000] [650] [350]) [AssignTodayBad]).
Proof. vm_compute. reflexivity. Qed.

Example check_workload_assignment_bounds :
  fst (check_workload_assignment
         (State (df_assignment [1000; 1000] [500; 600] [500; 400]) [])) = Ok true.
Proof. vm_compute. reflexivity. Qed.

Lemma check_workload_assignment_true_iff_every_record_witness :
  ∃ b, fst (check_workload_assignment
              (State (df_assignment [1000; 2000] [550; 1200] [450; 800]) [])) = Ok b
     ∧ (b = true ↔ ∀ i n o t, [550; 1200] !! i = Some n → [450; 800] !! i = Some o →
                     [1000; 2000] !! i = Some t → record_assignment_ok n o t)
     ∧ (∀ n o t, 0 <= n < 2 ^ 53 → 0 <= o < 2 ^ 53 → 0 < t <= 2 ^ 50 →
          record_assignment_ok n o t
          ↔ n + o = t ∧ 50 * t <= 100 * n <= 60 * t ∧ 40 * t <= 100 * o <= 50 * t).
Proof.
  apply (check_workload_assignment_true_iff_every_record
           (State (df_assignment [1000; 2000] [550; 1200] [450; 800]) []) 2%nat
           (IntCol [1000; 2000]) (IntCol [550; 1200]) (IntCol [450; 800]));
    [apply (bool_decide_unpack _); vm_compute; exact I | reflexivity ..].
Defined.

(** ** C4: a record without workloads *)

(** C4: when some record has [total_workloads == 0], the workload
    assignment check returns false; the division raises nothing, it gives
    an infinity or NaN, which lies in no interval. *)
Theorem check_workload_assignment_zero_total_returns_false
    (s : state) (nrows : nat) (ct cn co : column) (total new older : list Z) (i : nat) :
  df_wf nrows (frame s) →
  frame s !! "total_workloads" = Some ct →
  frame s !! "workloads_new_blocks" = Some cn →
  frame s !! "workloads_older_blocks" = Some co →
  values_of ct = Ok total → values_of cn = Ok new → values_of co = Ok older →
  total !! i = Some 0 →
  fst (check_workload_assignment s) = Ok false.
Proof.
  intros Hwf Ht Hn Ho Vt Vn Vo Hi.
  pose proof (df_wf_length _ _ _ _ _ Hwf Ht Vt) as Lt.
  pose proof (df_wf_length _ _ _ _ _ Hwf Hn Vn) as Ln.
  rewrite (check_workload_assignment_run s ct cn co total new older) by done.
  destruct (negb (all (zip_with Z.eqb _ total))); [reflexivity|].
  destruct (lookup_lt_is_Some_2 new i) as [n Hin];
    [rewrite Ln, <- Lt; eapply lookup_lt_Some, Hi|].
  rewrite (ratios_with_zero_total _ _ new total i n); [reflexivity| | |done|done];
    unfold F64.lit_0_50, F64.lit_0_60; eauto.
Qed.

(** With no workloads at all the sum test passes and [0 / 0] is NaN; with
    workloads but a total of 0 the sum test already fails. *)
Example check_workload_assignment_zero_over_zero :
  check_workload_assignment (State (df_assignment [0] [0] [0]) [])
  = (Ok false, State (df_assignment [0] [0] [0]) [AssignTodayBad])
  ∧ truediv 0 0 = S754_nan ∧ truediv 5 0 = S754_infinity false.
Proof. vm_compute. repeat split. Qed.

Lemma check_workload_assignment_zero_total_returns_false_witness :
  fst (check_workload_assignment
         (State (df_assignment [1000; 0] [550; 0] [450; 0]) [])) = Ok false.
Proof.
  apply (check_workload_assignment_zero_total_returns_false
           (State (df_assignment [1000; 0] [550; 0] [450; 0]) []) 2%nat
           (IntCol [1000; 0]) (IntCol [550; 0]) (IntCol [450; 0])
           [1000; 0] [550; 0] [450; 0] 1%nat);
    [apply (bool_decide_unpack _); vm_compute; exact I | reflexivity ..].
Defined.

(** ** C5: the distribution check *)

(** C5, with the comparison the code makes: with the three category
    columns present, the distribution check returns for every tolerance,
    and it returns true exactly when none of the three totals deviates
    from the computed average [(atom + photon + spin) / 3] by more than
    the computed [tolerance * average]; for a tolerance that is a number
    and non-negative totals below 2^53 this is: every computed deviation
    is at most the computed [tolerance * average].  When the three totals
    are 0 it returns true, the only division being the one by 3.  With
    the default tolerance 0.05 and non-negative sums below 2^48 in all,
    the computed comparison agrees with the one of the specification away
    from the boundary: the check returns true when every sum deviates
    from the third of the three by less than 5% of it, and false when one
    of them deviates by more than 5% of it. *)
Theorem check_equal_distribution_true_iff_within_tolerance
    (tolerance : spec_float) (s : state) (ca cp cs : column) (atom photon spin : list Z) :
  frame s !! "new_blocks_atom" = Some ca →
  frame s !! "new_blocks_photon" = Some cp →
  frame s !! "new_blocks_spin" = Some cs →
  values_of ca = Ok atom → values_of cp = Ok photon → values_of cs = Ok spin →
  ∃ b, fst (check_equal_distribution tolerance s) = Ok b
     ∧ (b = true
        ↔ none_exceeds tolerance (Int64.sum atom) (Int64.sum photon) (Int64.sum spin))
     ∧ (is_number tolerance = true →
        0 <= Int64.sum atom → 0 <= Int64.sum photon → 0 <= Int64.sum spin →
        Int64.sum atom + Int64.sum photon + Int64.sum spin < 2 ^ 53 →
        b = true
        ↔ all_within tolerance (Int64.sum atom) (Int64.sum photon) (Int64.sum spin))
     ∧ (Int64.sum atom = 0 → Int64.sum photon = 0 → Int64.sum spin = 0 → b = true)
     ∧ (tolerance = F64.lit_0_05 →
        0 <= exact_sum atom → 0 <= exact_sum photon → 0 <= exact_sum spin →
        exact_sum atom + exact_sum photon + exact_sum spin < 2 ^ 48 →
        ((∀ t, t ∈ [exact_sum atom; exact_sum photon; exact_sum spin] →
            deviates_less_than_5_percent
              t (exact_sum atom + exact_sum photon + exact_sum spin)) →
         b = true)
        ∧ ((∃ t, t ∈ [exact_sum atom; exact_sum photon; exact_sum spin]
                 ∧ deviates_more_than_5_percent
                     t (exact_sum atom + exact_sum photon + exact_sum spin)) →
           b = false)).
Proof.
  intros Ha Hp Hs Va Vp Vs.
  rewrite (check_equal_distribution_run tolerance s ca cp cs atom photon spin) by done.
  cbv zeta. unfold none_exceeds, all_within.
  set (ta := Int64.sum atom). set (tp := Int64.sum photon). set (ts := Int64.sum spin).
  set (avg := average ta tp ts).
  exists (negb (exceeds tolerance ta avg || exceeds tolerance tp avg
                || exceeds tolerance ts avg)).
  split; [by destruct (_ || _ || _)|].
  rewrite negb_true_iff, !orb_false_iff. split; [tauto|]. split; [|split].
  - intros Htol H0a H0p H0s Hsum.
    assert (is_number avg = true) as Havg.
    { apply average_is_number; [lia|].
      unfold Int64.in_range, Int64.min_int, Int64.max_int.
      change (2 ^ 53) with 9007199254740992 in Hsum. lia. }
    rewrite !(exceeds_negb_within tolerance _ avg Htol Havg) by lia.
    rewrite !negb_false_iff. tauto.
  - intros Z1 Z2 Z3. unfold avg. rewrite Z1, Z2, Z3.
    by rewrite zero_totals_within_any_tolerance.
  - intros -> H0a H0p H0s Hsum.
    assert (ta = exact_sum atom ∧ tp = exact_sum photon ∧ ts = exact_sum spin)
      as (Ea & Ep & Es).
    { unfold ta, tp, ts. repeat split; apply Int64_sum_exact;
        unfold Int64.in_range, Int64.min_int, Int64.max_int;
        change (2 ^ 48) with 281474976710656 in Hsum; lia. }
    unfold avg. rewrite Ea, Ep, Es.
    destruct (none_exceeds_0_05_exact (exact_sum atom) (exact_sum photon) (exact_sum spin)
                H0a H0p H0s Hsum) as [Hin Hout].
    split; intros H.
    + rewrite <- !orb_false_iff. by apply Hin.
    + by rewrite (Hout H).
Qed.

(** The totals of the specification. *)
(** The totals of the specification. *)
Example check_equal_distribution_1000_1000_1000 :
  check_equal_distribution F64.lit_0_05 (State (df_totals 1000 1000 1000) [])
  = (Ok true, State (df_totals 1000 1000 1000) [DistributionEqual]).
Proof. vm_compute. reflexivity. Qed.

Example check_equal_distribution_1200_900_900 :
  check_equal_distribution F64.lit_0_05 (State (df_totals 1200 900 900) [])
  = (Ok false,
     State (df_totals 1200 900 900)
           [DistributionUnequal;
            DistributionTotals 1200 900 900 (F64.of_int 1000)]).
Proof. vm_compute. reflexivity. Qed.

Example check_equal_distribution_zero_totals :
  fst (check_equal_distribution F64.lit_0_05 (State (df_totals 0 0 0) [])) = Ok true
  ∧ fst (check_equal_distribution S754_nan (State (df_totals 0 0 0) [])) = Ok true
  ∧ fst (check_equal_distribution F64.lit_0_05 (State (df_totals 1 0 0) [])) = Ok false.
Proof. vm_compute. repeat split. Qed.

(** Not at the boundary: for the totals 49, 45 and 46 the deviation of 49
    from 140/3 is 7/3, which is 5% of 140/3, and below 0.05 of it as the
    double 0.05 is above 1/20; every total is within the tolerance of the
    specification.  The computed average 46.666666666666664 gives the
    deviation 2.3333333333333357 above the threshold 2.3333333333333335,
    and the check returns false. *)
Lemma check_equal_distribution_fails_at_exactly_5_percent :
  within_tolerance_exact 1 20 49 45 46
  ∧ within_tolerance_exact 7205759403792794 (2 ^ 57) 49 45 46
  ∧ F64.lit_0_05 = S754_finite false 7205759403792794 (-57)
  ∧ check_equal_distribution F64.lit_0_05 (State (df_totals 49 45 46) [])
    = (Ok false,
       State (df_totals 49 45 46)
             [DistributionUnequal;
              DistributionTotals 49 45 46 (truediv 140 3)]).
Proof.
  split; [|split; [|split]].
  - intros t Ht.
    repeat (apply elem_of_cons in Ht as [->|Ht]); [lia ..|by apply elem_of_nil in Ht].
  - intros t Ht. change (2 ^ 57) with 144115188075855872.
    repeat (apply elem_of_cons in Ht as [->|Ht]); [lia ..|by apply elem_of_nil in Ht].
  - reflexivity.
  - vm_compute. reflexivity.
Qed.

(** At the boundary the rounding decides: the totals 21, 19 and 20, where
    21 deviates from 20 by 5% of it, pass. *)
Example check_equal_distribution_passes_at_exactly_5_percent :
  20 * Z.abs (3 * 21 - (21 + 19 + 20)) = 21 + 19 + 20
  ∧ fst (check_equal_distribution F64.lit_0_05 (State (df_totals 21 19 20) [])) = Ok true.
Proof. vm_compute. split; reflexivity. Qed.

Lemma check_equal_distribution_true_iff_within_tolerance_witness :
  ∃ b, fst (check_equal_distribution F64.lit_0_05
              (State (df_blocks [400; 620] [400; 590] [400; 610]) [])) = Ok b
     ∧ (b = true
        ↔ none_exceeds F64.lit_0_05 (Int64.sum [400; 620]) (Int64.sum [400; 590])
                       (Int64.sum [400; 610]))
     ∧ (is_number F64.lit_0_05 = true →
        0 <= Int64.sum [400; 620] → 0 <= Int64.sum [400; 590] →
        0 <= Int64.sum [400; 610] →
        Int64.sum [400; 620] + Int64.sum [400; 590] + Int64.sum [400; 610] < 2 ^ 53 →
        b = true
        ↔ all_within F64.lit_0_05 (Int64.sum [400; 620]) (Int64.sum [400; 590])
                     (Int64.sum [400; 610]))
     ∧ (Int64.sum [400; 620] = 0 → Int64.sum [400; 590] = 0 →
        Int64.sum [400; 610] = 0 → b = true)
     ∧ (F64.lit_0_05 = F64.lit_0_05 →
        0 <= exact_sum [400; 620] → 0 <= exact_sum [400; 590] →
        0 <= exact_sum [400; 610] →
        exact_sum [400; 620] + exact_sum [400; 590] + exact_sum [400; 610] < 2 ^ 48 →
        ((∀ t, t ∈ [exact_sum [400; 620]; exact_sum [400; 590]; exact_sum [400; 610]] →
            deviates_less_than_5_percent
              t (exact_sum [400; 620] + exact_sum [400; 590] + exact_sum [400; 610])) →
         b = true)
        ∧ ((∃ t, t ∈ [exact_sum [400; 620]; exact_sum [400; 590]; exact_sum [400; 610]]
                 ∧ deviates_more_than_5_percent
                     t (exact_sum [400; 620] + exact_sum [400; 590] + exact_sum [400; 610])) →
           b = false)).
Proof.
  apply (check_equal_distribution_true_iff_within_tolerance F64.lit_0_05
           (State (df_blocks [400; 620] [400; 590] [400; 610]) [])
           (IntCol [400; 620]) (IntCol [400; 590]) (IntCol [400; 610]));
    reflexivity.
Defined.

(** ** C6: the date range check *)

(** Where the [date] column parses and holds a date, the date range check
    returns true exactly when the days from the earliest to the latest
    date, [(max_date - min_date).days], are at least 170 and at most 190;
    outside this range it returns false.  The span is the difference of
    the two dates, as in the five spans of the specification below, not
    the number of calendar days from the first to the last, which is one
    more. *)
Theorem check_date_range_six_months_true_iff_170_to_190
    (parse_dates : column → option (list (option Z)))
    (s : state) (raw : column) (l : list (option Z)) (min_date max_date : Z) :
  frame s !! "date" = Some raw →
  to_datetime parse_dates raw = Ok (DateCol l) →
  ts_fold Z.min l = Some min_date →
  ts_fold Z.max l = Some max_date →
  (fst (check_date_range_six_months parse_dates s) = Ok true
   ↔ 170 <= span_days min_date max_date <= 190)
  ∧ (max_date - min_date <= Int64.max_int →
     fst (check_date_range_six_months parse_dates s) = Ok false
     ↔ span_days min_date max_date < 170 ∨ 190 < span_days min_date max_date).
Proof.
  intros Hraw Hparse Hmin Hmax.
  rewrite (check_date_range_six_months_run parse_dates s raw l Hraw Hparse).
  rewrite Hmin, Hmax. unfold timedelta_days. fold (span_days min_date max_date).
  assert (((Int64.max_int <? max_date - min_date) = true)
          → 190 < span_days min_date max_date) as Hbig.
  { intros H%Z.ltb_lt. unfold span_days.
    apply (Z.lt_le_trans _ 191); [done|]. apply Z.div_le_lower_bound; [done|].
    unfold Int64.max_int, nanos_per_day in *. lia. }
  destruct (Int64.max_int <? max_date - min_date) eqn:Hover.
  - specialize (Hbig eq_refl). apply Z.ltb_lt in Hover. simpl. split.
    + split; [done | lia].
    + intros Hfit. lia.
  - clear Hbig. unfold days_lt, days_gt.
    destruct (span_days min_date max_date <? 170) eqn:Hlo;
      destruct (190 <? span_days min_date max_date) eqn:Hhi; simpl;
      rewrite ?Z.ltb_lt, ?Z.ltb_ge in Hlo, Hhi;
      (split; [split | intros _; split]); intros; first [done | lia].
Qed.

(** Dates that start on 2024-01-01 and end 169, 170, 180, 190 and 191 days
    later. *)
Example check_date_range_six_months_169_days :
  fst (check_date_range_six_months IsoDate.parse_dates
         (State (df_dates "2024-01-01" "2024-06-18") [])) = Ok false.
Proof. vm_compute. reflexivity. Qed.

Example check_date_range_six_months_170_days :
  fst (check_date_range_six_months IsoDate.parse_dates
         (State (df_dates "2024-01-01" "2024-06-19") [])) = Ok true.
Proof. vm_compute. reflexivity. Qed.

Example check_date_range_six_months_180_days :
  check_date_range_six_months IsoDate.parse_dates
    (State (df_dates "2024-01-01" "2024-06-29") [])
  = (Ok true,
     State (<["date" := DateCol [Some (IsoDate.days_from_civil 2024 6 29 * nanos_per_day);
                                 Some (IsoDate.days_from_civil 2024 1 1 * nanos_per_day)]]>
              (df_dates "2024-01-01" "2024-06-29"))
           [DateRangeOk (Some 180)]).
Proof. vm_compute. reflexivity. Qed.

Example check_date_range_six_months_190_days :
  fst (check_date_range_six_months IsoDate.parse_dates
         (State (df_dates "2024-01-01" "2024-07-09") [])) = Ok true.
Proof. vm_compute. reflexivity. Qed.

Example check_date_range_six_months_191_days :
  fst (check_date_range_six_months IsoDate.parse_dates
         (State (df_dates "2024-01-01" "2024-07-10") [])) = Ok false.
Proof. vm_compute. reflexivity. Qed.

Lemma check_date_range_six_months_true_iff_170_to_190_witness :
  (fst (check_date_range_six_months IsoDate.parse_dates
          (State (df_dates "2024-01-01" "2024-06-29") [])) = Ok true
   ↔ 170 <= span_days (IsoDate.days_from_civil 2024 1 1 * nanos_per_day)
                      (IsoDate.days_from_civil 2024 6 29 * nanos_per_day) <= 190)
  ∧ (IsoDate.days_from_civil 2024 6 29 * nanos_per_day
       - IsoDate.days_from_civil 2024 1 1 * nanos_per_day <= Int64.max_int →
     fst (check_date_range_six_months IsoDate.parse_dates
            (State (df_dates "2024-01-01" "2024-06-29") [])) = Ok false
     ↔ span_days (IsoDate.days_from_civil 2024 1 1 * nanos_per_day)
                 (IsoDate.days_from_civil 2024 6 29 * nanos_per_day) < 170
       ∨ 190 < span_days (IsoDate.days_from_civil 2024 1 1 * nanos_per_day)
                         (IsoDate.days_from_civil 2024 6 29 * nanos_per_day)).
Proof.
  apply (check_date_range_six_months_true_iff_170_to_190 IsoDate.parse_dates
           (State (df_dates "2024-01-01" "2024-06-29") [])
           (StrCol [Some "2024-06-29"; Some "2024-01-01"])
           [Some (IsoDate.days_from_civil 2024 6 29 * nanos_per_day);
            Some (IsoDate.days_from_civil 2024 1 1 * nanos_per_day)]);
    reflexivity.
Defined.

(** C6 (fails on the code): a [date] column that parses need not hold a
    date.  On the frame of a file with a header line and no record, and on
    a frame whose dates are all missing, the earliest and the latest date
    are [NaT] and the day count is [nan]; both comparisons with [nan] are
    false, and the check prints that the range is approximately 6 months
    and returns true, though no span of 170 to 190 days is there. *)
Theorem check_date_range_six_months_true_on_frame_without_dates :
  col_min (DateCol []) = Ok None
  ∧ col_max (DateCol []) = Ok None
  ∧ timedelta_days None None = Ok None
  ∧ check_date_range_six_months IsoDate.parse_dates (State df_header_only [])
    = (Ok true,
       State (<["date" := DateCol []]> df_header_only) [DateRangeOk None])
  ∧ check_date_range_six_months IsoDate.parse_dates
      (State (df_date_cells [None; None]) [])
    = (Ok true,
       State (<["date" := DateCol [None; None]]> (df_date_cells [None; None]))
             [DateRangeOk None]).
Proof. vm_compute. repeat split; reflexivity. Qed.

(** ** C7: the blocks volume check *)

(** C7: the blocks volume check stores the column [total_blocks_leased],
    one cell per record holding
    [new_blocks_atom + new_blocks_photon + new_blocks_spin] (the [int64]
    sum, which is the sum of the integers whenever that fits 64 bits), and
    returns true exactly when every stored total is at least 1000 and at
    most 10000. *)
Theorem check_blocks_leased_range_stores_totals_and_checks_range
    (s : state) (nrows : nat) (ca cp cs : column) (atom photon spin : list Z) :
  df_wf nrows (frame s) →
  frame s !! "new_blocks_atom" = Some ca →
  frame s !! "new_blocks_photon" = Some cp →
  frame s !! "new_blocks_spin" = Some cs →
  values_of ca = Ok atom → values_of cp = Ok photon → values_of cs = Ok spin →
  ∃ b totals,
    fst (check_blocks_leased_range s) = Ok b
    ∧ frame (snd (check_blocks_leased_range s))
      = <["total_blocks_leased" := IntCol totals]> (frame s)
    ∧ length totals = nrows
    ∧ (∀ i a p sp, atom !! i = Some a → photon !! i = Some p → spin !! i = Some sp →
         totals !! i = Some (Int64.add (Int64.add a p) sp)
         ∧ (Int64.in_range (a + p) → Int64.in_range (a + p + sp) →
            totals !! i = Some (a + p + sp)))
    ∧ (b = true ↔ ∀ i t, totals !! i = Some t → 1000 <= t <= 10000).
Proof.
  intros Hwf Ha Hp Hs Va Vp Vs.
  pose proof (df_wf_length _ _ _ _ _ Hwf Ha Va) as La.
  pose proof (df_wf_length _ _ _ _ _ Hwf Hp Vp) as Lp.
  pose proof (df_wf_length _ _ _ _ _ Hwf Hs Vs) as Ls.
  rewrite (check_blocks_leased_range_run s ca cp cs atom photon spin) by done.
  set (totals := total_blocks atom photon spin).
  assert (all (map (between_int 1000 10000) totals) = true
          ↔ ∀ i t, totals !! i = Some t → 1000 <= t <= 10000) as Hall.
  { rewrite all_map_lookup. unfold between_int.
    split; intros H i t Hi; specialize (H i t Hi); lia. }
  exists (all (map (between_int 1000 10000) totals)), totals.
  split; [by destruct (all _)|]. split; [by destruct (all _)|].
  split; [unfold totals, total_blocks; rewrite !length_zip_with; lia|].
  split; [|exact Hall].
  intros i a p sp Hia Hip His.
  pose proof (total_blocks_lookup atom photon spin i a p sp Hia Hip His) as Hi.
  split; [exact Hi|]. intros R1 R2. unfold totals.
  by rewrite Hi, (Int64_add_exact a p R1), (Int64_add_exact (a + p) sp R2).
Qed.

(** The totals of the specification, and the two bounds. *)
Example check_blocks_leased_range_1100 :
  check_blocks_leased_range (State (df_blocks [400] [400] [300]) [])
  = (Ok true,
     State (<["total_blocks_leased" := IntCol [1100]]> (df_blocks [400] [400] [300]))
           [BlocksInRange]).
Proof. vm_compute. reflexivity. Qed.

Example check_blocks_leased_range_999 :
  fst (check_blocks_leased_range
         (State (df_blocks [400; 333] [400; 333] [300; 333]) [])) = Ok false.
Proof. vm_compute. reflexivity. Qed.

Example check_blocks_leased_range_10001 :
  fst (check_blocks_leased_range
         (State (df_blocks [5000; 400] [5000; 400] [1; 300]) [])) = Ok false.
Proof. vm_compute. reflexivity. Qed.

Example check_blocks_leased_range_bounds :
  fst (check_blocks_leased_range
         (State (df_blocks [1000; 10000] [0; 0] [0; 0]) [])) = Ok true.
Proof. vm_compute. reflexivity. Qed.

Lemma check_blocks_leased_range_stores_totals_and_checks_range_witness :
  ∃ b totals,
    fst (check_blocks_leased_range (State (df_blocks [400; 600] [400; 10] [300; 2]) []))
    = Ok b
    ∧ frame (snd (check_blocks_leased_range
                    (State (df_blocks [400; 600] [400; 10] [300; 2]) [])))
      = <["total_blocks_leased" := IntCol totals]> (df_blocks [400; 600] [400; 10] [300; 2])
    ∧ length totals = 2%nat
    ∧ (∀ i a p sp, [400; 600] !! i = Some a → [400; 10] !! i = Some p →
         [300; 2] !! i = Some sp →
         totals !! i = Some (Int64.add (Int64.add a p) sp)
         ∧ (Int64.in_range (a + p) → Int64.in_range (a + p + sp) →
            totals !! i = Some (a + p + sp)))
    ∧ (b = true ↔ ∀ i t, totals !! i = Some t → 1000 <= t <= 10000).
Proof.
  apply (check_blocks_leased_range_stores_totals_and_checks_range
           (State (df_blocks [400; 600] [400; 10] [300; 2]) []) 2%nat
           (IntCol [400; 600]) (IntCol [400; 10]) (IntCol [300; 2]));
    [apply (bool_decide_unpack _); vm_compute; exact I | reflexivity ..].
Defined.

(** ** C8: which checks assign to the frame *)

(** C8: the schema, workload volume, distribution and workload assignment
    checks leave the frame as it was, whatever they return or raise; the
    date range check touches no column but [date], which it replaces by
    the parsed dates, and the blocks volume check touches no column but
    [total_blocks_leased], which it sets to the per-record totals. *)
Theorem only_date_and_blocks_checks_assign
    (parse_dates : column → option (list (option Z)))
    (tolerance : spec_float) (s : state) :
  frame (snd (check_required_columns s)) = frame s
  ∧ frame (snd (check_workload_range s)) = frame s
  ∧ frame (snd (check_equal_distribution tolerance s)) = frame s
  ∧ frame (snd (check_workload_assignment s)) = frame s
  ∧ delete "date" (frame (snd (check_date_range_six_months parse_dates s)))
    = delete "date" (frame s)
  ∧ (∀ raw l, frame s !! "date" = Some raw →
       to_datetime parse_dates raw = Ok (DateCol l) →
       frame (snd (check_date_range_six_months parse_dates s))
       = <["date" := DateCol l]> (frame s))
  ∧ delete "total_blocks_leased" (frame (snd (check_blocks_leased_range s)))
    = delete "total_blocks_leased" (frame s)
  ∧ (∀ ca cp cs atom photon spin,
       frame s !! "new_blocks_atom" = Some ca →
       frame s !! "new_blocks_photon" = Some cp →
       frame s !! "new_blocks_spin" = Some cs →
       values_of ca = Ok atom → values_of cp = Ok photon → values_of cs = Ok spin →
       frame (snd (check_blocks_leased_range s))
       = <["total_blocks_leased" := IntCol (total_blocks atom photon spin)]> (frame s)).
Proof.
  split; [apply check_required_columns_same_frame|].
  split; [apply check_workload_range_same_frame|].
  split; [apply check_equal_distribution_same_frame|].
  split; [apply check_workload_assignment_same_frame|].
  split; [apply check_date_range_six_months_same_but|].
  split.
  { intros raw l Hraw Hparse.
    rewrite (check_date_range_six_months_run parse_dates s raw l Hraw Hparse).
    destruct (timedelta_days _ _) as [num_days|e]; [|reflexivity].
    by destruct (_ || _). }
  split; [apply check_blocks_leased_range_same_but|].
  intros ca cp cs atom photon spin Ha Hp Hs Va Vp Vs.
  rewrite (check_blocks_leased_range_run s ca cp cs atom photon spin) by done.
  by destruct (negb _).
Qed.

(** Both assignments do change a frame: the records of
    [check_blocks_leased_range_1100] gain a column, and text dates become
    timestamps. *)
Example check_blocks_leased_range_changes_frame :
  frame (snd (check_blocks_leased_range (State (df_blocks [400] [400] [300]) [])))
  ≠ df_blocks [400] [400] [300].
Proof.
  intros H.
  apply (f_equal (λ df : DataFrame, df !! "total_blocks_leased")) in H.
  vm_compute in H. discriminate H.
Qed.

Example check_date_range_six_months_changes_frame :
  frame (snd (check_date_range_six_months IsoDate.parse_dates
                (State (df_dates "2024-01-01" "2024-06-29") [])))
  ≠ df_dates "2024-01-01" "2024-06-29".
Proof.
  intros H.
  apply (f_equal (λ df : DataFrame, df !! "date")) in H.
  vm_compute in H. discriminate H.
Qed.

(** ** C9: running a check twice *)

(** C9: a check that has returned a result returns the same result when
    it is run again on the state it left, for each of the six checks; the
    date range check then finds timestamps where it left them, and the
    blocks volume check overwrites its column with the same totals. *)
Theorem checks_return_the_same_when_run_again
    (parse_dates : column → option (list (option Z)))
    (tolerance : spec_float) (s : state) :
  (∀ b s', check_required_columns s = (Ok b, s') →
           fst (check_required_columns s') = Ok b)
  ∧ (∀ b s', check_date_range_six_months parse_dates s = (Ok b, s') →
             fst (check_date_range_six_months parse_dates s') = Ok b)
  ∧ (∀ b s', check_blocks_leased_range s = (Ok b, s') →
             fst (check_blocks_leased_range s') = Ok b)
  ∧ (∀ b s', check_workload_range s = (Ok b, s') →
             fst (check_workload_range s') = Ok b)
  ∧ (∀ b s', check_equal_distribution tolerance s = (Ok b, s') →
             fst (check_equal_distribution tolerance s') = Ok b)
  ∧ (∀ b s', check_workload_assignment s = (Ok b, s') →
             fst (check_workload_assignment s') = Ok b).
Proof.
  repeat split; intros b s'.
  - apply rerun_same_frame;
      [apply check_required_columns_frame_determined | apply check_required_columns_same_frame].
  - apply check_date_range_six_months_rerun.
  - apply check_blocks_leased_range_rerun.
  - apply rerun_same_frame;
      [apply check_workload_range_frame_determined | apply check_workload_range_same_frame].
  - apply rerun_same_frame;
      [apply check_equal_distribution_frame_determined
      | apply check_equal_distribution_same_frame].
  - apply rerun_same_frame;
      [apply check_workload_assignment_frame_determined
      | apply check_workload_assignment_same_frame].
Qed.

(** Two runs of the mutating checks on concrete frames. *)
Example check_date_range_six_months_twice :
  let s1 := snd (check_date_range_six_months IsoDate.parse_dates
                   (State (df_dates "2024-01-01" "2024-06-29") [])) in
  fst (check_date_range_six_months IsoDate.parse_dates s1) = Ok true
  ∧ output (snd (check_date_range_six_months IsoDate.parse_dates s1))
    = [DateRangeOk (Some 180); DateRangeOk (Some 180)].
Proof. vm_compute. split; reflexivity. Qed.

Example check_blocks_leased_range_twice :
  let s1 := snd (check_blocks_leased_range (State (df_blocks [400] [400] [300]) [])) in
  check_blocks_leased_range s1 = (Ok true, State (frame s1) [BlocksInRange; BlocksInRange]).
Proof. vm_compute. reflexivity. Qed.

(** ** C10: a frame without records *)

(** C10: on a frame whose columns have no records, the blocks volume,
    workload volume and workload assignment checks return true, no record
    being there to violate them, and the distribution check returns true
    on the three totals 0. *)
Theorem checks_pass_on_frame_without_records (s : state) :
  columns_without_records
    ["new_blocks_atom"; "new_blocks_photon"; "new_blocks_spin";
     "total_workloads"; "workloads_new_blocks"; "workloads_older_blocks"]
    (frame s) = true →
  fst (check_blocks_leased_range s) = Ok true
  ∧ fst (check_workload_range s) = Ok true
  ∧ fst (check_workload_assignment s) = Ok true
  ∧ fst (check_equal_distribution F64.lit_0_05 s) = Ok true
  ∧ (∀ name c, name ∈ ["new_blocks_atom"; "new_blocks_photon"; "new_blocks_spin"] →
       frame s !! name = Some c → col_sum c = Ok 0).
Proof.
  intros H.
  pose proof (columns_without_records_lookup _ _ "new_blocks_atom" H) as (ca & Ha & Va);
    [repeat first [apply list_elem_of_here | apply list_elem_of_further]|].
  pose proof (columns_without_records_lookup _ _ "new_blocks_photon" H) as (cp & Hp & Vp);
    [repeat first [apply list_elem_of_here | apply list_elem_of_further]|].
  pose proof (columns_without_records_lookup _ _ "new_blocks_spin" H) as (cs & Hs & Vs);
    [repeat first [apply list_elem_of_here | apply list_elem_of_further]|].
  pose proof (columns_without_records_lookup _ _ "total_workloads" H) as (ct & Ht & Vt);
    [repeat first [apply list_elem_of_here | apply list_elem_of_further]|].
  pose proof (columns_without_records_lookup _ _ "workloads_new_blocks" H) as (cn & Hn & Vn);
    [repeat first [apply list_elem_of_here | apply list_elem_of_further]|].
  pose proof (columns_without_records_lookup _ _ "workloads_older_blocks" H) as (co & Ho & Vo);
    [repeat first [apply list_elem_of_here | apply list_elem_of_further]|].
  repeat split.
  - by rewrite (check_blocks_leased_range_run s ca cp cs [] [] []).
  - unfold check_workload_range. run_get Ht.
    by run_pure (col_between_int_values _ _ _ _ Vt).
  - by rewrite (check_workload_assignment_run s ct cn co [] [] []).
  - by rewrite (check_equal_distribution_run F64.lit_0_05 s ca cp cs [] [] []).
  - intros name c Hin Hc.
    repeat (apply elem_of_cons in Hin as [-> | Hin]);
      [| | | by apply elem_of_nil in Hin]; simplify_eq;
      by apply (col_sum_values _ []).
Qed.

Lemma checks_pass_on_frame_without_records_witness :
  fst (check_blocks_leased_range (State df_header_only [])) = Ok true
  ∧ fst (check_workload_range (State df_header_only [])) = Ok true
  ∧ fst (check_workload_assignment (State df_header_only [])) = Ok true
  ∧ fst (check_equal_distribution F64.lit_0_05 (State df_header_only [])) = Ok true
  ∧ (∀ name c, name ∈ ["new_blocks_atom"; "new_blocks_photon"; "new_blocks_spin"] →
       df_header_only !! name = Some c → col_sum c = Ok 0).
Proof.
  apply (checks_pass_on_frame_without_records (State df_header_only [])).
  reflexivity.
Defined.

(** On that frame every check of the orchestrator passes, the date range
    check because the day count of no dates is NaN. *)
Example run_all_checks_header_only :
  run_all_checks IsoDate.parse_dates (State df_header_only [])
  = (Ok true,
     State (<["total_blocks_leased" := IntCol []]>
              (<["date" := DateCol []]> df_header_only))
           [CheckingColumns; AllRequiredPresent;
            CheckingDates; DateRangeOk None;
            CheckingBlocks; BlocksInRange;
            CheckingWorkloads; WorkloadsInRange;
            CheckingDistribution; DistributionEqual;
            AllPassed]).
Proof. vm_compute. reflexivity. Qed.

(** * Further properties of the checks

    What the code does beyond the claims of the specification: how each
    check fails, which columns it depends on, what the order of records
    and of categories changes, and how the orchestrator puts the checks
    together. *)

(** ** Running statements backwards *)

Lemma bind_returns {A B} (m : M A) (k : A → M B) s b s' :
  bind m k s = (Ok b, s') → ∃ a s1, m s = (Ok a, s1) ∧ k a s1 = (Ok b, s').
Proof. unfold bind. destruct (m s) as [[a|e] s1]; [eauto | discriminate]. Qed.

Lemma bind_raises {A B} (m : M A) (k : A → M B) s e s' :
  bind m k s = (Raise e, s') →
  m s = (Raise e, s') ∨ ∃ a s1, m s = (Ok a, s1) ∧ k a s1 = (Raise e, s').
Proof. unfold bind. destruct (m s) as [[a|e1] s1]; [eauto | intros; simplify_eq; eauto]. Qed.

Lemma say_inj m1 m2 s : say m1 s = say m2 s → m1 = m2.
Proof.
  unfold say. intros H. injection H as H. by apply app_inj_tail in H as [_ ?].
Qed.

Lemma returns_say_inj {A} (r1 r2 : result A) m1 m2 s :
  (r1, say m1 s) = (r2, say m2 s) → m1 = m2.
Proof. intros H. apply (f_equal snd) in H. exact (say_inj _ _ _ H). Qed.

Lemma same_but_lookup name k s s' :
  same_but k s s' → name ≠ k → frame s' !! name = frame s !! name.
Proof.
  unfold same_but. intros H Hne.
  by rewrite <- (lookup_delete_ne (frame s') k name), H, lookup_delete_ne.
Qed.

(** ** The state a raising statement leaves *)

Lemma raising_respects_bind (R : state → state → Prop) {A B} (m : M A) (k : A → M B) :
  (∀ s1 s2 s3, R s1 s2 → R s2 s3 → R s1 s3) →
  respects R m → (∀ a, raising_respects R (k a)) → raising_respects R (bind m k).
Proof.
  intros Htrans Hm Hk s e s' H. specialize (Hm s).
  apply bind_raises in H as [H | (a & s1 & H1 & H2)].
  - by rewrite H in Hm.
  - rewrite H1 in Hm. eapply Htrans; [exact Hm | eapply Hk, H2].
Qed.

(** The last statement of a check, a [print] and a [return] on either
    side, raises nothing. *)
Lemma raising_respects_prints (R : state → state → Prop) {A} (c : bool) (m1 m2 : msg)
    (k1 k2 : M A) :
  (∀ s e s', k1 s ≠ (Raise e, s')) → (∀ s e s', k2 s ≠ (Raise e, s')) →
  raising_respects R (if c then (print m1;;; k1) else (print m2;;; k2)).
Proof.
  intros H1 H2 s e s' H. destruct c;
    rewrite (run_bind_ok _ _ _ _ _ (run_print _ _)) in H; [by apply H1 in H | by apply H2 in H].
Qed.

Lemma untouched_refl s : untouched s s.
Proof. reflexivity. Qed.

Lemma untouched_trans s1 s2 s3 : untouched s1 s2 → untouched s2 s3 → untouched s1 s3.
Proof. unfold untouched. congruence. Qed.

Ltac raising_untouched_tac :=
  repeat lazymatch goal with
         | |- raising_respects _ (bind _ _) =>
             apply raising_respects_bind; [apply untouched_trans | | intros ?]
         | |- raising_respects _ (if _ then _ else _) =>
             apply raising_respects_prints; intros ? ? ?; discriminate
         | |- respects _ _ => respects_steps untouched_refl untouched_trans
         end.

(** ** The columns a statement reads *)

Lemma reads_only_ret names {A} (a : A) : reads_only names names (ret a).
Proof. by intros s1 s2 H. Qed.

Lemma reads_only_lift names {A} (r : result A) : reads_only names names (lift r).
Proof. by intros s1 s2 H. Qed.

Lemma reads_only_print names m : reads_only names names (print m).
Proof. by intros s1 s2 H. Qed.

Lemma reads_only_getitem names name :
  name ∈ names → reads_only names names (getitem name).
Proof.
  intros Hin s1 s2 H. unfold getitem. rewrite (H name Hin).
  by destruct (frame s2 !! name).
Qed.

Lemma reads_only_setitem names name c :
  reads_only names (name :: names) (setitem name c).
Proof.
  intros s1 s2 H. split; [done|]. intros _ _ n Hn. simpl.
  destruct (decide (n = name)) as [->|Hne].
  - by rewrite !lookup_insert_eq.
  - rewrite !lookup_insert_ne by done. apply H.
    by apply elem_of_cons in Hn as [?|?].
Qed.

Lemma reads_only_missing_columns names cols :
  (∀ name, name ∈ cols → name ∈ names) →
  reads_only names names (missing_columns cols).
Proof.
  intros Hsub s1 s2 H. unfold missing_columns. simpl. split; [|done]. f_equal.
  apply filter_ext_in. intros name Hin%list_elem_of_In. by rewrite (H name (Hsub name Hin)).
Qed.

Lemma reads_only_bind pre mid post {A B} (m : M A) (k : A → M B) :
  reads_only pre mid m → (∀ a, reads_only mid post (k a)) → reads_only pre post (bind m k).
Proof.
  intros Hm Hk s1 s2 H. unfold bind. destruct (Hm s1 s2 H) as [Hr Hf].
  destruct (m s1) as [[a1|e1] t1], (m s2) as [[a2|e2] t2]; simpl in *; simplify_eq.
  - apply Hk. by eapply Hf.
  - done.
Qed.

Lemma reads_only_if pre post {A} (c : bool) (m1 m2 : M A) :
  reads_only pre post m1 → reads_only pre post m2 →
  reads_only pre post (if c then m1 else m2).
Proof. by destruct c. Qed.

Lemma reads_only_result pre post {A} (m : M A) s1 s2 :
  reads_only pre post m → agree_on pre s1 s2 → fst (m s1) = fst (m s2).
Proof. intros Hm H. by apply Hm. Qed.

Lemma same_but_agree_on name names s s' :
  same_but name s s' → name ∉ names → agree_on names s' s.
Proof.
  intros H Hnot n Hn. apply (same_but_lookup n name s s' H).
  intros ->. by apply Hnot.
Qed.

Ltac elem_of_names :=
  repeat first [ apply list_elem_of_here | apply list_elem_of_further ].

Ltac reads_only_tac :=
  repeat first
    [ apply reads_only_ret
    | apply reads_only_lift
    | apply reads_only_print
    | apply reads_only_setitem
    | apply reads_only_getitem; elem_of_names
    | apply reads_only_missing_columns; intros ? ?; assumption
    | apply reads_only_if
    | eapply reads_only_bind; [| intros ?] ].

Lemma check_required_columns_reads_only :
  ∃ post, reads_only expected_columns post check_required_columns.
Proof. eexists. unfold check_required_columns. reads_only_tac. Qed.

Lemma check_date_range_six_months_reads_only parse_dates :
  ∃ post, reads_only ["date"] post (check_date_range_six_months parse_dates).
Proof. eexists. unfold check_date_range_six_months. reads_only_tac. Qed.

Lemma check_blocks_leased_range_reads_only :
  ∃ post, reads_only ["new_blocks_atom"; "new_blocks_photon"; "new_blocks_spin"] post
            check_blocks_leased_range.
Proof. eexists. unfold check_blocks_leased_range. reads_only_tac. Qed.

Lemma check_workload_range_reads_only :
  ∃ post, reads_only ["total_workloads"] post check_workload_range.
Proof. eexists. unfold check_workload_range. reads_only_tac. Qed.

Lemma check_equal_distribution_reads_only tolerance :
  ∃ post, reads_only ["new_blocks_atom"; "new_blocks_photon"; "new_blocks_spin"] post
            (check_equal_distribution tolerance).
Proof. eexists. unfold check_equal_distribution. reads_only_tac. Qed.

Lemma check_workload_assignment_reads_only :
  ∃ post, reads_only required_cols post check_workload_assignment.
Proof. eexists. unfold check_workload_assignment, required_cols. reads_only_tac. Qed.

(** ** Boolean series, once more *)

Lemma all_false_lookup (l : list bool) : all l = false ↔ ∃ i, l !! i = Some false.
Proof.
  split.
  - induction l as [|[] l IH]; intros H; [done| |by exists 0%nat].
    destruct (IH H) as [i Hi]. by exists (S i).
  - intros [i Hi]. apply not_true_is_false. rewrite all_lookup. intros H.
    by specialize (H i false Hi).
Qed.

Lemma all_between_int lo hi l :
  all (map (between_int lo hi) l) = true ↔ ∀ i x, l !! i = Some x → lo <= x <= hi.
Proof.
  rewrite all_map_lookup. unfold between_int.
  split; intros H i x Hi; specialize (H i x Hi); lia.
Qed.

(** ** The schema check *)

Lemma filter_sublist {A} (f : A → bool) (l : list A) : List.filter f l `sublist_of` l.
Proof.
  induction l as [|x l IH]; simpl; [constructor|].
  destruct (f x); by constructor.
Qed.

Lemma missing_columns_spec cols s name :
  name ∈ List.filter (λ col, bool_decide (frame s !! col = None)) cols
  ↔ name ∈ cols ∧ frame s !! name = None.
Proof.
  rewrite !list_elem_of_In, filter_In. by rewrite bool_decide_eq_true.
Qed.

Lemma missing_columns_nil cols s :
  List.filter (λ col, bool_decide (frame s !! col = None)) cols = []
  ↔ ∀ name, name ∈ cols → is_Some (frame s !! name).
Proof.
  split.
  - intros H name Hin. destruct (frame s !! name) as [c|] eqn:E; [eauto|].
    assert (name ∈ @nil string) as Hn by (rewrite <- H; by apply missing_columns_spec).
    by apply elem_of_nil in Hn.
  - intros H. destruct (List.filter _ cols) as [|x l] eqn:E; [done|].
    assert (x ∈ cols ∧ frame s !! x = None) as [Hin Hx].
    { apply missing_columns_spec. rewrite E. apply list_elem_of_here. }
    destruct (H x Hin) as [c Hc]. congruence.
Qed.

Lemma is_nonempty_nil {A} (l : list A) : negb (is_nonempty l) = true ↔ l = [].
Proof. by destruct l. Qed.

Lemma check_required_columns_result s :
  check_required_columns s
  = (Ok (negb (is_nonempty
                 (List.filter (λ col, bool_decide (frame s !! col = None)) expected_columns))),
     say (if is_nonempty
               (List.filter (λ col, bool_decide (frame s !! col = None)) expected_columns)
          then MissingRequired
                 (List.filter (λ col, bool_decide (frame s !! col = None)) expected_columns)
          else AllRequiredPresent) s).
Proof.
  unfold check_required_columns, bind, missing_columns.
  by destruct (List.filter _ expected_columns).
Qed.

(** X1: the schema check never raises and leaves the frame alone; it
    returns true exactly when each of the seven expected columns is in
    the frame, and otherwise the one line it prints lists the expected
    columns that are absent, all of them and no other, in the order of
    the expected list. *)
Theorem check_required_columns_names_exactly_the_missing (s : state) :
  ∃ missing,
    check_required_columns s
    = (Ok (bool_decide (missing = [])),
       say (if bool_decide (missing = []) then AllRequiredPresent
            else MissingRequired missing) s)
    ∧ (∀ name, name ∈ missing ↔ name ∈ expected_columns ∧ frame s !! name = None)
    ∧ missing `sublist_of` expected_columns
    ∧ (missing = [] ↔ ∀ name, name ∈ expected_columns → is_Some (frame s !! name)).
Proof.
  exists (List.filter (λ col, bool_decide (frame s !! col = None)) expected_columns).
  split; [|split; [|split]].
  - rewrite check_required_columns_result.
    by destruct (List.filter _ expected_columns).
  - intros name. apply missing_columns_spec.
  - apply filter_sublist.
  - apply missing_columns_nil.
Qed.

(** A frame that lacks two of the columns. *)
Example check_required_columns_two_missing :
  check_required_columns
    (State (delete "new_blocks_spin" (delete "date" df_required_only)) [])
  = (Ok false,
     State (delete "new_blocks_spin" (delete "date" df_required_only))
           [MissingRequired ["date"; "new_blocks_spin"]]).
Proof. vm_compute. reflexivity. Qed.

(** ** The date range check *)

Lemma ts_fold_perm (f : Z → Z → Z) l1 l2 :
  (∀ a b, f a b = f b a) → (∀ a b c, f a (f b c) = f (f a b) c) →
  l1 ≡ₚ l2 → ts_fold f l1 = ts_fold f l2.
Proof.
  intros Hcomm Hassoc. unfold ts_fold.
  induction 1 as [|x l l' _ IH|x y l|l l' l'' _ IH1 _ IH2]; simpl.
  - done.
  - by rewrite IH.
  - destruct x as [a|], y as [b|], (foldr _ None l) as [c|]; try done; f_equal.
    + by rewrite !Hassoc, (Hcomm b a).
    + apply Hcomm.
  - by rewrite IH1.
Qed.

Lemma ts_fold_no_dates (f : Z → Z → Z) l :
  Forall (λ d, d = None) l → ts_fold f l = None.
Proof. unfold ts_fold. induction 1 as [|x l -> _ IH]; simpl; done. Qed.

Lemma to_datetime_raises parse_dates c e :
  to_datetime parse_dates c = Raise e → e = ParseError.
Proof.
  unfold to_datetime. destruct c; try destruct (parse_dates _); intros H; by simplify_eq.
Qed.

Lemma timedelta_days_raises a b e :
  timedelta_days a b = Raise e → e = OutOfBoundsTimedelta.
Proof.
  unfold timedelta_days. destruct a, b; try destruct (_ <? _); intros H; by simplify_eq.
Qed.

Lemma check_date_range_six_months_result parse_dates s raw l num_days :
  frame s !! "date" = Some raw →
  to_datetime parse_dates raw = Ok (DateCol l) →
  timedelta_days (ts_fold Z.min l) (ts_fold Z.max l) = Ok num_days →
  check_date_range_six_months parse_dates s
  = (Ok (negb (days_lt num_days 170 || days_gt num_days 190)),
     say (if days_lt num_days 170 || days_gt num_days 190
          then DateRangeBad num_days else DateRangeOk num_days) (with_dates l s)).
Proof.
  intros Hraw Hparse Hd.
  rewrite (check_date_range_six_months_run parse_dates s raw l Hraw Hparse), Hd.
  by destruct (_ || _).
Qed.

(** The day count the check compares is the span of the dates. *)
Lemma date_span_ok_days l num_days :
  timedelta_days (ts_fold Z.min l) (ts_fold Z.max l) = Ok num_days →
  negb (days_lt num_days 170 || days_gt num_days 190) = true ↔ date_span_ok l.
Proof.
  unfold timedelta_days, date_span_ok, span_days.
  destruct (ts_fold Z.min l) as [a|], (ts_fold Z.max l) as [b|];
    try (intros [= <-]; simpl; tauto).
  destruct (Int64.max_int <? b - a); [done|]. intros [= <-].
  unfold days_lt, days_gt. rewrite negb_true_iff, orb_false_iff, !Z.ltb_ge. lia.
Qed.

(** A difference that fits no [Timedelta] is longer than 190 days. *)
Lemma date_span_out_of_bounds l e :
  timedelta_days (ts_fold Z.min l) (ts_fold Z.max l) = Raise e → ¬ date_span_ok l.
Proof.
  unfold timedelta_days, date_span_ok, span_days.
  destruct (ts_fold Z.min l) as [a|], (ts_fold Z.max l) as [b|]; try done.
  destruct (Z.ltb_spec Int64.max_int (b - a)) as [H|H]; [|done]. intros _ [_ Hhi].
  assert (191 <= (b - a) / nanos_per_day); [|lia].
  apply Z.div_le_lower_bound; [done|].
  unfold Int64.max_int, nanos_per_day in *.
  change (2 ^ 63) with 9223372036854775808 in H. lia.
Qed.

(** X2: how the date range check raises.  Without a [date] column it
    raises [KeyError] and a date that cannot be parsed raises the parse
    error, in both cases before anything is assigned or printed: the state
    is left as it was.  Once the column has parsed, the one exception left
    is the difference of the two dates not fitting a [Timedelta], and then
    the [date] column has already been replaced by the parsed one. *)
Theorem check_date_range_six_months_raises
    (parse_dates : column → option (list (option Z))) (s : state) :
  (frame s !! "date" = None →
   check_date_range_six_months parse_dates s = (Raise (KeyError "date"), s))
  ∧ (∀ raw e, frame s !! "date" = Some raw → to_datetime parse_dates raw = Raise e →
       e = ParseError
       ∧ check_date_range_six_months parse_dates s = (Raise ParseError, s))
  ∧ (∀ raw l e, frame s !! "date" = Some raw →
       to_datetime parse_dates raw = Ok (DateCol l) →
       fst (check_date_range_six_months parse_dates s) = Raise e →
       e = OutOfBoundsTimedelta
       ∧ check_date_range_six_months parse_dates s
         = (Raise OutOfBoundsTimedelta, with_dates l s)).
Proof.
  split; [|split].
  - intros Hnone. unfold check_date_range_six_months.
    by rewrite (run_bind_raise _ _ _ _ _ (run_getitem_none _ _ Hnone)).
  - intros raw e Hraw Hparse.
    pose proof (to_datetime_raises _ _ _ Hparse) as ->. split; [done|].
    unfold check_date_range_six_months. run_get Hraw.
    by rewrite (run_bind_raise _ _ _ _ _ (run_lift_raise _ _ s Hparse)).
  - intros raw l e Hraw Hparse Hrun.
    rewrite (check_date_range_six_months_run parse_dates s raw l Hraw Hparse) in Hrun |- *.
    destruct (timedelta_days _ _) as [num_days|e'] eqn:Hd.
    + by destruct (_ || _).
    + pose proof (timedelta_days_raises _ _ _ Hd) as ->.
      simpl in Hrun. by simplify_eq.
Qed.

(** A date that is no date, and two dates further apart than a
    [Timedelta] holds. *)
Example check_date_range_six_months_unparseable :
  check_date_range_six_months IsoDate.parse_dates
    (State (df_date_cells [Some "2024-01-01"; Some "yesterday"]) [])
  = (Raise ParseError, State (df_date_cells [Some "2024-01-01"; Some "yesterday"]) []).
Proof. vm_compute. reflexivity. Qed.

Example check_date_range_six_months_out_of_bounds :
  check_date_range_six_months IsoDate.parse_dates
    (State (<["date" := DateCol [Some (- 2 ^ 62); Some (2 ^ 62)]]> ∅) [CheckingDates])
  = (Raise OutOfBoundsTimedelta,
     State (<["date" := DateCol [Some (- 2 ^ 62); Some (2 ^ 62)]]> ∅) [CheckingDates]).
Proof. vm_compute. reflexivity. Qed.

(** X3: the date range check does not depend on the order of the
    records: two frames whose parsed [date] columns hold the same
    timestamps and missing cells in another order get the same result. *)
Theorem check_date_range_six_months_ignores_record_order
    (parse_dates : column → option (list (option Z)))
    (s1 s2 : state) (raw1 raw2 : column) (l1 l2 : list (option Z)) :
  frame s1 !! "date" = Some raw1 → to_datetime parse_dates raw1 = Ok (DateCol l1) →
  frame s2 !! "date" = Some raw2 → to_datetime parse_dates raw2 = Ok (DateCol l2) →
  l1 ≡ₚ l2 →
  fst (check_date_range_six_months parse_dates s1)
  = fst (check_date_range_six_months parse_dates s2).
Proof.
  intros H1 P1 H2 P2 Hperm.
  rewrite (check_date_range_six_months_run parse_dates s1 raw1 l1 H1 P1).
  rewrite (check_date_range_six_months_run parse_dates s2 raw2 l2 H2 P2).
  rewrite (ts_fold_perm Z.min l1 l2), (ts_fold_perm Z.max l1 l2);
    [|lia|lia|done|lia|lia|done].
  destruct (timedelta_days _ _) as [num_days|e]; [|done]. by destruct (_ || _).
Qed.

Lemma check_date_range_six_months_ignores_record_order_witness :
  fst (check_date_range_six_months IsoDate.parse_dates
         (State (df_date_cells [Some "2024-01-01"; None; Some "2024-06-29";
                                Some "2024-03-15"]) []))
  = fst (check_date_range_six_months IsoDate.parse_dates
           (State (df_date_cells [Some "2024-06-29"; Some "2024-03-15"; None;
                                  Some "2024-01-01"]) [])).
Proof.
  eapply (check_date_range_six_months_ignores_record_order IsoDate.parse_dates
            _ _ (StrCol [Some "2024-01-01"; None; Some "2024-06-29"; Some "2024-03-15"])
            (StrCol [Some "2024-06-29"; Some "2024-03-15"; None; Some "2024-01-01"]));
    [reflexivity | vm_compute; reflexivity | reflexivity | vm_compute; reflexivity |].
  apply (bool_decide_unpack _). vm_compute. exact I.
Defined.

(** X4: a [date] column that parses and holds no date, no record at all
    or missing cells only, passes the date range check: the day count is
    NaN, which is neither below 170 nor above 190, and the line printed
    reports it. *)
Theorem check_date_range_six_months_passes_without_dates
    (parse_dates : column → option (list (option Z)))
    (s : state) (raw : column) (l : list (option Z)) :
  frame s !! "date" = Some raw →
  to_datetime parse_dates raw = Ok (DateCol l) →
  Forall (λ d, d = None) l →
  check_date_range_six_months parse_dates s
  = (Ok true, say (DateRangeOk None) (with_dates l s)).
Proof.
  intros Hraw Hparse Hl.
  rewrite (check_date_range_six_months_run parse_dates s raw l Hraw Hparse).
  by rewrite (ts_fold_no_dates Z.min l Hl).
Qed.

Lemma check_date_range_six_months_passes_without_dates_witness :
  check_date_range_six_months IsoDate.parse_dates (State (df_date_cells [None; None]) [])
  = (Ok true,
     say (DateRangeOk None) (with_dates [None; None] (State (df_date_cells [None; None]) []))).
Proof.
  apply (check_date_range_six_months_passes_without_dates IsoDate.parse_dates
           (State (df_date_cells [None; None]) []) (StrCol [None; None]) [None; None]);
    [reflexivity | reflexivity | by repeat constructor].
Defined.

(** One record alone spans no day and fails. *)
Example check_date_range_six_months_one_record :
  check_date_range_six_months IsoDate.parse_dates
    (State (df_date_cells [Some "2024-01-01"]) [])
  = (Ok false,
     say (DateRangeBad (Some 0))
         (with_dates [Some 1704067200000000000] (State (df_date_cells [Some "2024-01-01"]) []))).
Proof. vm_compute. reflexivity. Qed.

(** ** The blocks volume check *)

Lemma check_blocks_leased_range_result s ca cp cs atom photon spin :
  frame s !! "new_blocks_atom" = Some ca →
  frame s !! "new_blocks_photon" = Some cp →
  frame s !! "new_blocks_spin" = Some cs →
  values_of ca = Ok atom → values_of cp = Ok photon → values_of cs = Ok spin →
  check_blocks_leased_range s
  = (Ok (all (map (between_int 1000 10000) (total_blocks atom photon spin))),
     say (if all (map (between_int 1000 10000) (total_blocks atom photon spin))
          then BlocksInRange else BlocksOutOfRange)
         (with_totals (total_blocks atom photon spin) s)).
Proof.
  intros. rewrite (check_blocks_leased_range_run s ca cp cs atom photon spin) by done.
  by destruct (all _).
Qed.

(** X5: the blocks volume check indexes the three category columns
    without a guard: it raises [KeyError] for the first of
    [new_blocks_atom], [new_blocks_photon], [new_blocks_spin] that is
    absent, and whenever it raises [KeyError] nothing has been assigned or
    printed, so no [total_blocks_leased] column is left behind. *)
Theorem check_blocks_leased_range_KeyError (s : state) :
  (frame s !! "new_blocks_atom" = None →
   check_blocks_leased_range s = (Raise (KeyError "new_blocks_atom"), s))
  ∧ (∀ ca, frame s !! "new_blocks_atom" = Some ca →
       frame s !! "new_blocks_photon" = None →
       check_blocks_leased_range s = (Raise (KeyError "new_blocks_photon"), s))
  ∧ (∀ ca cp atom photon,
       frame s !! "new_blocks_atom" = Some ca →
       frame s !! "new_blocks_photon" = Some cp →
       values_of ca = Ok atom → values_of cp = Ok photon →
       frame s !! "new_blocks_spin" = None →
       check_blocks_leased_range s = (Raise (KeyError "new_blocks_spin"), s))
  ∧ (∀ name s', check_blocks_leased_range s = (Raise (KeyError name), s') →
       s' = s ∧ name ∈ ["new_blocks_atom"; "new_blocks_photon"; "new_blocks_spin"]
       ∧ frame s !! name = None).
Proof.
  split; [|split; [|split]].
  - intros Ha. unfold check_blocks_leased_range.
    by rewrite (run_bind_raise _ _ _ _ _ (run_getitem_none _ _ Ha)).
  - intros ca Ha Hp. unfold check_blocks_leased_range. run_get Ha.
    by rewrite (run_bind_raise _ _ _ _ _ (run_getitem_none _ _ Hp)).
  - intros ca cp atom photon Ha Hp Va Vp Hs. unfold check_blocks_leased_range.
    run_get Ha. run_get Hp. run_pure (col_add_values _ _ _ _ Va Vp).
    by rewrite (run_bind_raise _ _ _ _ _ (run_getitem_none _ _ Hs)).
  - intros name s' H. pose proof H as Hrun. unfold check_blocks_leased_range in H.
    destruct (frame s !! "new_blocks_atom") as [ca|] eqn:Ha;
      [run_get Ha in H
      | rewrite (run_bind_raise _ _ _ _ _ (run_getitem_none _ _ Ha)) in H; simplify_eq;
        split; [done|]; split; [apply list_elem_of_here | done]].
    destruct (frame s !! "new_blocks_photon") as [cp|] eqn:Hp;
      [run_get Hp in H
      | rewrite (run_bind_raise _ _ _ _ _ (run_getitem_none _ _ Hp)) in H; simplify_eq;
        split; [done|]; split; [apply list_elem_of_further, list_elem_of_here | done]].
    destruct (values_of_cases ca) as [[atom Va]|Va];
      [| by rewrite (run_bind_raise _ _ _ _ _
                       (run_lift_raise _ _ s (col_add_raises_l ca cp Va))) in H].
    destruct (values_of_cases cp) as [[photon Vp]|Vp];
      [| by rewrite (run_bind_raise _ _ _ _ _
                       (run_lift_raise _ _ s (col_add_raises_r ca cp atom Va Vp))) in H].
    destruct (frame s !! "new_blocks_spin") as [cs|] eqn:Hs.
    + destruct (values_of_cases cs) as [[spin Vs]|Vs].
      * rewrite (check_blocks_leased_range_run s ca cp cs atom photon spin) in Hrun by done.
        by destruct (negb _).
      * run_pure (col_add_values _ _ _ _ Va Vp) in H. run_get Hs in H.
        by rewrite (run_bind_raise _ _ _ _ _
                      (run_lift_raise _ _ s
                         (col_add_raises_r _ cs _ (values_of_IntCol _) Vs))) in H.
    + run_pure (col_add_values _ _ _ _ Va Vp) in H.
      rewrite (run_bind_raise _ _ _ _ _ (run_getitem_none _ _ Hs)) in H. simplify_eq.
      split; [done|]; split; [elem_of_names | done].
Qed.

(** ** The workload volume check *)

Lemma check_workload_range_run s c l :
  frame s !! "total_workloads" = Some c → values_of c = Ok l →
  check_workload_range s
  = (Ok (all (map (between_int 1000000 50000000) l)),
     say (if all (map (between_int 1000000 50000000) l)
          then WorkloadsInRange else WorkloadsOutOfRange) s).
Proof.
  intros Hc Vc. unfold check_workload_range.
  run_get Hc. run_pure (col_between_int_values _ _ _ _ Vc). by destruct (all _).
Qed.

Lemma check_workload_range_returns s b s' :
  check_workload_range s = (Ok b, s') →
  ∃ c l, frame s !! "total_workloads" = Some c ∧ values_of c = Ok l.
Proof.
  intros H. destruct (frame s !! "total_workloads") as [c|] eqn:Hc;
    [|by rewrite (check_workload_range_KeyError s Hc) in H].
  destruct (values_of_cases c) as [[l Vc]|Vc]; [eauto|].
  unfold check_workload_range in H. run_get Hc in H.
  unfold col_between_int in H. rewrite Vc in H. discriminate H.
Qed.

Lemma check_workload_range_raising_untouched :
  raising_respects untouched check_workload_range.
Proof. unfold check_workload_range. raising_untouched_tac. Qed.

(** X6: with a [total_workloads] column of numbers, the workload volume
    check returns, leaves the frame as it was and prints one line; it
    returns true exactly when every record has between 1,000,000 and
    50,000,000 workloads, both ends included. *)
Theorem check_workload_range_true_iff_every_record (s : state) (c : column) (l : list Z) :
  frame s !! "total_workloads" = Some c → values_of c = Ok l →
  ∃ b : bool,
    check_workload_range s
    = (Ok b, say (if b then WorkloadsInRange else WorkloadsOutOfRange) s)
    ∧ (b = true ↔ ∀ i w, l !! i = Some w → 1000000 <= w <= 50000000).
Proof.
  intros Hc Vc. exists (all (map (between_int 1000000 50000000) l)).
  split; [by apply (check_workload_range_run s c l) | apply all_between_int].
Qed.

Lemma check_workload_range_true_iff_every_record_witness :
  ∃ b : bool,
    check_workload_range (State (df_assignment [1000000; 50000000] [] []) [])
    = (Ok b, say (if b then WorkloadsInRange else WorkloadsOutOfRange)
                 (State (df_assignment [1000000; 50000000] [] []) []))
    ∧ (b = true ↔ ∀ i w, [1000000; 50000000] !! i = Some w → 1000000 <= w <= 50000000).
Proof.
  apply (check_workload_range_true_iff_every_record
           (State (df_assignment [1000000; 50000000] [] []) [])
           (IntCol [1000000; 50000000])); reflexivity.
Defined.

(** The bounds pass; one workload less or one more fails. *)
Example check_workload_range_bounds :
  fst (check_workload_range (State (df_assignment [1000000; 50000000] [] []) [])) = Ok true
  ∧ fst (check_workload_range (State (df_assignment [1000000; 999999] [] []) [])) = Ok false
  ∧ fst (check_workload_range (State (df_assignment [50000001; 1000000] [] []) [])) = Ok false.
Proof. vm_compute. repeat split. Qed.

(** X7: how the workload volume check raises.  On every frame without a
    [total_workloads] column it raises [KeyError]; it raises otherwise
    only on a column that holds no numbers; and whenever it raises, the
    state is left as it was: nothing is printed. *)
Theorem check_workload_range_raises (s : state) :
  (frame s !! "total_workloads" = None →
   check_workload_range s = (Raise (KeyError "total_workloads"), s))
  ∧ (∀ e s', check_workload_range s = (Raise e, s') →
       s' = s
       ∧ (e = KeyError "total_workloads" ∧ frame s !! "total_workloads" = None
          ∨ e = TypeError ∧ ∃ c, frame s !! "total_workloads" = Some c
                                 ∧ values_of c = Raise TypeError)).
Proof.
  split; [apply check_workload_range_KeyError|].
  intros e s' H. split; [exact (check_workload_range_raising_untouched s e s' H)|].
  destruct (frame s !! "total_workloads") as [c|] eqn:Hc.
  - right. destruct (values_of_cases c) as [[l Vc]|Vc].
    + by rewrite (check_workload_range_run s c l Hc Vc) in H.
    + unfold check_workload_range in H. run_get Hc in H.
      unfold col_between_int in H. rewrite Vc in H. cbv [bind lift result_bind] in H.
      simplify_eq. eauto.
  - left. rewrite (check_workload_range_KeyError s Hc) in H. by simplify_eq.
Qed.

(** ** The distribution check *)

Lemma average_same_sum a p s a' p' s' :
  a' + p' + s' = a + p + s → average a' p' s' = average a p s.
Proof. intros H. unfold average. by rewrite !Int64_add_add, H. Qed.

Lemma perm3 {A} (a b c x y z : A) :
  [x; y; z] ≡ₚ [a; b; c] →
  (x = a ∧ (y = b ∧ z = c ∨ y = c ∧ z = b))
  ∨ (x = b ∧ (y = a ∧ z = c ∨ y = c ∧ z = a))
  ∨ (x = c ∧ (y = a ∧ z = b ∨ y = b ∧ z = a)).
Proof.
  intros H. assert (x ∈ [a; b; c]) as Hx by (rewrite <- H; apply list_elem_of_here).
  repeat (apply elem_of_cons in Hx as [->|Hx]); [| | |by apply elem_of_nil in Hx].
  - left. split; [done|]. apply Permutation_cons_inv in H.
    by apply Permutation_length_2.
  - right; left. split; [done|].
    rewrite (perm_swap b a [c]) in H. apply Permutation_cons_inv in H.
    by apply Permutation_length_2.
  - right; right. split; [done|].
    assert ([a; b; c] ≡ₚ [c; a; b]) as E
      by (etrans; [apply perm_skip, perm_swap | apply perm_swap]).
    rewrite E in H. apply Permutation_cons_inv in H.
    by apply Permutation_length_2.
Qed.

Lemma check_equal_distribution_result tolerance s ca cp cs atom photon spin :
  frame s !! "new_blocks_atom" = Some ca →
  frame s !! "new_blocks_photon" = Some cp →
  frame s !! "new_blocks_spin" = Some cs →
  values_of ca = Ok atom → values_of cp = Ok photon → values_of cs = Ok spin →
  ∃ s', frame s' = frame s
    ∧ check_equal_distribution tolerance s
      = (Ok (negb (exceeds tolerance (Int64.sum atom)
                     (average (Int64.sum atom) (Int64.sum photon) (Int64.sum spin))
                   || exceeds tolerance (Int64.sum photon)
                        (average (Int64.sum atom) (Int64.sum photon) (Int64.sum spin))
                   || exceeds tolerance (Int64.sum spin)
                        (average (Int64.sum atom) (Int64.sum photon) (Int64.sum spin)))),
         s').
Proof.
  intros. rewrite (check_equal_distribution_run tolerance s ca cp cs atom photon spin) by done.
  cbv zeta. destruct (_ || _ || _); (eexists; split; [|reflexivity]); reflexivity.
Qed.

Lemma check_equal_distribution_raising_untouched tolerance :
  raising_respects untouched (check_equal_distribution tolerance).
Proof. unfold check_equal_distribution. cbv zeta. raising_untouched_tac. Qed.

(** X8: the distribution check does not depend on the order of the
    records: each cumulative total is the sum of its column in [int64],
    which is the same for every order of the cells. *)
Theorem check_equal_distribution_ignores_record_order
    (tolerance : spec_float) (s1 s2 : state) (ca1 cp1 cs1 ca2 cp2 cs2 : column)
    (atom1 photon1 spin1 atom2 photon2 spin2 : list Z) :
  frame s1 !! "new_blocks_atom" = Some ca1 →
  frame s1 !! "new_blocks_photon" = Some cp1 →
  frame s1 !! "new_blocks_spin" = Some cs1 →
  values_of ca1 = Ok atom1 → values_of cp1 = Ok photon1 → values_of cs1 = Ok spin1 →
  frame s2 !! "new_blocks_atom" = Some ca2 →
  frame s2 !! "new_blocks_photon" = Some cp2 →
  frame s2 !! "new_blocks_spin" = Some cs2 →
  values_of ca2 = Ok atom2 → values_of cp2 = Ok photon2 → values_of cs2 = Ok spin2 →
  atom1 ≡ₚ atom2 → photon1 ≡ₚ photon2 → spin1 ≡ₚ spin2 →
  fst (check_equal_distribution tolerance s1) = fst (check_equal_distribution tolerance s2).
Proof.
  intros Ha1 Hp1 Hs1 Va1 Vp1 Vs1 Ha2 Hp2 Hs2 Va2 Vp2 Vs2 Pa Pp Ps.
  rewrite (check_equal_distribution_run tolerance s1 ca1 cp1 cs1 atom1 photon1 spin1) by done.
  rewrite (check_equal_distribution_run tolerance s2 ca2 cp2 cs2 atom2 photon2 spin2) by done.
  cbv zeta.
  rewrite (Int64_sum_perm _ _ Pa), (Int64_sum_perm _ _ Pp), (Int64_sum_perm _ _ Ps).
  by destruct (_ || _ || _).
Qed.

Lemma check_equal_distribution_ignores_record_order_witness :
  fst (check_equal_distribution F64.lit_0_05
         (State (df_blocks [400; 620; 10] [400; 590; 20] [400; 610; 30]) []))
  = fst (check_equal_distribution F64.lit_0_05
           (State (df_blocks [10; 400; 620] [590; 20; 400] [400; 30; 610]) [])).
Proof.
  apply (check_equal_distribution_ignores_record_order F64.lit_0_05
           (State (df_blocks [400; 620; 10] [400; 590; 20] [400; 610; 30]) [])
           (State (df_blocks [10; 400; 620] [590; 20; 400] [400; 30; 610]) [])
           (IntCol [400; 620; 10]) (IntCol [400; 590; 20]) (IntCol [400; 610; 30])
           (IntCol [10; 400; 620]) (IntCol [590; 20; 400]) (IntCol [400; 30; 610])
           [400; 620; 10] [400; 590; 20] [400; 610; 30]
           [10; 400; 620] [590; 20; 400] [400; 30; 610]);
    [reflexivity .. | | |].
  - apply (bool_decide_unpack _). vm_compute. exact I.
  - apply (bool_decide_unpack _). vm_compute. exact I.
  - apply (bool_decide_unpack _). vm_compute. exact I.
Defined.

(** X9: the distribution check treats the three categories alike: a
    frame that holds the same three columns under the category names in
    another order gets the same result. *)
Theorem check_equal_distribution_treats_categories_alike
    (tolerance : spec_float) (s1 s2 : state) (ca1 cp1 cs1 ca2 cp2 cs2 : column)
    (atom1 photon1 spin1 atom2 photon2 spin2 : list Z) :
  frame s1 !! "new_blocks_atom" = Some ca1 →
  frame s1 !! "new_blocks_photon" = Some cp1 →
  frame s1 !! "new_blocks_spin" = Some cs1 →
  values_of ca1 = Ok atom1 → values_of cp1 = Ok photon1 → values_of cs1 = Ok spin1 →
  frame s2 !! "new_blocks_atom" = Some ca2 →
  frame s2 !! "new_blocks_photon" = Some cp2 →
  frame s2 !! "new_blocks_spin" = Some cs2 →
  values_of ca2 = Ok atom2 → values_of cp2 = Ok photon2 → values_of cs2 = Ok spin2 →
  [atom2; photon2; spin2] ≡ₚ [atom1; photon1; spin1] →
  fst (check_equal_distribution tolerance s1) = fst (check_equal_distribution tolerance s2).
Proof.
  intros Ha1 Hp1 Hs1 Va1 Vp1 Vs1 Ha2 Hp2 Hs2 Va2 Vp2 Vs2 Hperm.
  rewrite (check_equal_distribution_run tolerance s1 ca1 cp1 cs1 atom1 photon1 spin1) by done.
  rewrite (check_equal_distribution_run tolerance s2 ca2 cp2 cs2 atom2 photon2 spin2) by done.
  cbv zeta.
  pose proof average_same_sum as Havg.
  apply perm3 in Hperm as [[-> [[-> ->]|[-> ->]]]|[[-> [[-> ->]|[-> ->]]]|[-> [[-> ->]|[-> ->]]]]].
  all: set (ta := Int64.sum atom1); set (tp := Int64.sum photon1); set (ts := Int64.sum spin1).
  all: try rewrite (Havg ta tp ts ta ts tp) by lia.
  all: try rewrite (Havg ta tp ts tp ta ts) by lia.
  all: try rewrite (Havg ta tp ts tp ts ta) by lia.
  all: try rewrite (Havg ta tp ts ts ta tp) by lia.
  all: try rewrite (Havg ta tp ts ts tp ta) by lia.
  all: destruct (exceeds tolerance ta _), (exceeds tolerance tp _), (exceeds tolerance ts _);
    reflexivity.
Qed.

Lemma check_equal_distribution_treats_categories_alike_witness :
  fst (check_equal_distribution F64.lit_0_05
         (State (df_blocks [400; 700] [400; 500] [400; 610]) []))
  = fst (check_equal_distribution F64.lit_0_05
           (State (df_blocks [400; 610] [400; 700] [400; 500]) [])).
Proof.
  apply (check_equal_distribution_treats_categories_alike F64.lit_0_05
           (State (df_blocks [400; 700] [400; 500] [400; 610]) [])
           (State (df_blocks [400; 610] [400; 700] [400; 500]) [])
           (IntCol [400; 700]) (IntCol [400; 500]) (IntCol [400; 610])
           (IntCol [400; 610]) (IntCol [400; 700]) (IntCol [400; 500])
           [400; 700] [400; 500] [400; 610]
           [400; 610] [400; 700] [400; 500]);
    [reflexivity .. |].
  apply (bool_decide_unpack _). vm_compute. exact I.
Defined.

(** *** Equal totals *)

Lemma binade_unique t x y :
  0 <= x → 0 <= y →
  2 ^ 52 <= t * 2 ^ x < 2 ^ 53 → 2 ^ 52 <= t * 2 ^ y < 2 ^ 53 → x = y.
Proof.
  assert (∀ x y, 0 <= x → x < y →
            2 ^ 52 <= t * 2 ^ x < 2 ^ 53 → 2 ^ 52 <= t * 2 ^ y < 2 ^ 53 → False) as Hlt.
  { clear. intros x y Hx Hxy Bx By.
    replace y with (x + (y - x)) in By by lia. rewrite pow2_split in By by lia.
    assert (2 ^ 1 <= 2 ^ (y - x)) as H2 by (apply Z.pow_le_mono_r; lia).
    change (2 ^ 1) with 2 in H2.
    assert (0 < 2 ^ x) by (by apply pow2_pos).
    change (2 ^ 52) with 4503599627370496 in *.
    change (2 ^ 53) with 9007199254740992 in *. nia. }
  intros Hx Hy Bx By.
  destruct (Z.lt_trichotomy x y) as [H|[H|H]]; [|done|]; exfalso; eauto.
Qed.

(** A product below [2^53] divided by one of its factors gives the other
    factor, without rounding. *)
Lemma truediv_exact_quotient k t :
  0 < k → 0 < t → k * t < 2 ^ 53 → truediv (k * t) k = F64.of_int t.
Proof.
  intros Hk Ht Hkt.
  assert (0 < k * t < 2 ^ 53) as Hn by nia.
  assert (0 < k < 2 ^ 53) as Hk' by nia.
  assert (0 < t < 2 ^ 53) as Ht' by nia.
  destruct (truediv_rounds_quotient (k * t) k Hn Hk') as (E & HE & Hb & ->).
  destruct (of_int_mantissa_bounds t Ht') as [Hd HT].
  rewrite (of_int_below_2_53 t Ht').
  assert (2 ^ 52 <= t * 2 ^ (- E) < 2 ^ 53) as HM.
  { change (2 ^ 52) with 4503599627370496 in *.
    change (2 ^ 53) with 9007199254740992 in *. nia. }
  assert (- E = 53 - Zdigits2 t) as HE'
    by (apply (binade_unique t); [lia | lia | done | done]).
  unfold round_located, locate.
  replace (k * t * 2 ^ (- E)) with (t * 2 ^ (- E) * k) by ring.
  rewrite Z.div_mul, Z.mod_mul by lia. cbn [Z.eqb]. unfold rne. cbn [round_nearest_even].
  unfold finish. rewrite (proj2 (Z.ltb_lt _ _)) by lia.
  rewrite HE'. f_equal. lia.
Qed.

Lemma sub_self_zero m e :
  F64.sub (S754_finite false m e) (S754_finite false m e) = S754_zero false.
Proof.
  unfold F64.sub, SFsub. cbn [cond_Zopp]. by rewrite Z.sub_diag.
Qed.

Lemma binary_round_aux_not_negative m e l :
  is_negative (binary_round_aux F64.prec F64.emax false m e l) = false.
Proof.
  unfold binary_round_aux.
  destruct (shr_fexp _ _ m e l) as [mrs' e'].
  destruct (shr_fexp _ _ _ e' loc_Exact) as [mrs'' e''].
  destruct (shr_m mrs''); [done| |done]. by destruct (_ <=? _).
Qed.

Lemma mul_not_negative x m e :
  is_negative x = false → is_negative (F64.mul x (S754_finite false m e)) = false.
Proof.
  destruct x as [[]|[]| |[] mx ex]; try done; intros _.
  apply binary_round_aux_not_negative.
Qed.

Lemma zero_not_above x : is_negative x = false → F64.gtb (S754_zero false) x = false.
Proof. by destruct x as [[]|[]| |[] mx ex]. Qed.

(** Three equal totals do not exceed the threshold of a tolerance that is
    not negative: the average is the total itself and each deviation is
    zero. *)
Lemma equal_totals_none_exceeds tolerance t :
  0 <= t → 3 * t < 2 ^ 53 → is_negative tolerance = false →
  exceeds tolerance t (average t t t) = false.
Proof.
  intros H0 H3 Htol.
  destruct (Z.eq_dec t 0) as [->|Hne]; [apply zero_totals_within_any_tolerance|].
  assert (average t t t = F64.of_int t) as ->.
  { unfold average. rewrite Int64_add_add.
    rewrite Int64_wrap_in_range
      by (unfold Int64.in_range, Int64.min_int, Int64.max_int;
          change (2 ^ 53) with 9007199254740992 in H3; lia).
    replace (t + t + t) with (3 * t) by lia.
    apply (truediv_exact_quotient 3 t); lia. }
  unfold exceeds, deviation.
  destruct (of_int_pos_finite t) as (m & e & ->); [lia|].
  rewrite sub_self_zero. cbn [F64.abs SFabs].
  apply zero_not_above. by apply mul_not_negative.
Qed.

(** X10: three equal cumulative totals pass the distribution check for
    every tolerance that is not negative, the tolerance 0 and NaN
    included: for a total up to a third of 2^53 the computed average is
    the total itself, every deviation is zero, and zero is not above the
    threshold. *)
Theorem check_equal_distribution_equal_totals_pass
    (tolerance : spec_float) (s : state) (ca cp cs : column) (atom photon spin : list Z)
    (t : Z) :
  frame s !! "new_blocks_atom" = Some ca →
  frame s !! "new_blocks_photon" = Some cp →
  frame s !! "new_blocks_spin" = Some cs →
  values_of ca = Ok atom → values_of cp = Ok photon → values_of cs = Ok spin →
  Int64.sum atom = t → Int64.sum photon = t → Int64.sum spin = t →
  0 <= t → 3 * t < 2 ^ 53 →
  is_negative tolerance = false →
  check_equal_distribution tolerance s = (Ok true, say DistributionEqual s).
Proof.
  intros Ha Hp Hs Va Vp Vs Ea Ep Es H0 H3 Htol.
  rewrite (check_equal_distribution_run tolerance s ca cp cs atom photon spin) by done.
  cbv zeta. rewrite Ea, Ep, Es.
  by rewrite (equal_totals_none_exceeds tolerance t H0 H3 Htol).
Qed.

Lemma check_equal_distribution_equal_totals_pass_witness :
  check_equal_distribution (S754_zero false)
    (State (df_blocks [400; 700] [600; 500] [490; 610]) [])
  = (Ok true, say DistributionEqual (State (df_blocks [400; 700] [600; 500] [490; 610]) [])).
Proof.
  apply (check_equal_distribution_equal_totals_pass (S754_zero false)
           (State (df_blocks [400; 700] [600; 500] [490; 610]) [])
           (IntCol [400; 700]) (IntCol [600; 500]) (IntCol [490; 610])
           [400; 700] [600; 500] [490; 610] 1100);
    [reflexivity .. | lia | reflexivity | reflexivity].
Defined.

(** With a negative tolerance the threshold is below zero and equal totals
    fail. *)
Example check_equal_distribution_negative_tolerance :
  fst (check_equal_distribution (S754_finite true 7205759403792794 (-57))
         (State (df_totals 1000 1000 1000) [])) = Ok false.
Proof. vm_compute. reflexivity. Qed.

(** X11: the distribution check indexes the three category columns
    without a guard: it raises [KeyError] for the first of
    [new_blocks_atom], [new_blocks_photon], [new_blocks_spin] that is
    absent, and whenever it raises, the state is left as it was: nothing
    is printed. *)
Theorem check_equal_distribution_raises (tolerance : spec_float) (s : state) :
  (frame s !! "new_blocks_atom" = None →
   check_equal_distribution tolerance s = (Raise (KeyError "new_blocks_atom"), s))
  ∧ (∀ ca atom, frame s !! "new_blocks_atom" = Some ca → values_of ca = Ok atom →
       frame s !! "new_blocks_photon" = None →
       check_equal_distribution tolerance s = (Raise (KeyError "new_blocks_photon"), s))
  ∧ (∀ ca cp atom photon,
       frame s !! "new_blocks_atom" = Some ca → values_of ca = Ok atom →
       frame s !! "new_blocks_photon" = Some cp → values_of cp = Ok photon →
       frame s !! "new_blocks_spin" = None →
       check_equal_distribution tolerance s = (Raise (KeyError "new_blocks_spin"), s))
  ∧ (∀ e s', check_equal_distribution tolerance s = (Raise e, s') → s' = s).
Proof.
  split; [|split; [|split]].
  - intros Ha. unfold check_equal_distribution.
    by rewrite (run_bind_raise _ _ _ _ _ (run_getitem_none _ _ Ha)).
  - intros ca atom Ha Va Hp. unfold check_equal_distribution.
    run_get Ha. run_pure (col_sum_values _ _ Va).
    by rewrite (run_bind_raise _ _ _ _ _ (run_getitem_none _ _ Hp)).
  - intros ca cp atom photon Ha Va Hp Vp Hs. unfold check_equal_distribution.
    run_get Ha. run_pure (col_sum_values _ _ Va).
    run_get Hp. run_pure (col_sum_values _ _ Vp).
    by rewrite (run_bind_raise _ _ _ _ _ (run_getitem_none _ _ Hs)).
  - intros e s' H. exact (check_equal_distribution_raising_untouched tolerance s e s' H).
Qed.

(** ** The workload assignment check *)

Lemma col_eq_raises_r a b x :
  values_of a = Ok x → values_of b = Raise TypeError → col_eq a b = Raise TypeError.
Proof. intros Ha Hb. unfold col_eq. by rewrite Ha, Hb. Qed.

(** The guard of the workload assignment check. *)
Lemma check_workload_assignment_guard s missing :
  missing = List.filter (λ col, bool_decide (frame s !! col = None)) required_cols →
  missing ≠ [] →
  check_workload_assignment s = (Ok false, say (AssignMissing missing) s).
Proof.
  intros -> H. unfold check_workload_assignment, bind, missing_columns.
  by destruct (List.filter _ required_cols).
Qed.

(** Past the guard the three columns are there, and only the arithmetic
    can fail. *)
Lemma check_workload_assignment_past_guard s ct cn co :
  frame s !! "total_workloads" = Some ct →
  frame s !! "workloads_new_blocks" = Some cn →
  frame s !! "workloads_older_blocks" = Some co →
  (∃ b s', check_workload_assignment s = (Ok b, s'))
  ∨ check_workload_assignment s = (Raise TypeError, s).
Proof.
  intros Ht Hn Ho.
  destruct (values_of_cases cn) as [[new Vn]|Vn], (values_of_cases co) as [[older Vo]|Vo],
    (values_of_cases ct) as [[total Vt]|Vt].
  1: { left. rewrite (check_workload_assignment_run s ct cn co total new older) by done.
       repeat destruct (negb _); eauto. }
  all: right; unfold check_workload_assignment;
    rewrite (run_bind_ok _ _ _ _ _ (missing_columns_all_present required_cols s
               ltac:(repeat constructor; eauto)));
    cbn [is_nonempty]; run_get Hn; run_get Ho.
  1: { run_pure (col_add_values _ _ _ _ Vn Vo). run_get Ht.
       by rewrite (run_bind_raise _ _ _ _ _
                     (run_lift_raise _ _ s (col_eq_raises_r _ ct _ (values_of_IntCol _) Vt))). }
  1,2: by rewrite (run_bind_raise _ _ _ _ _
                     (run_lift_raise _ _ s (col_add_raises_r cn co new Vn Vo))).
  all: by rewrite (run_bind_raise _ _ _ _ _
                     (run_lift_raise _ _ s (col_add_raises_l cn co Vn))).
Qed.

(** X12: the workload assignment check never raises [KeyError],
    whatever the frame: its guard tests the three columns it indexes.
    When one of them is absent it returns false, and the one line it
    prints lists the absent ones among [total_workloads],
    [workloads_new_blocks], [workloads_older_blocks], all of them and no
    other, in this order. *)
Theorem check_workload_assignment_never_raises_KeyError (s : state) :
  (∀ name, fst (check_workload_assignment s) ≠ Raise (KeyError name))
  ∧ ((∃ name, name ∈ required_cols ∧ frame s !! name = None) →
     ∃ missing,
       check_workload_assignment s = (Ok false, say (AssignMissing missing) s)
       ∧ (∀ name, name ∈ missing ↔ name ∈ required_cols ∧ frame s !! name = None)
       ∧ missing `sublist_of` required_cols).
Proof.
  split.
  - intros name.
    destruct (List.filter (λ col, bool_decide (frame s !! col = None)) required_cols)
      as [|x l] eqn:E.
    + pose proof (proj1 (missing_columns_nil required_cols s) E) as Hall.
      destruct (Hall "total_workloads") as [ct Ht]; [elem_of_names|].
      destruct (Hall "workloads_new_blocks") as [cn Hn]; [elem_of_names|].
      destruct (Hall "workloads_older_blocks") as [co Ho]; [elem_of_names|].
      destruct (check_workload_assignment_past_guard s ct cn co Ht Hn Ho)
        as [(b & s' & ->)| ->]; discriminate.
    + by rewrite (check_workload_assignment_guard s (x :: l)).
  - intros (name & Hin & Hnone).
    exists (List.filter (λ col, bool_decide (frame s !! col = None)) required_cols).
    split; [|split].
    + apply check_workload_assignment_guard; [done|].
      intros E. assert (name ∈ @nil string) as Hn
        by (rewrite <- E; by apply missing_columns_spec).
      by apply elem_of_nil in Hn.
    + intros n. apply missing_columns_spec.
    + apply filter_sublist.
Qed.

(** X13: on records with non-negative parts below 2^53 and a total from
    0 to 2^50, the third test of the workload assignment check decides
    nothing: when the parts add up to the total and the ratio of today's
    workloads lies in [0.50, 0.60], the ratio of the older pool lies in
    [0.40, 0.50].  The check ends with the mismatch line, with the line
    of today's ratio or with success, and never with the line of the
    older pool. *)
Theorem check_workload_assignment_older_test_never_decides
    (s : state) (nrows : nat) (ct cn co : column) (total new older : list Z) :
  df_wf nrows (frame s) →
  frame s !! "total_workloads" = Some ct →
  frame s !! "workloads_new_blocks" = Some cn →
  frame s !! "workloads_older_blocks" = Some co →
  values_of ct = Ok total → values_of cn = Ok new → values_of co = Ok older →
  (∀ i n o t, new !! i = Some n → older !! i = Some o → total !! i = Some t →
     0 <= n < 2 ^ 53 ∧ 0 <= o < 2 ^ 53 ∧ 0 <= t <= 2 ^ 50) →
  (check_workload_assignment s = (Ok false, say AssignMismatch s)
   ∨ check_workload_assignment s = (Ok false, say AssignTodayBad s)
   ∨ check_workload_assignment s = (Ok true, say AssignOk s))
  ∧ snd (check_workload_assignment s) ≠ say AssignOlderBad s.
Proof.
  intros Hwf Ht Hn Ho Vt Vn Vo Hbounds.
  pose proof (df_wf_length _ _ _ _ _ Hwf Ht Vt) as Lt.
  pose proof (df_wf_length _ _ _ _ _ Hwf Hn Vn) as Ln.
  pose proof (df_wf_length _ _ _ _ _ Hwf Ho Vo) as Lo.
  rewrite (check_workload_assignment_run s ct cn co total new older) by done.
  destruct (all (zip_with Z.eqb (zip_with Int64.add new older) total)) eqn:Es; cbn [negb];
    [|split; [eauto | intros H%say_inj; discriminate]].
  destruct (all (ratios_between F64.lit_0_50 F64.lit_0_60 (zip_with truediv new total)))
    eqn:Et; cbn [negb]; [|split; [eauto | intros H%say_inj; discriminate]].
  assert (all (ratios_between F64.lit_0_40 F64.lit_0_50 (zip_with truediv older total)) = true)
    as ->; [|split; [eauto | intros H%say_inj; discriminate]].
  unfold ratios_between in *. rewrite all_map_lookup in Et |- *.
  rewrite all_zip_with_lookup in Es.
  intros i r Hi. apply lookup_zip_with_Some in Hi as (o & t & -> & Hio & Hit).
  destruct (lookup_lt_is_Some_2 new i) as [n Hin];
    [rewrite Ln, <- Lt; eapply lookup_lt_Some, Hit|].
  destruct (Hbounds i n o t Hin Hio Hit) as (Bn & Bo & Bt).
  assert (Int64.add n o = t) as Hsum.
  { apply Z.eqb_eq, (Es i); [|done]. apply lookup_zip_with_Some; eauto. }
  rewrite Int64_add_exact in Hsum
    by (unfold Int64.in_range, Int64.min_int, Int64.max_int;
        change (2 ^ 53) with 9007199254740992 in *; lia).
  assert (F64.between F64.lit_0_50 F64.lit_0_60 (truediv n t) = true) as Htoday
    by (apply (Et i), lookup_zip_with_Some; eauto).
  destruct (Z.eq_dec t 0) as [->|Hne].
  - unfold truediv in Htoday.
    unfold F64.lit_0_50, F64.lit_0_60 in Htoday.
    by rewrite div_by_zero_not_between in Htoday.
  - apply ratio_today_exact in Htoday; [|done|lia].
    apply ratio_older_exact; [done|lia|lia].
Qed.

Lemma check_workload_assignment_older_test_never_decides_witness :
  (check_workload_assignment (State (df_assignment [1000; 2000] [550; 1300] [450; 700]) [])
   = (Ok false, say AssignMismatch (State (df_assignment [1000; 2000] [550; 1300] [450; 700]) []))
   ∨ check_workload_assignment (State (df_assignment [1000; 2000] [550; 1300] [450; 700]) [])
     = (Ok false, say AssignTodayBad (State (df_assignment [1000; 2000] [550; 1300] [450; 700]) []))
   ∨ check_workload_assignment (State (df_assignment [1000; 2000] [550; 1300] [450; 700]) [])
     = (Ok true, say AssignOk (State (df_assignment [1000; 2000] [550; 1300] [450; 700]) [])))
  ∧ snd (check_workload_assignment (State (df_assignment [1000; 2000] [550; 1300] [450; 700]) []))
    ≠ say AssignOlderBad (State (df_assignment [1000; 2000] [550; 1300] [450; 700]) []).
Proof.
  apply (check_workload_assignment_older_test_never_decides
           (State (df_assignment [1000; 2000] [550; 1300] [450; 700]) []) 2%nat
           (IntCol [1000; 2000]) (IntCol [550; 1300]) (IntCol [450; 700])
           [1000; 2000] [550; 1300] [450; 700]);
    [apply (bool_decide_unpack _); vm_compute; exact I | reflexivity .. |].
  intros [|[|i]] n o t Hn Ho Ht; simpl in *; simplify_eq; lia.
Defined.

(** X14: with the three columns present, the line the workload
    assignment check prints names the first test that fails: the mismatch
    line exactly when some record's parts do not add up to its total in
    [int64], and the line of today's ratio exactly when the parts add up
    in every record and some record's ratio of today's workloads is
    outside [0.50, 0.60]. *)
Theorem check_workload_assignment_names_the_first_failing_test
    (s : state) (nrows : nat) (ct cn co : column) (total new older : list Z) :
  df_wf nrows (frame s) →
  frame s !! "total_workloads" = Some ct →
  frame s !! "workloads_new_blocks" = Some cn →
  frame s !! "workloads_older_blocks" = Some co →
  values_of ct = Ok total → values_of cn = Ok new → values_of co = Ok older →
  (check_workload_assignment s = (Ok false, say AssignMismatch s)
   ↔ ∃ i n o t, new !! i = Some n ∧ older !! i = Some o ∧ total !! i = Some t
                ∧ Int64.add n o ≠ t)
  ∧ (check_workload_assignment s = (Ok false, say AssignTodayBad s)
     ↔ (∀ i n o t, new !! i = Some n → older !! i = Some o → total !! i = Some t →
          Int64.add n o = t)
       ∧ ∃ i n t, new !! i = Some n ∧ total !! i = Some t
                  ∧ F64.between F64.lit_0_50 F64.lit_0_60 (truediv n t) = false).
Proof.
  intros Hwf Ht Hn Ho Vt Vn Vo.
  pose proof (df_wf_length _ _ _ _ _ Hwf Ht Vt) as Lt.
  pose proof (df_wf_length _ _ _ _ _ Hwf Hn Vn) as Ln.
  pose proof (df_wf_length _ _ _ _ _ Hwf Ho Vo) as Lo.
  rewrite (check_workload_assignment_run s ct cn co total new older) by done.
  assert (all (zip_with Z.eqb (zip_with Int64.add new older) total) = false
          ↔ ∃ i n o t, new !! i = Some n ∧ older !! i = Some o ∧ total !! i = Some t
                       ∧ Int64.add n o ≠ t) as ES.
  { rewrite all_false_lookup. split.
    - intros (i & Hi). apply lookup_zip_with_Some in Hi as (sp & t & Hf & Hi & Hit).
      apply lookup_zip_with_Some in Hi as (n & o & -> & Hin & Hio).
      exists i, n, o, t. repeat split; [done ..|]. by apply Z.eqb_neq.
    - intros (i & n & o & t & Hin & Hio & Hit & Hne). exists i.
      apply lookup_zip_with_Some. exists (Int64.add n o), t.
      split; [symmetry; by apply Z.eqb_neq|]. split; [|done].
      apply lookup_zip_with_Some. eauto. }
  assert (all (zip_with Z.eqb (zip_with Int64.add new older) total) = true
          ↔ ∀ i n o t, new !! i = Some n → older !! i = Some o → total !! i = Some t →
              Int64.add n o = t) as ES'.
  { rewrite all_zip_with_lookup. split.
    - intros H i n o t Hin Hio Hit. apply Z.eqb_eq, (H i); [|done].
      apply lookup_zip_with_Some. eauto.
    - intros H i sp t Hi Hit. apply lookup_zip_with_Some in Hi as (n & o & -> & Hin & Hio).
      apply Z.eqb_eq. eauto. }
  assert (all (ratios_between F64.lit_0_50 F64.lit_0_60 (zip_with truediv new total)) = false
          ↔ ∃ i n t, new !! i = Some n ∧ total !! i = Some t
                     ∧ F64.between F64.lit_0_50 F64.lit_0_60 (truediv n t) = false) as ET.
  { rewrite all_false_lookup. unfold ratios_between. split.
    - intros (i & Hi). change (map ?f ?l) with (f <$> l) in Hi.
      rewrite list_lookup_fmap in Hi.
      destruct (zip_with truediv new total !! i) as [r|] eqn:Hr; [|done].
      apply lookup_zip_with_Some in Hr as (n & t & -> & Hin & Hit).
      simpl in Hi. exists i, n, t. repeat split; [done ..|]. congruence.
    - intros (i & n & t & Hin & Hit & Hb). exists i.
      change (map ?f ?l) with (f <$> l). rewrite list_lookup_fmap.
      rewrite (proj2 (lookup_zip_with_Some truediv new total i (truediv n t)))
        by eauto.
      simpl. by rewrite Hb. }
  destruct (all (zip_with Z.eqb _ total)); cbn [negb].
  - destruct (all (ratios_between F64.lit_0_50 _ _)); cbn [negb].
    + split; (split; [|intros H; exfalso]).
      * destruct (negb _); intros H%returns_say_inj; discriminate.
      * apply ES in H. discriminate.
      * destruct (negb _); intros H%returns_say_inj; discriminate.
      * destruct H as [_ H]. apply ET in H. discriminate.
    + split; (split; [|]).
      * intros H%returns_say_inj. discriminate.
      * intros H. apply ES in H. discriminate.
      * intros _. split; [by apply ES' | by apply ET].
      * done.
  - split; (split; [|]).
    + intros _. by apply ES.
    + done.
    + intros H%returns_say_inj. discriminate.
    + intros [H _]. apply ES' in H. discriminate.
Qed.

Lemma check_workload_assignment_names_the_first_failing_test_witness :
  (check_workload_assignment (State (df_assignment [1000; 2000] [550; 1300] [450; 800]) [])
   = (Ok false, say AssignMismatch (State (df_assignment [1000; 2000] [550; 1300] [450; 800]) []))
   ↔ ∃ i n o t, [550; 1300] !! i = Some n ∧ [450; 800] !! i = Some o
                ∧ [1000; 2000] !! i = Some t ∧ Int64.add n o ≠ t)
  ∧ (check_workload_assignment (State (df_assignment [1000; 2000] [550; 1300] [450; 800]) [])
     = (Ok false, say AssignTodayBad (State (df_assignment [1000; 2000] [550; 1300] [450; 800]) []))
     ↔ (∀ i n o t, [550; 1300] !! i = Some n → [450; 800] !! i = Some o →
          [1000; 2000] !! i = Some t → Int64.add n o = t)
       ∧ ∃ i n t, [550; 1300] !! i = Some n ∧ [1000; 2000] !! i = Some t
                  ∧ F64.between F64.lit_0_50 F64.lit_0_60 (truediv n t) = false).
Proof.
  apply (check_workload_assignment_names_the_first_failing_test
           (State (df_assignment [1000; 2000] [550; 1300] [450; 800]) []) 2%nat
           (IntCol [1000; 2000]) (IntCol [550; 1300]) (IntCol [450; 800]));
    [apply (bool_decide_unpack _); vm_compute; exact I | reflexivity ..].
Defined.

(** ** The columns the checks depend on *)

(** X15: each check depends on the columns it indexes and on nothing
    else in the frame: on two frames that hold the same columns under
    these names it returns the same, or raises the same.  The schema check
    depends on the seven expected names, the date range check on [date],
    the blocks volume and the distribution check on the three category
    columns, the workload volume check on [total_workloads], and the
    workload assignment check on its three columns. *)
Theorem checks_depend_on_their_columns_only
    (parse_dates : column → option (list (option Z))) (tolerance : spec_float)
    (s1 s2 : state) :
  (agree_on expected_columns s1 s2 →
   fst (check_required_columns s1) = fst (check_required_columns s2))
  ∧ (agree_on ["date"] s1 s2 →
     fst (check_date_range_six_months parse_dates s1)
     = fst (check_date_range_six_months parse_dates s2))
  ∧ (agree_on ["new_blocks_atom"; "new_blocks_photon"; "new_blocks_spin"] s1 s2 →
     fst (check_blocks_leased_range s1) = fst (check_blocks_leased_range s2))
  ∧ (agree_on ["total_workloads"] s1 s2 →
     fst (check_workload_range s1) = fst (check_workload_range s2))
  ∧ (agree_on ["new_blocks_atom"; "new_blocks_photon"; "new_blocks_spin"] s1 s2 →
     fst (check_equal_distribution tolerance s1)
     = fst (check_equal_distribution tolerance s2))
  ∧ (agree_on required_cols s1 s2 →
     fst (check_workload_assignment s1) = fst (check_workload_assignment s2)).
Proof.
  destruct check_required_columns_reads_only as [p1 R1].
  destruct (check_date_range_six_months_reads_only parse_dates) as [p2 R2].
  destruct check_blocks_leased_range_reads_only as [p3 R3].
  destruct check_workload_range_reads_only as [p4 R4].
  destruct (check_equal_distribution_reads_only tolerance) as [p5 R5].
  destruct check_workload_assignment_reads_only as [p6 R6].
  repeat split; intros H; eapply reads_only_result; eauto.
Qed.

(** X16: the two assignments do not reach the other checks.  After the
    date range check has run, whether it returned or raised, the blocks
    volume, workload volume, distribution and workload assignment checks
    give what they give before it; after the blocks volume check has run,
    the schema, date range, workload volume, distribution and workload
    assignment checks give what they give before it.  No check reads
    [total_blocks_leased] but the one that stores it, and none but the
    date range check reads [date]. *)
Theorem assignments_do_not_reach_the_other_checks
    (parse_dates : column → option (list (option Z))) (tolerance : spec_float) (s : state) :
  (fst (check_blocks_leased_range (snd (check_date_range_six_months parse_dates s)))
   = fst (check_blocks_leased_range s)
   ∧ fst (check_workload_range (snd (check_date_range_six_months parse_dates s)))
     = fst (check_workload_range s)
   ∧ fst (check_equal_distribution tolerance (snd (check_date_range_six_months parse_dates s)))
     = fst (check_equal_distribution tolerance s)
   ∧ fst (check_workload_assignment (snd (check_date_range_six_months parse_dates s)))
     = fst (check_workload_assignment s))
  ∧ (fst (check_required_columns (snd (check_blocks_leased_range s)))
     = fst (check_required_columns s)
     ∧ fst (check_date_range_six_months parse_dates (snd (check_blocks_leased_range s)))
       = fst (check_date_range_six_months parse_dates s)
     ∧ fst (check_workload_range (snd (check_blocks_leased_range s)))
       = fst (check_workload_range s)
     ∧ fst (check_equal_distribution tolerance (snd (check_blocks_leased_range s)))
       = fst (check_equal_distribution tolerance s)
     ∧ fst (check_workload_assignment (snd (check_blocks_leased_range s)))
       = fst (check_workload_assignment s)).
Proof.
  pose proof (check_date_range_six_months_same_but parse_dates s) as Fd.
  pose proof (check_blocks_leased_range_same_but s) as Fb.
  destruct check_required_columns_reads_only as [p1 R1].
  destruct (check_date_range_six_months_reads_only parse_dates) as [p2 R2].
  destruct check_blocks_leased_range_reads_only as [p3 R3].
  destruct check_workload_range_reads_only as [p4 R4].
  destruct (check_equal_distribution_reads_only tolerance) as [p5 R5].
  destruct check_workload_assignment_reads_only as [p6 R6].
  repeat split;
    (eapply reads_only_result; [eassumption|]);
    (eapply same_but_agree_on; [eassumption|]);
    apply (bool_decide_unpack _); vm_compute; exact I.
Qed.

(** ** The orchestrator, forwards and backwards *)

Lemma run_all_checks_steps parse_dates s0 s1 s2 s3 s4 s5 b1 b2 b3 b4 b5 :
  check_required_columns (say CheckingColumns s0) = (Ok b1, s1) →
  check_date_range_six_months parse_dates (say CheckingDates s1) = (Ok b2, s2) →
  check_blocks_leased_range (say CheckingBlocks s2) = (Ok b3, s3) →
  check_workload_range (say CheckingWorkloads s3) = (Ok b4, s4) →
  check_equal_distribution F64.lit_0_05 (say CheckingDistribution s4) = (Ok b5, s5) →
  run_all_checks parse_dates s0
  = (Ok (b1 && b2 && b3 && b4 && b5),
     say (if b1 && b2 && b3 && b4 && b5 then AllPassed else SomeFailed) s5).
Proof.
  intros H1 H2 H3 H4 H5. unfold run_all_checks.
  rewrite (run_bind_ok _ _ _ _ _ (run_print _ _)), (run_bind_ok _ _ _ _ _ H1).
  rewrite (run_bind_ok _ _ _ _ _ (run_print _ _)), (run_bind_ok _ _ _ _ _ H2).
  rewrite (run_bind_ok _ _ _ _ _ (run_print _ _)), (run_bind_ok _ _ _ _ _ H3).
  rewrite (run_bind_ok _ _ _ _ _ (run_print _ _)), (run_bind_ok _ _ _ _ _ H4).
  rewrite (run_bind_ok _ _ _ _ _ (run_print _ _)), (run_bind_ok _ _ _ _ _ H5).
  by destruct (b1 && b2 && b3 && b4 && b5).
Qed.

Lemma run_all_checks_date_raises parse_dates s0 s1 b1 e s' :
  check_required_columns (say CheckingColumns s0) = (Ok b1, s1) →
  check_date_range_six_months parse_dates (say CheckingDates s1) = (Raise e, s') →
  run_all_checks parse_dates s0 = (Raise e, s').
Proof.
  intros H1 H2. unfold run_all_checks.
  rewrite (run_bind_ok _ _ _ _ _ (run_print _ _)), (run_bind_ok _ _ _ _ _ H1).
  rewrite (run_bind_ok _ _ _ _ _ (run_print _ _)).
  by rewrite (run_bind_raise _ _ _ _ _ H2).
Qed.

Lemma run_all_checks_returns parse_dates s0 b s' :
  run_all_checks parse_dates s0 = (Ok b, s') →
  ∃ b1 b2 b3 b4 b5 s1 s2 s3 s4 s5,
    check_required_columns (say CheckingColumns s0) = (Ok b1, s1)
    ∧ check_date_range_six_months parse_dates (say CheckingDates s1) = (Ok b2, s2)
    ∧ check_blocks_leased_range (say CheckingBlocks s2) = (Ok b3, s3)
    ∧ check_workload_range (say CheckingWorkloads s3) = (Ok b4, s4)
    ∧ check_equal_distribution F64.lit_0_05 (say CheckingDistribution s4) = (Ok b5, s5)
    ∧ b = b1 && b2 && b3 && b4 && b5
    ∧ s' = say (if b then AllPassed else SomeFailed) s5.
Proof.
  unfold run_all_checks. intros H.
  rewrite (run_bind_ok _ _ _ _ _ (run_print _ _)) in H.
  apply bind_returns in H as (b1 & s1 & H1 & H).
  rewrite (run_bind_ok _ _ _ _ _ (run_print _ _)) in H.
  apply bind_returns in H as (b2 & s2 & H2 & H).
  rewrite (run_bind_ok _ _ _ _ _ (run_print _ _)) in H.
  apply bind_returns in H as (b3 & s3 & H3 & H).
  rewrite (run_bind_ok _ _ _ _ _ (run_print _ _)) in H.
  apply bind_returns in H as (b4 & s4 & H4 & H).
  rewrite (run_bind_ok _ _ _ _ _ (run_print _ _)) in H.
  apply bind_returns in H as (b5 & s5 & H5 & H).
  exists b1, b2, b3, b4, b5, s1, s2, s3, s4, s5.
  repeat (split; [done|]).
  cbv zeta in H.
  destruct (b1 && b2 && b3 && b4 && b5); cbv [bind print ret] in H;
    injection H as <- <-; done.
Qed.

(** The frames along a run that returns. *)
Lemma run_all_checks_frames parse_dates s0 s1 s2 s3 b1 b2 b3 :
  check_required_columns (say CheckingColumns s0) = (Ok b1, s1) →
  check_date_range_six_months parse_dates (say CheckingDates s1) = (Ok b2, s2) →
  check_blocks_leased_range (say CheckingBlocks s2) = (Ok b3, s3) →
  frame s1 = frame s0
  ∧ (∀ name, name ≠ "date" → frame s2 !! name = frame s0 !! name)
  ∧ (∀ name, name ≠ "date" → name ≠ "total_blocks_leased" →
       frame s3 !! name = frame s0 !! name).
Proof.
  intros H1 H2 H3.
  pose proof (check_required_columns_same_frame (say CheckingColumns s0)) as F1.
  rewrite H1 in F1. unfold same_frame in F1. simpl in F1.
  pose proof (check_date_range_six_months_same_but parse_dates (say CheckingDates s1)) as F2.
  rewrite H2 in F2. simpl in F2.
  pose proof (check_blocks_leased_range_same_but (say CheckingBlocks s2)) as F3.
  rewrite H3 in F3. simpl in F3.
  split; [done|]. split.
  - intros name Hne. rewrite (same_but_lookup name "date" _ _ F2 Hne). simpl. by rewrite F1.
  - intros name Hd Ht. rewrite (same_but_lookup name "total_blocks_leased" _ _ F3 Ht). simpl.
    rewrite (same_but_lookup name "date" _ _ F2 Hd). simpl. by rewrite F1.
Qed.

Lemma run_all_checks_returns_columns parse_dates s0 b s' name :
  run_all_checks parse_dates s0 = (Ok b, s') →
  name ∈ columns_read → is_Some (frame s0 !! name).
Proof.
  intros H Hin.
  destruct (run_all_checks_returns parse_dates s0 b s' H)
    as (b1 & b2 & b3 & b4 & b5 & s1 & s2 & s3 & s4 & s5 & H1 & H2 & H3 & H4 & H5 & _ & _).
  destruct (run_all_checks_frames parse_dates s0 s1 s2 s3 b1 b2 b3 H1 H2 H3)
    as (F1 & F2 & F3).
  destruct (check_date_range_six_months_returns _ _ _ _ H2) as (raw & l & Hraw & _).
  destruct (check_blocks_leased_range_returns _ _ _ H3)
    as (ca & cp & cs & atom & photon & spin & Ha & Hp & Hs & _).
  destruct (check_workload_range_returns _ _ _ H4) as (cw & lw & Hw & _).
  simpl in Hraw, Ha, Hp, Hs, Hw.
  rewrite F1 in Hraw. rewrite F2 in Ha, Hp, Hs by done. rewrite F3 in Hw by done.
  unfold columns_read in Hin.
  repeat (apply elem_of_cons in Hin as [->|Hin]); [eauto ..|by apply elem_of_nil in Hin].
Qed.

Ltac no_summary_tac :=
  respects_steps (prints_only_refl not_summary) (prints_only_trans not_summary);
  first [ apply prints_only_setitem | apply prints_only_print; reflexivity ].

Lemma run_all_checks_raising_no_summary parse_dates :
  raising_respects (prints_only not_summary) (run_all_checks parse_dates).
Proof.
  unfold run_all_checks.
  repeat lazymatch goal with
         | |- raising_respects _ (bind (if _ then _ else _) _) => fail
         | |- raising_respects _ (bind _ _) =>
             apply raising_respects_bind; [apply prints_only_trans | | intros ?]
         end.
  all: try (intros s e s' H; cbv zeta in H;
            destruct (_ && _); cbv [bind print ret] in H; discriminate H).
  all: unfold check_required_columns, check_date_range_six_months,
         check_blocks_leased_range, check_workload_range, check_equal_distribution.
  all: no_summary_tac.
Qed.

(** X17: when the orchestrator returns, each of the five checks has
    returned, in the order schema, date range, blocks volume, workload
    volume, distribution, each from the state the one before it left; the
    result is the conjunction of their results, the last line printed is
    the summary that goes with it, and every column of the frame but
    [date] and [total_blocks_leased] is as it was. *)
Theorem run_all_checks_returns_after_five_checks
    (parse_dates : column → option (list (option Z))) (s0 s' : state) (b : bool) :
  run_all_checks parse_dates s0 = (Ok b, s') →
  (∃ b1 b2 b3 b4 b5 s1 s2 s3 s4 s5,
     check_required_columns (say CheckingColumns s0) = (Ok b1, s1)
     ∧ check_date_range_six_months parse_dates (say CheckingDates s1) = (Ok b2, s2)
     ∧ check_blocks_leased_range (say CheckingBlocks s2) = (Ok b3, s3)
     ∧ check_workload_range (say CheckingWorkloads s3) = (Ok b4, s4)
     ∧ check_equal_distribution F64.lit_0_05 (say CheckingDistribution s4) = (Ok b5, s5)
     ∧ b = b1 && b2 && b3 && b4 && b5
     ∧ s' = say (if b then AllPassed else SomeFailed) s5)
  ∧ last (output s') = Some (if b then AllPassed else SomeFailed)
  ∧ (∀ name, name ≠ "date" → name ≠ "total_blocks_leased" →
       frame s' !! name = frame s0 !! name).
Proof.
  intros H.
  destruct (run_all_checks_returns parse_dates s0 b s' H)
    as (b1 & b2 & b3 & b4 & b5 & s1 & s2 & s3 & s4 & s5 & H1 & H2 & H3 & H4 & H5 & Hb & Hs).
  split; [|split].
  - exists b1, b2, b3, b4, b5, s1, s2, s3, s4, s5. done.
  - rewrite Hs. simpl. apply last_snoc.
  - intros name Hd Ht.
    destruct (run_all_checks_frames parse_dates s0 s1 s2 s3 b1 b2 b3 H1 H2 H3)
      as (_ & _ & F3).
    pose proof (check_workload_range_same_frame (say CheckingWorkloads s3)) as F4.
    rewrite H4 in F4. unfold same_frame in F4. simpl in F4.
    pose proof (check_equal_distribution_same_frame F64.lit_0_05
                  (say CheckingDistribution s4)) as F5.
    rewrite H5 in F5. unfold same_frame in F5. simpl in F5.
    rewrite Hs. simpl. rewrite F5, F4. by apply F3.
Qed.

Lemma run_all_checks_returns_after_five_checks_witness :
  (∃ b1 b2 b3 b4 b5 s1 s2 s3 s4 s5,
     check_required_columns (say CheckingColumns (State df_without_cost [])) = (Ok b1, s1)
     ∧ check_date_range_six_months IsoDate.parse_dates (say CheckingDates s1) = (Ok b2, s2)
     ∧ check_blocks_leased_range (say CheckingBlocks s2) = (Ok b3, s3)
     ∧ check_workload_range (say CheckingWorkloads s3) = (Ok b4, s4)
     ∧ check_equal_distribution F64.lit_0_05 (say CheckingDistribution s4) = (Ok b5, s5)
     ∧ false = b1 && b2 && b3 && b4 && b5
     ∧ snd (run_all_checks IsoDate.parse_dates (State df_without_cost []))
       = say (if false then AllPassed else SomeFailed) s5)
  ∧ last (output (snd (run_all_checks IsoDate.parse_dates (State df_without_cost []))))
    = Some (if false then AllPassed else SomeFailed)
  ∧ (∀ name, name ≠ "date" → name ≠ "total_blocks_leased" →
       frame (snd (run_all_checks IsoDate.parse_dates (State df_without_cost []))) !! name
       = frame (State df_without_cost []) !! name).
Proof.
  apply (run_all_checks_returns_after_five_checks IsoDate.parse_dates
           (State df_without_cost [])).
  vm_compute. reflexivity.
Defined.

(** X18: the orchestrator raises on every frame that lacks one of the
    columns its checks index, [date], the three category columns or
    [total_workloads]: it returns no result on such a frame, whatever the
    other columns hold. *)
Theorem run_all_checks_raises_without_a_column_it_reads
    (parse_dates : column → option (list (option Z))) (s0 : state) (name : string) :
  name ∈ columns_read → frame s0 !! name = None →
  ∃ e, fst (run_all_checks parse_dates s0) = Raise e.
Proof.
  intros Hin Hnone.
  destruct (run_all_checks parse_dates s0) as [[b|e] s'] eqn:H; [|by exists e].
  destruct (run_all_checks_returns_columns parse_dates s0 b s' name H Hin) as [c Hc].
  congruence.
Qed.

Lemma run_all_checks_raises_without_a_column_it_reads_witness :
  ∃ e, fst (run_all_checks IsoDate.parse_dates (State df_required_only [])) = Raise e.
Proof.
  apply (run_all_checks_raises_without_a_column_it_reads IsoDate.parse_dates
           (State df_required_only []) "total_workloads").
  - apply (bool_decide_unpack _). vm_compute. exact I.
  - reflexivity.
Defined.

(** X19: on a frame whose [date] column parses and whose category and
    [total_workloads] columns hold numbers, the orchestrator returns true
    exactly when the seven expected columns are present, the dates span
    170 to 190 days or there is no date, every record's sum of the three
    categories lies in [1000, 10000], every record's workloads lie in
    [1,000,000, 50,000,000], and no cumulative total exceeds the threshold
    of the tolerance 0.05. *)
Theorem run_all_checks_true_iff_every_condition
    (parse_dates : column → option (list (option Z))) (s0 : state)
    (raw ca cp cs cw : column) (l : list (option Z)) (atom photon spin workloads : list Z) :
  frame s0 !! "date" = Some raw →
  to_datetime parse_dates raw = Ok (DateCol l) →
  frame s0 !! "new_blocks_atom" = Some ca →
  frame s0 !! "new_blocks_photon" = Some cp →
  frame s0 !! "new_blocks_spin" = Some cs →
  frame s0 !! "total_workloads" = Some cw →
  values_of ca = Ok atom → values_of cp = Ok photon → values_of cs = Ok spin →
  values_of cw = Ok workloads →
  fst (run_all_checks parse_dates s0) = Ok true
  ↔ (∀ name, name ∈ expected_columns → is_Some (frame s0 !! name))
    ∧ date_span_ok l
    ∧ (∀ i t, total_blocks atom photon spin !! i = Some t → 1000 <= t <= 10000)
    ∧ (∀ i w, workloads !! i = Some w → 1000000 <= w <= 50000000)
    ∧ none_exceeds F64.lit_0_05 (Int64.sum atom) (Int64.sum photon) (Int64.sum spin).
Proof.
  intros Hraw Hparse Ha Hp Hs Hw Va Vp Vs Vw.
  pose proof (check_required_columns_result (say CheckingColumns s0)) as R1.
  cbn [say frame] in R1.
  set (missing := List.filter (λ col, bool_decide (frame s0 !! col = None)) expected_columns)
    in R1.
  set (s1 := say (if is_nonempty missing then MissingRequired missing
                  else AllRequiredPresent) (say CheckingColumns s0)) in *.
  destruct (timedelta_days (ts_fold Z.min l) (ts_fold Z.max l)) as [num_days|e] eqn:Hdays.
  - pose proof (check_date_range_six_months_result parse_dates (say CheckingDates s1)
                  raw l num_days Hraw Hparse Hdays) as R2.
    set (s2 := say _ (with_dates l (say CheckingDates s1))) in R2.
    assert (∀ name, name ≠ "date" → frame s2 !! name = frame s0 !! name) as F2.
    { intros name Hne. unfold s2. cbn [say frame with_dates]. by rewrite lookup_insert_ne. }
    pose proof (check_blocks_leased_range_result (say CheckingBlocks s2) ca cp cs
                  atom photon spin) as R3.
    cbn [say frame] in R3. rewrite !F2 in R3 by done.
    specialize (R3 Ha Hp Hs Va Vp Vs).
    change (State (frame s2) (output s2 ++ [CheckingBlocks]))
      with (say CheckingBlocks s2) in R3.
    set (s3 := say _ (with_totals (total_blocks atom photon spin) (say CheckingBlocks s2)))
      in R3.
    assert (∀ name, name ≠ "date" → name ≠ "total_blocks_leased" →
              frame s3 !! name = frame s0 !! name) as F3.
    { intros name Hd Ht. unfold s3. cbn [say frame with_totals].
      rewrite lookup_insert_ne by done. by apply F2. }
    pose proof (check_workload_range_run (say CheckingWorkloads s3) cw workloads) as R4.
    cbn [say frame] in R4. rewrite F3 in R4 by done. specialize (R4 Hw Vw).
    change (State (frame s3) (output s3 ++ [CheckingWorkloads]))
      with (say CheckingWorkloads s3) in R4.
    set (s4 := say _ (say CheckingWorkloads s3)) in R4.
    destruct (check_equal_distribution_result F64.lit_0_05 (say CheckingDistribution s4)
                ca cp cs atom photon spin) as (s5 & _ & R5);
      [unfold s4; cbn [say frame]; rewrite F3 by done; done ..| done | done | done |].
    rewrite (run_all_checks_steps parse_dates s0 s1 s2 s3 s4 s5 _ _ _ _ _ R1 R2 R3 R4 R5).
    cbn [fst].
    pose proof (missing_columns_nil expected_columns s0) as E1.
    fold missing in E1. rewrite <- is_nonempty_nil in E1.
    pose proof (date_span_ok_days l num_days Hdays) as E2.
    pose proof (all_between_int 1000 10000 (total_blocks atom photon spin)) as E3.
    pose proof (all_between_int 1000000 50000000 workloads) as E4.
    assert (negb (exceeds F64.lit_0_05 (Int64.sum atom)
                    (average (Int64.sum atom) (Int64.sum photon) (Int64.sum spin))
                  || exceeds F64.lit_0_05 (Int64.sum photon)
                       (average (Int64.sum atom) (Int64.sum photon) (Int64.sum spin))
                  || exceeds F64.lit_0_05 (Int64.sum spin)
                       (average (Int64.sum atom) (Int64.sum photon) (Int64.sum spin)))
            = true
            ↔ none_exceeds F64.lit_0_05 (Int64.sum atom) (Int64.sum photon) (Int64.sum spin))
      as E5 by (unfold none_exceeds; rewrite negb_true_iff, !orb_false_iff; tauto).
    split.
    + intros [= Hb]. rewrite !andb_true_iff in Hb. tauto.
    + intros Hc. f_equal. rewrite !andb_true_iff. tauto.
  - pose proof (check_date_range_six_months_run parse_dates (say CheckingDates s1)
                  raw l Hraw Hparse) as R2.
    rewrite Hdays in R2.
    rewrite (run_all_checks_date_raises parse_dates s0 s1 _ _ _ R1 R2).
    split; [done|]. intros (_ & Hd & _). by apply (date_span_out_of_bounds l e) in Hd.
Qed.

Lemma run_all_checks_true_iff_every_condition_witness :
  fst (run_all_checks IsoDate.parse_dates (State df_without_cost [])) = Ok true
  ↔ (∀ name, name ∈ expected_columns → is_Some (df_without_cost !! name))
    ∧ date_span_ok [Some 1704067200000000000; Some 1719619200000000000]
    ∧ (∀ i t, total_blocks [400; 500] [400; 500] [400; 500] !! i = Some t
              → 1000 <= t <= 10000)
    ∧ (∀ i w, [1000000; 2000000] !! i = Some w → 1000000 <= w <= 50000000)
    ∧ none_exceeds F64.lit_0_05 (Int64.sum [400; 500]) (Int64.sum [400; 500])
                   (Int64.sum [400; 500]).
Proof.
  apply (run_all_checks_true_iff_every_condition IsoDate.parse_dates
           (State df_without_cost [])
           (StrCol [Some "2024-01-01"; Some "2024-06-29"])
           (IntCol [400; 500]) (IntCol [400; 500]) (IntCol [400; 500])
           (IntCol [1000000; 2000000])
           [Some 1704067200000000000; Some 1719619200000000000]
           [400; 500] [400; 500] [400; 500] [1000000; 2000000]);
    vm_compute; reflexivity.
Defined.

(** The checks print nothing before they raise. *)
Lemma same_output_refl s : same_output s s.
Proof. reflexivity. Qed.

Lemma same_output_trans s1 s2 s3 :
  same_output s1 s2 → same_output s2 s3 → same_output s1 s3.
Proof. unfold same_output. congruence. Qed.

Lemma same_output_setitem name c : respects same_output (setitem name c).
Proof. intros s. reflexivity. Qed.

Ltac raising_same_output_tac :=
  repeat lazymatch goal with
         | |- raising_respects _ (bind _ _) =>
             apply raising_respects_bind; [apply same_output_trans | | intros ?]
         | |- raising_respects _ (if _ then _ else _) =>
             apply raising_respects_prints; intros ? ? ?; discriminate
         | |- respects _ (setitem _ _) => apply same_output_setitem
         | |- respects _ _ => respects_steps same_output_refl same_output_trans
         end.

(** A check that raises has printed nothing. *)
Lemma check_date_range_six_months_raising_same_output parse_dates :
  raising_respects same_output (check_date_range_six_months parse_dates).
Proof. unfold check_date_range_six_months. raising_same_output_tac. Qed.

Lemma check_blocks_leased_range_raising_same_output :
  raising_respects same_output check_blocks_leased_range.
Proof. unfold check_blocks_leased_range. raising_same_output_tac. Qed.

Lemma check_workload_range_raising_same_output :
  raising_respects same_output check_workload_range.
Proof. unfold check_workload_range. raising_same_output_tac. Qed.

Lemma check_equal_distribution_raising_same_output tolerance :
  raising_respects same_output (check_equal_distribution tolerance).
Proof. unfold check_equal_distribution. raising_same_output_tac. Qed.

Lemma check_required_columns_returns s :
  ∃ b s1, check_required_columns s = (Ok b, s1).
Proof. eexists _, _. apply check_required_columns_result. Qed.

Lemma run_all_checks_blocks_raises parse_dates s0 s1 s2 b1 b2 e s' :
  check_required_columns (say CheckingColumns s0) = (Ok b1, s1) →
  check_date_range_six_months parse_dates (say CheckingDates s1) = (Ok b2, s2) →
  check_blocks_leased_range (say CheckingBlocks s2) = (Raise e, s') →
  run_all_checks parse_dates s0 = (Raise e, s').
Proof.
  intros H1 H2 H3. unfold run_all_checks.
  rewrite (run_bind_ok _ _ _ _ _ (run_print _ _)), (run_bind_ok _ _ _ _ _ H1).
  rewrite (run_bind_ok _ _ _ _ _ (run_print _ _)), (run_bind_ok _ _ _ _ _ H2).
  rewrite (run_bind_ok _ _ _ _ _ (run_print _ _)).
  by rewrite (run_bind_raise _ _ _ _ _ H3).
Qed.

Lemma run_all_checks_workloads_raises parse_dates s0 s1 s2 s3 b1 b2 b3 e s' :
  check_required_columns (say CheckingColumns s0) = (Ok b1, s1) →
  check_date_range_six_months parse_dates (say CheckingDates s1) = (Ok b2, s2) →
  check_blocks_leased_range (say CheckingBlocks s2) = (Ok b3, s3) →
  check_workload_range (say CheckingWorkloads s3) = (Raise e, s') →
  run_all_checks parse_dates s0 = (Raise e, s').
Proof.
  intros H1 H2 H3 H4. unfold run_all_checks.
  rewrite (run_bind_ok _ _ _ _ _ (run_print _ _)), (run_bind_ok _ _ _ _ _ H1).
  rewrite (run_bind_ok _ _ _ _ _ (run_print _ _)), (run_bind_ok _ _ _ _ _ H2).
  rewrite (run_bind_ok _ _ _ _ _ (run_print _ _)), (run_bind_ok _ _ _ _ _ H3).
  rewrite (run_bind_ok _ _ _ _ _ (run_print _ _)).
  by rewrite (run_bind_raise _ _ _ _ _ H4).
Qed.

Lemma run_all_checks_distribution_raises parse_dates s0 s1 s2 s3 s4 b1 b2 b3 b4 e s' :
  check_required_columns (say CheckingColumns s0) = (Ok b1, s1) →
  check_date_range_six_months parse_dates (say CheckingDates s1) = (Ok b2, s2) →
  check_blocks_leased_range (say CheckingBlocks s2) = (Ok b3, s3) →
  check_workload_range (say CheckingWorkloads s3) = (Ok b4, s4) →
  check_equal_distribution F64.lit_0_05 (say CheckingDistribution s4) = (Raise e, s') →
  run_all_checks parse_dates s0 = (Raise e, s').
Proof.
  intros H1 H2 H3 H4 H5. unfold run_all_checks.
  rewrite (run_bind_ok _ _ _ _ _ (run_print _ _)), (run_bind_ok _ _ _ _ _ H1).
  rewrite (run_bind_ok _ _ _ _ _ (run_print _ _)), (run_bind_ok _ _ _ _ _ H2).
  rewrite (run_bind_ok _ _ _ _ _ (run_print _ _)), (run_bind_ok _ _ _ _ _ H3).
  rewrite (run_bind_ok _ _ _ _ _ (run_print _ _)), (run_bind_ok _ _ _ _ _ H4).
  rewrite (run_bind_ok _ _ _ _ _ (run_print _ _)).
  by rewrite (run_bind_raise _ _ _ _ _ H5).
Qed.

(** X20: an exception ends the run of the orchestrator at the check that
    raised it.  The orchestrator raises [e] and leaves [s'] exactly when
    the schema check has returned and then, each check starting after its
    header in the state the check before it left, either the date range
    check raises [e] and leaves [s'], or it returns and the blocks volume
    check raises [e] and leaves [s'], or both return and the workload
    volume check does, or all three return and the distribution check
    does.  The check that raises prints nothing, so the header of that
    check is the last line of the run: no later check is started, and
    neither summary line is printed. *)
Theorem run_all_checks_exception_ends_the_run
    (parse_dates : column → option (list (option Z))) (s0 s' : state) (e : exn) :
  (run_all_checks parse_dates s0 = (Raise e, s')
   ↔ ∃ b1 s1,
       check_required_columns (say CheckingColumns s0) = (Ok b1, s1)
       ∧ ((check_date_range_six_months parse_dates (say CheckingDates s1) = (Raise e, s')
           ∧ output s' = output s1 ++ [CheckingDates])
          ∨ ∃ b2 s2,
              check_date_range_six_months parse_dates (say CheckingDates s1) = (Ok b2, s2)
              ∧ ((check_blocks_leased_range (say CheckingBlocks s2) = (Raise e, s')
                  ∧ output s' = output s2 ++ [CheckingBlocks])
                 ∨ ∃ b3 s3,
                     check_blocks_leased_range (say CheckingBlocks s2) = (Ok b3, s3)
                     ∧ ((check_workload_range (say CheckingWorkloads s3) = (Raise e, s')
                         ∧ output s' = output s3 ++ [CheckingWorkloads])
                        ∨ ∃ b4 s4,
                            check_workload_range (say CheckingWorkloads s3) = (Ok b4, s4)
                            ∧ check_equal_distribution F64.lit_0_05
                                (say CheckingDistribution s4) = (Raise e, s')
                            ∧ output s' = output s4 ++ [CheckingDistribution]))))
  ∧ (run_all_checks parse_dates s0 = (Raise e, s') → prints_only not_summary s0 s').
Proof.
  split; [|by apply (run_all_checks_raising_no_summary parse_dates s0 e s')].
  split.
  - intros H. unfold run_all_checks in H.
    rewrite (run_bind_ok _ _ _ _ _ (run_print _ _)) in H.
    destruct (check_required_columns_returns (say CheckingColumns s0)) as (b1 & s1 & H1).
    rewrite (run_bind_ok _ _ _ _ _ H1) in H.
    exists b1, s1. split; [done|].
    rewrite (run_bind_ok _ _ _ _ _ (run_print _ _)) in H.
    apply bind_raises in H as [H | (b2 & s2 & H2 & H)].
    { left. split; [done|].
      exact (check_date_range_six_months_raising_same_output parse_dates _ _ _ H). }
    right. exists b2, s2. split; [done|].
    rewrite (run_bind_ok _ _ _ _ _ (run_print _ _)) in H.
    apply bind_raises in H as [H | (b3 & s3 & H3 & H)].
    { left. split; [done|].
      exact (check_blocks_leased_range_raising_same_output _ _ _ H). }
    right. exists b3, s3. split; [done|].
    rewrite (run_bind_ok _ _ _ _ _ (run_print _ _)) in H.
    apply bind_raises in H as [H | (b4 & s4 & H4 & H)].
    { left. split; [done|].
      exact (check_workload_range_raising_same_output _ _ _ H). }
    right. exists b4, s4. split; [done|].
    rewrite (run_bind_ok _ _ _ _ _ (run_print _ _)) in H.
    apply bind_raises in H as [H | (b5 & s5 & _ & H)].
    { split; [done|].
      exact (check_equal_distribution_raising_same_output _ _ _ _ H). }
    cbv zeta in H. destruct (_ && _); cbv [bind print ret] in H; discriminate H.
  - intros (b1 & s1 & H1 & [[H2 _] | (b2 & s2 & H2 & [[H3 _] | (b3 & s3 & H3 &
             [[H4 _] | (b4 & s4 & H4 & H5 & _)])])]).
    + by apply (run_all_checks_date_raises parse_dates s0 s1 b1).
    + by apply (run_all_checks_blocks_raises parse_dates s0 s1 s2 b1 b2).
    + by apply (run_all_checks_workloads_raises parse_dates s0 s1 s2 s3 b1 b2 b3).
    + by apply (run_all_checks_distribution_raises parse_dates s0 s1 s2 s3 s4 b1 b2 b3 b4).
Qed.

(** The run on the frame without [total_workloads]: three checks return,
    the fourth raises, the fifth is not started. *)
Example run_all_checks_ends_at_workload_range :
  run_all_checks IsoDate.parse_dates (State df_required_only [])
  = (Raise (KeyError "total_workloads"),
     snd (check_workload_range
            (say CheckingWorkloads
               (snd (check_blocks_leased_range
                       (say CheckingBlocks
                          (snd (check_date_range_six_months IsoDate.parse_dates
                                  (say CheckingDates
                                     (snd (check_required_columns
                                             (say CheckingColumns
                                                (State df_required_only [])))))))))))))
  ∧ last (output (snd (run_all_checks IsoDate.parse_dates (State df_required_only []))))
    = Some CheckingWorkloads.
Proof. vm_compute. split; reflexivity. Qed.

(** A date that cannot be parsed ends the run before the blocks volume
    check. *)
Example run_all_checks_unparseable_date :
  fst (run_all_checks IsoDate.parse_dates
         (State (<["date" := StrCol [Some "2024-13-01"]]> df_required_only) []))
  = Raise ParseError
  ∧ output (snd (run_all_checks IsoDate.parse_dates
                   (State (<["date" := StrCol [Some "2024-13-01"]]> df_required_only) [])))
    = [CheckingColumns; AllRequiredPresent; CheckingDates].
Proof. vm_compute. split; reflexivity. Qed.
